(** * project-monitor: the periodic collector, its history and its write paths

    A shallow embedding of the parts of the repository that carry a
    contract:

    - [controller/app_controller.py]: the bounded history ([deque] with
      [maxlen]) and the collection cycle [update_metrics];
    - [model/system_data.py]: [get_all_metrics] and the four metric groups;
    - [controller/thread_manager.py]: the registry of named worker threads,
      the worker loop and [stop_thread];
    - [model/power_manager.py], [model/sensors.py]: [set_governor] and
      [set_pwm];
    - [model/process_manager.py]: [kill_process].

    Python exceptions are values of an error monad; calls into the operating
    system (psutil, sysfs files, subprocesses, the clock) are answered by an
    explicit environment record, so that every function below is a total,
    executable Rocq function. *)

From Stdlib Require Import ZArith QArith Qabs Qpower Qround String List Lia Bool.
From stdpp Require Import gmap strings list fin_maps pretty sorting.
Import ListNotations.

Local Open Scope string_scope.
Local Open Scope list_scope.
Local Open Scope Z_scope.

(* ===================================================================== *)
(** ** Python exceptions and the error monad *)
(* ===================================================================== *)

Module Py.

(** The exception classes that occur in the modelled sources, with the
    class hierarchy of CPython, [subprocess] and [psutil]. *)
Inductive exn_class :=
| BaseException | Exception
| SystemExit | KeyboardInterrupt | GeneratorExit
| OSError | PermissionError | FileNotFoundError
| ValueError | TypeError | KeyError | AttributeError | RuntimeError
| ZeroDivisionError
| SubprocessError | SubprocessTimeoutExpired
| PsutilError | NoSuchProcess | ZombieProcess | AccessDenied
| PsutilTimeoutExpired.

(** The direct base class. *)
Definition base (c : exn_class) : option exn_class :=
  match c with
  | BaseException => None
  | Exception | SystemExit | KeyboardInterrupt | GeneratorExit =>
      Some BaseException
  | OSError | ValueError | TypeError | KeyError | AttributeError
  | RuntimeError | ZeroDivisionError | SubprocessError | PsutilError =>
      Some Exception
  | PermissionError | FileNotFoundError => Some OSError
  | SubprocessTimeoutExpired => Some SubprocessError
  | NoSuchProcess | AccessDenied | PsutilTimeoutExpired => Some PsutilError
  | ZombieProcess => Some NoSuchProcess
  end.

Definition class_eqb (c d : exn_class) : bool :=
  match c, d with
  | BaseException, BaseException | Exception, Exception
  | SystemExit, SystemExit | KeyboardInterrupt, KeyboardInterrupt
  | GeneratorExit, GeneratorExit | OSError, OSError
  | PermissionError, PermissionError
  | FileNotFoundError, FileNotFoundError | ValueError, ValueError
  | TypeError, TypeError | KeyError, KeyError
  | AttributeError, AttributeError | RuntimeError, RuntimeError
  | ZeroDivisionError, ZeroDivisionError
  | SubprocessError, SubprocessError
  | SubprocessTimeoutExpired, SubprocessTimeoutExpired
  | PsutilError, PsutilError | NoSuchProcess, NoSuchProcess
  | ZombieProcess, ZombieProcess | AccessDenied, AccessDenied
  | PsutilTimeoutExpired, PsutilTimeoutExpired => true
  | _, _ => false
  end.

(** [issubclass c d]: walk up from [c]; the hierarchy is five deep. *)
Fixpoint issubclass_upto (n : nat) (c d : exn_class) : bool :=
  class_eqb c d ||
  match n with
  | O => false
  | S n' => match base c with
            | Some b => issubclass_upto n' b d
            | None => false
            end
  end.

Definition issubclass : exn_class -> exn_class -> bool := issubclass_upto 5.

(** A raised exception: its class and [str(e)]. *)
Record exn := Exn { cls : exn_class; str : string }.

(** [isinstance(e, c)], the test an [except c] clause performs. *)
Definition isinstance (e : exn) (c : exn_class) : bool := issubclass (cls e) c.

(** The outcome of a call: a value, or an exception on its way up. *)
Inductive result (A : Type) :=
| Ok (a : A)
| Raise (e : exn).
Arguments Ok {A} a.
Arguments Raise {A} e.

Definition bind {A B} (r : result A) (k : A -> result B) : result B :=
  match r with
  | Ok a => k a
  | Raise e => Raise e
  end.

Definition raises {A} (r : result A) : bool :=
  match r with Ok _ => false | Raise _ => true end.

End Py.

Import Py.

(** [x ← c; k] runs [c] and, unless it raised, continues with [k]. *)
#[global] Instance result_ret : MRet result := @Ok.
#[global] Instance result_bind : MBind result := fun A B k r => Py.bind r k.

(* ===================================================================== *)
(** ** [collections.deque] with [maxlen]: the history buffer *)
(* ===================================================================== *)

Module Deque.

(** A bounded deque: [maxlen] is set by the constructor and is read-only
    afterwards; [items] runs from the left (oldest) to the right. *)
Record deque (A : Type) := Mk { maxlen : nat; items : list A }.
Arguments Mk {A} maxlen items.
Arguments maxlen {A} d.
Arguments items {A} d.

(** [deque(maxlen=n)]: raises [ValueError] for a negative bound. *)
Definition new {A} (n : Z) : result (deque A) :=
  if n <? 0 then Raise (Exn ValueError "maxlen must be non-negative")
  else Ok (Mk (Z.to_nat n) []).

(** [d.append(x)]: the item is added on the right; a deque that is then
    longer than [maxlen] drops its leftmost item. *)
Definition append {A} (d : deque A) (x : A) : deque A :=
  let grown := items d ++ [x] in
  if (maxlen d <? length grown)%nat
  then Mk (maxlen d) (tl grown)
  else Mk (maxlen d) grown.

(** [list(d)]: a fresh list, oldest first. *)
Definition to_list {A} (d : deque A) : list A := items d.

(** [len(d)]. *)
Definition len {A} (d : deque A) : nat := length (items d).

(** A run of appends, in order. *)
Definition append_all {A} (d : deque A) (xs : list A) : deque A :=
  fold_left append xs d.

End Deque.

(* ===================================================================== *)
(** ** [model/system_data.py]: the Metrics Source *)
(* ===================================================================== *)

Module SystemData.

(** Python floats are modelled as rationals, and an operation on floats as
    the exact operation. What is stated about a computed float is what
    rounding keeps: its order against another number, its sign, and its
    value where the operation is exact. *)
Abbreviation pyfloat := Q.

(** What psutil hands back. *)
Record scpufreq := { freq_current : pyfloat; freq_min : pyfloat; freq_max : pyfloat }.

Record svmem := {
  vm_total : Z; vm_available : Z; vm_used : Z; vm_percent : pyfloat;
  (* platform dependent attributes, read with [getattr(memory, _, 0)] *)
  vm_buffers : option Z; vm_cached : option Z; vm_shared : option Z }.

Record sdiskpart := { part_device : string; part_mountpoint : string; part_fstype : string }.

Record sdiskusage := { du_total : Z; du_used : Z; du_free : Z; du_percent : pyfloat }.

Record snetio := {
  io_bytes_sent : Z; io_bytes_recv : Z; io_packets_sent : Z;
  io_packets_recv : Z; io_errin : Z; io_errout : Z }.

(** The answers of the operating system during one collection cycle. *)
Record Env := {
  cpu_percent_total : result pyfloat;          (* psutil.cpu_percent(interval=0.1) *)
  cpu_percent_percpu : result (list pyfloat);  (* ... percpu=True *)
  cpu_freq : result (option scpufreq);         (* psutil.cpu_freq() *)
  cpu_count_physical : result (option Z);      (* psutil.cpu_count(logical=False) *)
  cpu_count_logical : result (option Z);       (* psutil.cpu_count(logical=True) *)
  virtual_memory : result svmem;               (* psutil.virtual_memory() *)
  ram_fragmentation : result (option pyfloat); (* self._get_ram_fragmentation_linux() *)
  disk_partitions : result (list sdiskpart);   (* psutil.disk_partitions() *)
  disk_usage : string -> result sdiskusage;    (* psutil.disk_usage(mountpoint) *)
  disk_fragmentation : string -> string -> result (option pyfloat);
                                               (* self._get_disk_fragmentation_linux(mountpoint, fstype) *)
  net_io_counters : result (option snetio);    (* psutil.net_io_counters(); None without interfaces *)
  net_time : pyfloat;                          (* time.time() in get_network_metrics *)
  time_time : pyfloat;                         (* time.time() in get_all_metrics *)
}.

(** The dictionaries the getters build. *)
Record CpuMetrics := {
  total_percent : pyfloat; per_core_percent : list pyfloat;
  core_count : option Z; logical_count : option Z;
  frequency : option scpufreq }.

Record RamMetrics := {
  ram_total : Z; ram_available : Z; ram_used : Z; ram_percent : pyfloat;
  fragmentation : option pyfloat;
  buffers : Z; cached : Z; shared : Z }.

Record PartitionData := {
  device : string; mountpoint : string; fstype : string;
  p_total : Z; p_used : Z; p_free : Z; p_percent : pyfloat;
  p_fragmentation : option pyfloat }.

Record TotalUsage := { tu_total : Z; tu_used : Z; tu_free : Z; tu_percent : pyfloat }.

Record StorageMetrics := { partitions : list PartitionData; total_usage : TotalUsage }.

Record NetworkMetrics := {
  bytes_sent : Z; bytes_recv : Z;
  total_bytes_sent : Z; total_bytes_recv : Z;
  upload_speed : pyfloat; download_speed : pyfloat;
  packets_sent : Z; packets_recv : Z; errin : Z; errout : Z }.

Record Metrics := {
  cpu : CpuMetrics; ram : RamMetrics; storage : StorageMetrics;
  network : NetworkMetrics; timestamp : pyfloat;
  read_time : option string   (* the key 'read_time', added by the controller *) }.

(** The instance: the network counters of the previous call. *)
Record t := { _last_net_io : option snetio; _last_net_time : pyfloat }.

(** [SystemData.__init__]. *)
Definition new (io : result (option snetio)) (now : pyfloat) : result t :=
  counters ← io;
  mret {| _last_net_io := counters; _last_net_time := now |}.

(** [get_cpu_metrics]: three queries, then the two counts inside the
    dictionary display. *)
Definition get_cpu_metrics (env : Env) : result CpuMetrics :=
  cpu_percent_total ← cpu_percent_total env;
  cpu_percent_per_core ← cpu_percent_percpu env;
  cpu_freq ← cpu_freq env;
  physical ← cpu_count_physical env;
  logical ← cpu_count_logical env;
  mret {| total_percent := cpu_percent_total;
          per_core_percent := cpu_percent_per_core;
          core_count := physical;
          logical_count := logical;
          frequency := cpu_freq |}.

(** [get_ram_metrics]. *)
Definition get_ram_metrics (env : Env) : result RamMetrics :=
  memory ← virtual_memory env;
  frag ← ram_fragmentation env;
  mret {| ram_total := vm_total memory;
          ram_available := vm_available memory;
          ram_used := vm_used memory;
          ram_percent := vm_percent memory;
          fragmentation := frag;
          buffers := default 0 (vm_buffers memory);
          cached := default 0 (vm_cached memory);
          shared := default 0 (vm_shared memory) |}.

(** The body of the [for partition in partitions] loop: its [try] block. *)
Definition partition_data (env : Env) (p : sdiskpart) : result PartitionData :=
  usage ← disk_usage env (part_mountpoint p);
  frag ← disk_fragmentation env (part_mountpoint p) (part_fstype p);
  mret {| device := part_device p; mountpoint := part_mountpoint p;
          fstype := part_fstype p;
          p_total := du_total usage; p_used := du_used usage;
          p_free := du_free usage; p_percent := du_percent usage;
          p_fragmentation := frag |}.

(** The loop of [get_storage_metrics]: [except (PermissionError, OSError):
    continue] skips a partition; any other exception leaves the loop. *)
Fixpoint storage_loop (env : Env) (ps : list sdiskpart)
    (acc : list PartitionData * Z * Z) : result (list PartitionData * Z * Z) :=
  match ps with
  | [] => Ok acc
  | p :: rest =>
      let '(infos, total_used, total_size) := acc in
      match partition_data env p with
      | Ok d => storage_loop env rest
                  (infos ++ [d], total_used + p_used d, total_size + p_total d)
      | Raise e =>
          if isinstance e PermissionError || isinstance e OSError
          then storage_loop env rest acc
          else Raise e
      end
  end.

(** [get_storage_metrics]. *)
Definition get_storage_metrics (env : Env) : result StorageMetrics :=
  parts ← disk_partitions env;
  '(infos, total_used, total_size) ← storage_loop env parts ([], 0, 0);
  mret {| partitions := infos;
          total_usage :=
            {| tu_total := total_size; tu_used := total_used;
               tu_free := total_size - total_used;
               tu_percent :=
                 if 0 <? total_size
                 then (inject_Z total_used / inject_Z total_size * 100)%Q
                 else 0%Q |} |}.

(** Attribute access on the value of [psutil.net_io_counters()]: on [None]
    it raises [AttributeError]. *)
Definition counters_of (o : option snetio) : result snetio :=
  match o with
  | Some c => Ok c
  | None => Raise (Exn AttributeError "'NoneType' object has no attribute 'bytes_sent'")
  end.

(** [get_network_metrics]: the deltas since the previous call; the stored
    counters are replaced only once the deltas are computed. *)
Definition get_network_metrics (sd : t) (env : Env) : result (NetworkMetrics * t) :=
  current_net_io ← net_io_counters env;
  let current_time := net_time env in
  let time_delta := (current_time - _last_net_time sd)%Q in
  current ← counters_of current_net_io;
  last ← counters_of (_last_net_io sd);
  let bytes_sent_delta := io_bytes_sent current - io_bytes_sent last in
  let bytes_recv_delta := io_bytes_recv current - io_bytes_recv last in
  let speed (delta : Z) : pyfloat :=
    if Qle_bool time_delta 0 then 0%Q else (inject_Z delta / time_delta)%Q in
  mret ({| bytes_sent := bytes_sent_delta;
           bytes_recv := bytes_recv_delta;
           total_bytes_sent := io_bytes_sent current;
           total_bytes_recv := io_bytes_recv current;
           upload_speed := speed bytes_sent_delta;
           download_speed := speed bytes_recv_delta;
           packets_sent := io_packets_sent current;
           packets_recv := io_packets_recv current;
           errin := io_errin current;
           errout := io_errout current |},
        {| _last_net_io := current_net_io; _last_net_time := current_time |}).

(** [get_all_metrics]: one dictionary display; its values are evaluated in
    source order and there is no handler, so the first group that raises
    ends the call. *)
Definition get_all_metrics (sd : t) (env : Env) : result (Metrics * t) :=
  c ← get_cpu_metrics env;
  r ← get_ram_metrics env;
  s ← get_storage_metrics env;
  '(n, sd') ← get_network_metrics sd env;
  mret ({| cpu := c; ram := r; storage := s; network := n;
           timestamp := time_time env; read_time := None |}, sd').

End SystemData.

(* ===================================================================== *)
(** ** [controller/app_controller.py]: history and collection cycle *)
(* ===================================================================== *)

Module AppController.

Import SystemData.

(** [int(x)] on a float: truncation towards zero. *)
Definition int_of_float (x : pyfloat) : Z := Z.quot (Qnum x) (Z.pos (Qden x)).

(** [a // b] on integers. *)
Definition floordiv (a b : Z) : result Z :=
  if b =? 0 then Raise (Exn ZeroDivisionError "integer division or modulo by zero")
  else Ok (a / b).

(** The class constants. [MAX_HISTORY_ENTRIES] is written as a function of
    the other two, as the class body computes it. *)
Definition UPDATE_INTERVAL : pyfloat := 2%Q.
Definition HISTORY_DURATION : Z := 3600.
Definition max_history_entries (history_duration : Z) (update_interval : pyfloat) : result Z :=
  floordiv history_duration (int_of_float update_interval).
Definition MAX_HISTORY_ENTRIES : result Z :=
  max_history_entries HISTORY_DURATION UPDATE_INTERVAL.

(** One entry of the history: the dictionary [update_metrics] appends. *)
Record HistoryEntry := {
  h_timestamp : pyfloat; h_cpu_percent : pyfloat; h_ram_percent : pyfloat;
  h_network_upload : pyfloat; h_network_download : pyfloat }.

(** What reaches the outside: lines on the console, the console dashboard
    (whole, or cut short by an exception), a call of the view callback. *)
Inductive output :=
| Print (line : string)
| Dashboard (m : Metrics) (complete : bool)
| ViewCall (m : Metrics).

(** The view callback is code of the presentation layer: given the metrics
    it returns or raises. *)
Definition view_callback := Metrics -> result unit.

Record t := {
  _system_data : SystemData.t;
  _metrics_history : Deque.deque HistoryEntry;
  _current_metrics : option Metrics;
  _is_monitoring : bool;
  _view_callback : option view_callback;
  out : list output }.

(** [AppController.__init__] for given class constants. *)
Definition init_with (history_duration : Z) (update_interval : pyfloat)
    (io : result (option snetio)) (now : pyfloat) : result t :=
  sd ← SystemData.new io now;
  n ← max_history_entries history_duration update_interval;
  history ← Deque.new n;
  mret {| _system_data := sd; _metrics_history := history;
          _current_metrics := None; _is_monitoring := false;
          _view_callback := None;
          out := [Print "[AppController] Controller initialized."] |}.

Definition init := init_with HISTORY_DURATION UPDATE_INTERVAL.

(** [set_view_callback]. *)
Definition set_view_callback (c : t) (cb : view_callback) : t :=
  {| _system_data := _system_data c; _metrics_history := _metrics_history c;
     _current_metrics := _current_metrics c; _is_monitoring := _is_monitoring c;
     _view_callback := Some cb;
     out := out c ++ [Print "[AppController] View callback registered."] |}.

(** The entry built from the current metrics. *)
Definition entry_of (m : Metrics) : HistoryEntry :=
  {| h_timestamp := timestamp m;
     h_cpu_percent := total_percent (cpu m);
     h_ram_percent := ram_percent (ram m);
     h_network_upload := upload_speed (network m);
     h_network_download := download_speed (network m) |}.

(** [_print_metrics_to_console]: the dashboard multiplies the fragmentation
    of the RAM and of the first three partitions by 100; on [None] that
    raises [TypeError] after the lines before it are out. *)
Definition console_complete (m : Metrics) : bool :=
  bool_decide (is_Some (fragmentation (ram m))) &&
  forallb (fun p => bool_decide (is_Some (p_fragmentation p)))
          (firstn 3 (partitions (storage m))).

Definition _print_metrics_to_console (m : Metrics) : result unit * list output :=
  if console_complete m then (Ok tt, [Dashboard m true])
  else (Raise (Exn TypeError "unsupported operand type(s) for *: 'NoneType' and 'int'"),
        [Dashboard m false]).

(** [_notify_view]. *)
Definition _notify_view (cur : option Metrics) (cb : option view_callback)
  : result unit * list output :=
  match cur with
  | None => (Ok tt, [])
  | Some m =>
      match cb with
      | Some f => (f m, [ViewCall m])
      | None => _print_metrics_to_console m
      end
  end.

(** [self._current_metrics['read_time'] = datetime.now().isoformat()]. *)
Definition stamp (m0 : Metrics) (now_iso : string) : Metrics :=
  {| cpu := cpu m0; ram := ram m0; storage := storage m0;
     network := network m0; timestamp := timestamp m0;
     read_time := Some now_iso |}.

(** The [except Exception as e] clause of [update_metrics]. *)
Definition error_line (e : exn) : output :=
  Print ("[AppController] Error updating metrics: " +:+ str e).

(** [update_metrics]. [now_iso] is [datetime.now().isoformat()]. The
    handler catches what is an [Exception]; assignments made before the
    exception stay. The second component is the exception that leaves the
    method, if any. *)
Definition update_metrics (c : t) (env : Env) (now_iso : string) : t * option exn :=
  let handler (c' : t) (e : exn) : t * option exn :=
    if isinstance e Exception
    then ({| _system_data := _system_data c';
             _metrics_history := _metrics_history c';
             _current_metrics := _current_metrics c';
             _is_monitoring := _is_monitoring c';
             _view_callback := _view_callback c';
             out := out c' ++ [error_line e] |}, None)
    else (c', Some e) in
  match get_all_metrics (_system_data c) env with
  | Raise e => handler c e
  | Ok (m0, sd') =>
      let m := stamp m0 now_iso in
      let history := Deque.append (_metrics_history c) (entry_of m) in
      let '(r, emitted) := _notify_view (Some m) (_view_callback c) in
      let c' := {| _system_data := sd'; _metrics_history := history;
                   _current_metrics := Some m;
                   _is_monitoring := _is_monitoring c;
                   _view_callback := _view_callback c;
                   out := out c ++ emitted |} in
      match r with
      | Ok _ => (c', None)
      | Raise e => handler c' e
      end
  end.

(** [get_metrics_history]: a copy of the history as a list. *)
Definition get_metrics_history (c : t) : list HistoryEntry :=
  Deque.to_list (_metrics_history c).

(** [get_current_metrics]. *)
Definition get_current_metrics (c : t) : option Metrics := _current_metrics c.

(** A run of collection cycles, one environment (and clock reading) each;
    it stops at a cycle that lets an exception through. *)
Fixpoint run_cycles (c : t) (envs : list (Env * string)) : t * option exn :=
  match envs with
  | [] => (c, None)
  | (env, now_iso) :: rest =>
      match update_metrics c env now_iso with
      | (c', None) => run_cycles c' rest
      | (c', Some e) => (c', Some e)
      end
  end.

End AppController.

(* ===================================================================== *)
(** ** [controller/thread_manager.py]: the periodic scheduler *)
(* ===================================================================== *)

Module ThreadManager.

(** *** The callback, as the worker sees it *)

(** One invocation of the callback takes some time and then returns or
    raises. Time is a logical clock counted in ticks. *)
Inductive completion :=
| Returns
| Raises (e : exn).

Record invocation := { duration : Z; how : completion }.

(** A callback is known by what its k-th invocation does. *)
Definition callback := nat -> invocation.

(** *** [_collection_worker] as a timed machine

    The places where the worker can be: at the test of the [while], inside
    [callback()] with [rest] ticks to go, inside
    [stop_event.wait(timeout=interval)] with [rest] ticks of the timeout to
    go, or past the end of the function ([Exited None]) or killed by an
    exception no handler took ([Exited (Some e)]).

    Time passes only inside the callback and inside the wait; the test of
    the loop and the handler take none. *)
Inductive pc :=
| LoopTest
| InCallback (rest : Z) (h : completion)
| InWait (rest : Z)
| Exited (uncaught : option exn).

(** A [threading.Thread] object with its target's arguments. [clock] is the
    time the thread has run; [begins] records the clock at each entry into
    [callback()]. *)
Record Thread := {
  name : string;
  target_callback : callback;
  target_interval : Z;
  stop_event : nat;         (* reference to the Event object *)
  started : bool;
  at_pc : pc;
  calls : nat;
  clock : Z;
  begins : list Z }.

Definition move (th : Thread) (p : pc) : Thread :=
  {| name := name th; target_callback := target_callback th;
     target_interval := target_interval th; stop_event := stop_event th;
     started := started th; at_pc := p; calls := calls th;
     clock := clock th; begins := begins th |}.

Definition enter_callback (th : Thread) : Thread :=
  let inv := target_callback th (calls th) in
  {| name := name th; target_callback := target_callback th;
     target_interval := target_interval th; stop_event := stop_event th;
     started := started th;
     at_pc := InCallback (Z.max 0 (duration inv)) (how inv);
     calls := S (calls th);
     clock := clock th; begins := begins th ++ [clock th] |}.

(** [Thread.is_alive()]. *)
Definition is_alive (th : Thread) : bool :=
  started th && match at_pc th with Exited _ => false | _ => true end.

(** The [except Exception as e] clause of the worker. *)
Definition error_line (e : exn) : string :=
  "[ThreadManager] Error in callback: " +:+ str e.

(** The next transition of the worker, taken at no cost of time; [flag] is
    [stop_event.is_set()]. It returns what the transition prints. *)
Definition fire (flag : bool) (th : Thread) : Thread * list string :=
  match at_pc th with
  | LoopTest =>
      (* while not stop_event.is_set(): *)
      if flag then (move th (Exited None), []) else (enter_callback th, [])
  | InCallback _ Returns =>
      (move th (InWait (Z.max 0 (target_interval th))), [])
  | InCallback _ (Raises e) =>
      if isinstance e Exception
      then (move th (InWait (Z.max 0 (target_interval th))), [error_line e])
      else (move th (Exited (Some e)), [])
  | InWait _ => (move th LoopTest, [])
  | Exited _ => (th, [])
  end.

(** The time until the next transition: the callback has to finish; the
    wait ends with its timeout, or at once when the event is set. *)
Definition due (flag : bool) (th : Thread) : option Z :=
  if negb (started th) then None
  else match at_pc th with
       | LoopTest => Some 0
       | InCallback rest _ => Some (Z.max 0 rest)
       | InWait rest => Some (if flag then 0 else Z.max 0 rest)
       | Exited _ => None
       end.

(** [t] ticks pass inside the callback or inside the wait. *)
Definition delay (t : Z) (th : Thread) : Thread :=
  {| name := name th; target_callback := target_callback th;
     target_interval := target_interval th; stop_event := stop_event th;
     started := started th;
     at_pc := match at_pc th with
              | InCallback rest h => InCallback (rest - t) h
              | InWait rest => InWait (rest - t)
              | p => p
              end;
     calls := calls th; clock := clock th + t; begins := begins th |}.

(** The worker runs for [budget] ticks, or until it has exited; [fuel]
    bounds the number of transitions. *)
Fixpoint run (fuel : nat) (flag : bool) (budget : Z) (th : Thread)
  : Thread * list string :=
  match fuel with
  | O => (th, [])
  | S fuel' =>
      match due flag th with
      | None => (th, [])
      | Some t =>
          if budget <? t then (delay budget th, [])
          else
            let '(th1, printed1) := fire flag (delay t th) in
            let '(th2, printed2) := run fuel' flag (budget - t) th1 in
            (th2, printed1 ++ printed2)
      end
  end.

(** *** The manager and the objects it refers to *)

(** [_threads] and [_stop_events] hold references; [threads] and [events]
    are the objects themselves, every one created so far, an [Event] being
    its flag. *)
Record World := {
  _threads : gmap string nat;
  _stop_events : gmap string nat;
  threads : list Thread;
  events : list bool;
  stdout : list string }.

(** [ThreadManager.__init__]. *)
Definition init : World :=
  {| _threads := ∅; _stop_events := ∅; threads := []; events := []; stdout := [] |}.

Definition print (line : string) (w : World) : World :=
  {| _threads := _threads w; _stop_events := _stop_events w;
     threads := threads w; events := events w;
     stdout := stdout w ++ [line] |}.

(** [event.is_set()]. *)
Definition is_set (w : World) (eid : nat) : bool := default false (events w !! eid).

(** [event.set()]. *)
Definition set_event (eid : nat) (w : World) : World :=
  {| _threads := _threads w; _stop_events := _stop_events w;
     threads := threads w; events := <[eid := true]> (events w);
     stdout := stdout w |}.

(** [thread.is_alive()] through a reference. *)
Definition alive_at (w : World) (tid : nat) : bool :=
  match threads w !! tid with
  | Some th => is_alive th
  | None => false
  end.

(** Thread [tid] runs for [t] ticks, reading its own stop event. *)
Definition advance (fuel : nat) (tid : nat) (t : Z) (w : World) : World :=
  match threads w !! tid with
  | None => w
  | Some th =>
      let '(th', printed) := run fuel (is_set w (stop_event th)) (Z.max 0 t) th in
      {| _threads := _threads w; _stop_events := _stop_events w;
         threads := <[tid := th']> (threads w); events := events w;
         stdout := stdout w ++ printed |}
  end.

(** What a thread does while a caller is inside
    [thread.join(timeout=timeout)]: it runs until it has exited or the
    timeout is over. A timeout that is not positive does not block at all:
    the caller returns at once, and a live thread has had no time to act,
    not even on an event set the moment before. A timeout of a tick or more
    is long against the time a wake-up takes. *)
Definition joined (fuel : nat) (flag : bool) (timeout : Z) (th : Thread)
    : Thread * list string :=
  if timeout <=? 0 then (th, []) else run fuel flag timeout th.

(** [thread.join(timeout=timeout)] through a reference. *)
Definition join (fuel : nat) (tid : nat) (timeout : Z) (w : World) : World :=
  match threads w !! tid with
  | None => w
  | Some th =>
      let '(th', printed) := joined fuel (is_set w (stop_event th)) timeout th in
      {| _threads := _threads w; _stop_events := _stop_events w;
         threads := <[tid := th']> (threads w); events := events w;
         stdout := stdout w ++ printed |}
  end.

(** [is_thread_running]. *)
Definition is_thread_running (thread_name : string) (w : World) : bool :=
  match _threads w !! thread_name with
  | None => false
  | Some tid => alive_at w tid
  end.

(** [threading.Thread(target=self._collection_worker,
    args=(callback, interval, stop_event), name=thread_name, daemon=True)],
    before or after [start()]. *)
Definition new_thread (thread_name : string) (cb : callback) (interval : Z)
    (eid : nat) (is_started : bool) : Thread :=
  {| name := thread_name; target_callback := cb;
     target_interval := interval; stop_event := eid;
     started := is_started;
     at_pc := LoopTest; calls := O; clock := 0; begins := [] |}.

(** [start_data_collection_thread]. [os_start] is the outcome of
    [thread.start()], which the operating system may refuse. *)
Definition start_data_collection_thread (cb : callback) (interval : Z)
    (thread_name : string) (os_start : result unit) (w : World)
  : World * result bool :=
  if is_thread_running thread_name w then
    (print ("[ThreadManager] Thread '" +:+ thread_name +:+ "' already running.") w,
     Ok false)
  else
    let eid := length (events w) in
    let tid := length (threads w) in
    let thread := new_thread thread_name cb interval eid (negb (raises os_start)) in
    let w1 :=
      {| _threads := <[thread_name := tid]> (_threads w);
         _stop_events := <[thread_name := eid]> (_stop_events w);
         threads := threads w ++ [thread];
         events := events w ++ [false];
         stdout := stdout w |} in
    match os_start with
    | Raise e => (w1, Raise e)
    | Ok _ =>
        (print ("[ThreadManager] Thread '" +:+ thread_name +:+
                "' started with interval " +:+ pretty interval +:+ "s.") w1,
         Ok true)
    end.

(** [stop_thread]. *)
Definition stop_thread (fuel : nat) (thread_name : string) (timeout : Z)
    (w : World) : World * result bool :=
  match _threads w !! thread_name with
  | None =>
      (print ("[ThreadManager] Thread '" +:+ thread_name +:+ "' not found.") w,
       Ok false)
  | Some tid =>
      let stop_event := _stop_events w !! thread_name in
      if negb (alive_at w tid) then
        (print ("[ThreadManager] Thread '" +:+ thread_name +:+ "' is not running.") w,
         Ok true)
      else
        let w1 := match stop_event with
                  | Some eid => set_event eid w
                  | None => w
                  end in
        let w2 := join fuel tid timeout w1 in
        if alive_at w2 tid then
          (print ("[ThreadManager] Thread '" +:+ thread_name +:+
                  "' did not stop within timeout.") w2,
           Ok false)
        else
          (print ("[ThreadManager] Thread '" +:+ thread_name +:+
                  "' stopped successfully.") w2,
           Ok true)
  end.

(** *** What can happen to a manager

    Calls of [start_data_collection_thread] and [stop_thread] (each runs
    under [self._lock], so calls do not overlap), and time passing for a
    worker. Workers share nothing but their stop events, so each is
    advanced on its own clock; the callers are not worker threads. *)
Inductive step : World -> World -> Prop :=
| step_start cb interval thread_name os_start w :
    step w (start_data_collection_thread cb interval thread_name os_start w).1
| step_stop fuel thread_name timeout w :
    step w (stop_thread fuel thread_name timeout w).1
| step_time fuel tid t w :
    step w (advance fuel tid t w).

Definition reachable (w : World) : Prop := rtc step init w.

(** At most one live thread carries a given name. *)
Definition one_active_per_name (w : World) : Prop :=
  ∀ i j thi thj,
    threads w !! i = Some thi → threads w !! j = Some thj →
    name thi = name thj → is_alive thi = true → is_alive thj = true → i = j.

End ThreadManager.

(* ===================================================================== *)
(** ** Control surfaces: [model/power_manager.py], [model/sensors.py] *)
(* ===================================================================== *)

Module Host.

(** [s.strip()] and [s.split()] on ASCII white space. *)
Fixpoint lstrip (s : string) : string :=
  match s with
  | String a s' => if Ascii.is_space a then lstrip s' else s
  | EmptyString => EmptyString
  end.

Definition strip (s : string) : string :=
  String.rev (lstrip (String.rev (lstrip s))).

Definition split (s : string) : list string := String.words s.

(** [sep.join(parts)]. *)
Fixpoint join_with (sep : string) (parts : list string) : string :=
  match parts with
  | [] => ""
  | [p] => p
  | p :: rest => p +:+ sep +:+ join_with sep rest
  end.

(** [x in parts] on a list of strings. *)
Definition mem (x : string) (parts : list string) : bool :=
  existsb (String.eqb x) parts.

(** The value of [subprocess.run(..., capture_output=True, text=True)]. *)
Record CompletedProcess := { returncode : Z; out_text : string; err_text : string }.

(** The machine the write paths run on. *)
Record t := {
  readline : string -> result string;           (* open(path, "r") ... f.readline() *)
  write : string -> string -> result unit;      (* open(path, "w") ... f.write(value) *)
  parse_int : string -> result Z;               (* int(value) on a string *)
  path_exists : string -> bool;                 (* Path.exists() *)
  which : string -> option string;              (* shutil.which(name) *)
  sys_executable : string;                      (* sys.executable, possibly empty *)
  subprocess_run : list string -> result CompletedProcess;
                                                (* subprocess.run(cmd, ..., timeout=10) *)
}.

(** The library calls raise instances of [Exception] only. *)
Definition raises_exceptions_only {A} (r : result A) : Prop :=
  ∀ e, r = Raise e → isinstance e Exception = true.

Definition well_behaved (h : t) : Prop :=
  (∀ p, raises_exceptions_only (readline h p)) ∧
  (∀ p v, raises_exceptions_only (write h p v)) ∧
  (∀ s, raises_exceptions_only (parse_int h s)) ∧
  (∀ cmd, raises_exceptions_only (subprocess_run h cmd)).

(** The answer every write path gives: [{"success": ..., "message": ...}]. *)
Record Response := { success : bool; message : string }.

End Host.

Module PowerManager.

Import Host.

Record t := { cpu_paths : list string; use_pkexec : bool; helper_path : string }.

(** [_safe_read_str]: the first line, stripped; [""] on any exception. *)
Definition _safe_read_str (h : Host.t) (path : string) : result string :=
  match readline h path with
  | Ok line => Ok (strip line)
  | Raise e => if isinstance e Exception then Ok "" else Raise e
  end.

(** [_safe_write_str]: whether the write went through. *)
Definition _safe_write_str (h : Host.t) (path value : string) : result bool :=
  match write h path value with
  | Ok _ => Ok true
  | Raise e => if isinstance e Exception then Ok false else Raise e
  end.

(** [_safe_int]. *)
Definition _safe_int (h : Host.t) (value : string) : result (option Z) :=
  match parse_int h value with
  | Ok n => Ok (Some n)
  | Raise e => if isinstance e Exception then Ok None else Raise e
  end.

Record Governors := {
  current : option string;
  available : list string;
  max_freq : option (option Z);   (* the key is absent without cpufreq *)
  min_freq : option (option Z) }.

(** [get_governors]: the first CPU stands for all. *)
Definition get_governors (pm : t) (h : Host.t) : result Governors :=
  match cpu_paths pm with
  | [] => Ok {| current := None; available := []; max_freq := None; min_freq := None |}
  | path :: _ =>
      cur ← _safe_read_str h (path +:+ "/scaling_governor");
      avail ← _safe_read_str h (path +:+ "/scaling_available_governors");
      let available_list := if String.eqb avail "" then [] else split avail in
      maxf ← _safe_read_str h (path +:+ "/scaling_max_freq");
      minf ← _safe_read_str h (path +:+ "/scaling_min_freq");
      maxi ← _safe_int h maxf;
      mini ← _safe_int h minf;
      mret {| current := Some cur; available := available_list;
              max_freq := Some maxi; min_freq := Some mini |}
  end.

(** [_run_helper]: the privileged helper under pkexec. Only
    [subprocess.SubprocessError] has a handler. *)
Definition _run_helper (pm : t) (h : Host.t)
    (governor : option string) (max_freq_khz : option Z) : result Response :=
  if negb (path_exists h (helper_path pm)) then
    Ok {| success := false; message := "Helper de energía no encontrado" |}
  else if negb (bool_decide (is_Some (which h "pkexec"))) then
    Ok {| success := false; message := "pkexec no disponible para elevar privilegios" |}
  else
    let python_bin :=
      if String.eqb (sys_executable h) "" then "/usr/bin/python3" else sys_executable h in
    let cmd := ["pkexec"; python_bin; helper_path pm]
      ++ match governor with
         | Some g => if String.eqb g "" then [] else ["--governor"; g]
         | None => []
         end
      ++ match max_freq_khz with
         | Some k => if k =? 0 then [] else ["--max-freq-khz"; pretty k]
         | None => []
         end in
    match subprocess_run h cmd with
    | Ok result =>
        if returncode result =? 0 then
          let text := strip (out_text result) in
          Ok {| success := true;
                message := if String.eqb text "" then "Perfil aplicado con pkexec" else text |}
        else
          let text := strip (err_text result) in
          Ok {| success := false;
                message := if String.eqb text "" then "pkexec falló en aplicar el perfil" else text |}
    | Raise exc =>
        if isinstance exc SubprocessError then
          Ok {| success := false; message := "Error ejecutando pkexec: " +:+ str exc |}
        else Raise exc
    end.

(** The [for path in self.cpu_paths] loops: the paths whose write failed. *)
Fixpoint write_all (h : Host.t) (file value : string) (paths : list string)
  : result (list string) :=
  match paths with
  | [] => Ok []
  | path :: rest =>
      Py.bind (_safe_write_str h (path +:+ file) value) (fun ok : bool =>
      errors ← write_all h file value rest;
      mret (if ok then errors else path :: errors))
  end.

(** [set_governor]. *)
Definition set_governor (pm : t) (h : Host.t) (governor : string) : result Response :=
  if String.eqb governor "" then
    Ok {| success := false; message := "Gobernador no especificado" |}
  else match cpu_paths pm with
  | [] => Ok {| success := false; message := "No se encontró ruta cpufreq" |}
  | _ =>
      governors ← get_governors pm h;
      let available := available governors in
      if negb (length available =? 0)%nat && negb (mem governor available) then
        Ok {| success := false;
              message := "Gobernador '" +:+ governor +:+ "' no soportado. Disponibles: "
                         +:+ join_with ", " available |}
      else
        errors ← write_all h "/scaling_governor" governor (cpu_paths pm);
        match errors with
        | [] => Ok {| success := true;
                      message := "Gobernador establecido en '" +:+ governor +:+ "'" |}
        | _ =>
            if use_pkexec pm then _run_helper pm h (Some governor) None
            else Ok {| success := false;
                       message := "No se pudo escribir en " +:+ pretty (length errors)
                                  +:+ " CPU(s). Requiere permisos." |}
        end
  end.

End PowerManager.

Module SensorsReader.

Import Host.

(** [set_pwm]: the whole body is inside [try]; [PermissionError] and then
    [Exception] have handlers. *)
Definition set_pwm (h : Host.t) (pwm_path : string) (value : Z) : result Response :=
  let body : result Response :=
    if (value <? 0) || (255 <? value) then
      Ok {| success := false; message := "PWM fuera de rango (0-255)" |}
    else
      _ ← write h pwm_path (pretty value);
      mret {| success := true; message := "PWM ajustado a " +:+ pretty value |} in
  match body with
  | Ok r => Ok r
  | Raise exc =>
      if isinstance exc PermissionError then
        Ok {| success := false; message := "Permiso denegado al escribir PWM" |}
      else if isinstance exc Exception then
        Ok {| success := false; message := "Error al escribir PWM: " +:+ str exc |}
      else Raise exc
  end.

End SensorsReader.

(** [model/fan_manager.py] forwards to the sensors reader. *)
Module FanManager.

Definition set_pwm := SensorsReader.set_pwm.

End FanManager.

(* ===================================================================== *)
(** ** [model/process_manager.py]: [kill_process] *)
(* ===================================================================== *)

Module ProcessManager.

(** What psutil answers for one process. *)
Record Psutil := {
  Process : Z -> result unit;      (* psutil.Process(pid) *)
  proc_name : Z -> result string;  (* proc.name() *)
  proc_kill : Z -> result unit;    (* proc.kill() *)
  proc_terminate : Z -> result unit; (* proc.terminate() *)
  proc_wait : Z -> result unit;    (* proc.wait(timeout=3) *)
}.

(** psutil raises instances of [Exception] only. *)
Definition well_behaved (ps : Psutil) : Prop :=
  ∀ pid,
    Host.raises_exceptions_only (Process ps pid) ∧
    Host.raises_exceptions_only (proc_name ps pid) ∧
    Host.raises_exceptions_only (proc_kill ps pid) ∧
    Host.raises_exceptions_only (proc_terminate ps pid) ∧
    Host.raises_exceptions_only (proc_wait ps pid).

(** The dictionary [kill_process] returns. *)
Record KillResult := { success : bool; message : string; pid : Z }.

(** The [try] block of [kill_process]. *)
Definition kill_body (ps : Psutil) (pid : Z) (force : bool) : result KillResult :=
  _ ← Process ps pid;
  proc_name ← proc_name ps pid;
  action ← (if force
            then (_ ← proc_kill ps pid; mret "killed (SIGKILL)")
            else (_ ← proc_terminate ps pid; mret "terminated (SIGTERM)"));
  let success_result :=
    {| success := true;
       message := "Process '" +:+ proc_name +:+ "' (PID: " +:+ pretty pid +:+ ") was "
                  +:+ action +:+ " successfully.";
       pid := pid |} in
  match proc_wait ps pid with
  | Ok _ => Ok success_result
  | Raise e =>
      if isinstance e PsutilTimeoutExpired then
        if negb force then
          Ok {| success := false;
                message := "Process '" +:+ proc_name +:+ "' (PID: " +:+ pretty pid +:+
                           ") did not terminate gracefully. Try with force=True.";
                pid := pid |}
        else Ok success_result
      else Raise e
  end.

(** [kill_process]: the three handlers, in source order. *)
Definition kill_process (ps : Psutil) (pid : Z) (force : bool) : result KillResult :=
  match kill_body ps pid force with
  | Ok r => Ok r
  | Raise e =>
      if isinstance e NoSuchProcess then
        Ok {| success := false;
              message := "Process with PID " +:+ pretty pid +:+ " does not exist.";
              pid := pid |}
      else if isinstance e AccessDenied then
        Ok {| success := false;
              message := "Access denied. Cannot terminate process with PID " +:+ pretty pid
                         +:+ ". Try running with elevated privileges.";
              pid := pid |}
      else if isinstance e Exception then
        Ok {| success := false;
              message := "Error terminating process with PID " +:+ pretty pid +:+ ": " +:+ str e;
              pid := pid |}
      else Raise e
  end.

End ProcessManager.

(* ===================================================================== *)
(** * Properties *)
(* ===================================================================== *)

(** ** The history buffer *)

Section DequeFacts.

Context {A : Type}.
Implicit Types (d : Deque.deque A) (x : A) (xs : list A).

(** The last [n] items of a list. *)
Definition lastn (n : nat) (l : list A) : list A := drop (length l - n) l.

Lemma lastn_length n (l : list A) : length (lastn n l) = (length l `min` n)%nat.
Proof. unfold lastn. rewrite length_drop. lia. Qed.

Lemma lastn_app_lastn n (l r : list A) : lastn n (lastn n l ++ r) = lastn n (l ++ r).
Proof.
  unfold lastn. rewrite !length_app, length_drop.
  rewrite <- (drop_app_le l r (length l - n)) by lia.
  rewrite drop_drop. f_equal. lia.
Qed.

(** A deque never holds more than [maxlen] items. *)
Definition within_capacity d : Prop := (Deque.len d ≤ Deque.maxlen d)%nat.

Lemma append_maxlen d x : Deque.maxlen (Deque.append d x) = Deque.maxlen d.
Proof. unfold Deque.append. by case_match. Qed.

Lemma append_items d x :
  within_capacity d →
  Deque.items (Deque.append d x) = lastn (Deque.maxlen d) (Deque.items d ++ [x]).
Proof.
  unfold within_capacity, Deque.len, Deque.append, lastn. intros Hcap.
  rewrite length_app. simpl length.
  destruct (Nat.ltb_spec (Deque.maxlen d) (length (Deque.items d) + 1)) as [Hfull|Hroom]; simpl.
  - replace (length (Deque.items d) + 1 - Deque.maxlen d)%nat with 1%nat by lia.
    by destruct (Deque.items d ++ [x]).
  - by replace (length (Deque.items d) + 1 - Deque.maxlen d)%nat with 0%nat by lia.
Qed.

Lemma append_within_capacity d x :
  within_capacity d → within_capacity (Deque.append d x).
Proof.
  intros Hcap. unfold within_capacity, Deque.len.
  rewrite append_items, append_maxlen, lastn_length by done. lia.
Qed.

Lemma append_all_maxlen d xs : Deque.maxlen (Deque.append_all d xs) = Deque.maxlen d.
Proof.
  unfold Deque.append_all. revert d.
  induction xs as [|x xs IH]; intros d; [done|].
  simpl. by rewrite IH, append_maxlen.
Qed.

Lemma append_all_items d xs :
  within_capacity d →
  Deque.items (Deque.append_all d xs) = lastn (Deque.maxlen d) (Deque.items d ++ xs).
Proof.
  revert d. induction xs as [|x xs IH]; intros d Hcap.
  - simpl. rewrite app_nil_r. unfold lastn.
    by replace (length (Deque.items d) - Deque.maxlen d)%nat with 0%nat
      by (unfold within_capacity, Deque.len in Hcap; lia).
  - change (Deque.append_all d (x :: xs))
      with (Deque.append_all (Deque.append d x) xs).
    rewrite IH by by apply append_within_capacity.
    rewrite append_maxlen, append_items by done.
    by rewrite lastn_app_lastn, <- app_assoc.
Qed.

Lemma new_within_capacity (n : Z) d : Deque.new n = Ok d → within_capacity d.
Proof.
  unfold Deque.new. case_match; [done|]. intros [= <-].
  unfold within_capacity, Deque.len. simpl. lia.
Qed.

Lemma new_items (n : Z) d : Deque.new n = Ok d → Deque.items d = [] ∧ Deque.maxlen d = Z.to_nat n.
Proof. unfold Deque.new. case_match; [done|]. by intros [= <-]. Qed.

End DequeFacts.

(** ** The collection cycle and the history it fills *)

Section CycleFacts.

Import SystemData AppController.

Implicit Types (c : AppController.t) (env : Env).

(** The Reading a cycle obtains from the Metrics Source, if it obtains one. *)
Definition reading c env (now_iso : string) : option Metrics :=
  match get_all_metrics (_system_data c) env with
  | Ok (m0, _) => Some (stamp m0 now_iso)
  | Raise _ => None
  end.

(** The Readings of a run of cycles, in order. *)
Fixpoint readings c (envs : list (Env * string)) : list Metrics :=
  match envs with
  | [] => []
  | (env, now_iso) :: rest =>
      option_list (reading c env now_iso) ++
      match update_metrics c env now_iso with
      | (c', None) => readings c' rest
      | (_, Some _) => []
      end
  end.

(** Every cycle of the run obtained its Reading and let no exception out. *)
Fixpoint all_collected c (envs : list (Env * string)) : bool :=
  match envs with
  | [] => true
  | (env, now_iso) :: rest =>
      match reading c env now_iso, update_metrics c env now_iso with
      | Some _, (c', None) => all_collected c' rest
      | _, _ => false
      end
  end.

(** A cycle that obtains its Reading stores it, appends its entry to the
    history and hands it to the Notifier, whatever the Notifier then does. *)
Lemma update_metrics_collects c env now_iso m :
  reading c env now_iso = Some m →
  let c' := (update_metrics c env now_iso).1 in
  _metrics_history c' = Deque.append (_metrics_history c) (entry_of m) ∧
  _current_metrics c' = Some m.
Proof.
  unfold reading, update_metrics.
  destruct (get_all_metrics _ _) as [[m0 sd']|e]; [|done].
  intros [= <-].
  destruct (_notify_view (Some _) _) as [[[]|e] emitted]; simpl; [done|].
  by destruct (isinstance e Exception).
Qed.

(** A cycle whose Metrics Source raises leaves history and current metrics
    as they were. *)
Lemma update_metrics_fails c env now_iso :
  reading c env now_iso = None →
  let c' := (update_metrics c env now_iso).1 in
  _metrics_history c' = _metrics_history c ∧
  _current_metrics c' = _current_metrics c.
Proof.
  unfold reading, update_metrics.
  destruct (get_all_metrics _ _) as [[m0 sd']|e]; [done|].
  intros _. simpl. by destruct (isinstance e Exception).
Qed.

(** No cycle changes the capacity of the history. *)
Lemma update_metrics_maxlen c env now_iso :
  Deque.maxlen (_metrics_history (update_metrics c env now_iso).1) =
  Deque.maxlen (_metrics_history c).
Proof.
  destruct (reading c env now_iso) as [m|] eqn:Hr.
  - destruct (update_metrics_collects _ _ _ _ Hr) as [-> _]. apply append_maxlen.
  - by destruct (update_metrics_fails _ _ _ Hr) as [-> _].
Qed.

Lemma update_metrics_within_capacity c env now_iso :
  within_capacity (_metrics_history c) →
  within_capacity (_metrics_history (update_metrics c env now_iso).1).
Proof.
  intros Hcap. destruct (reading c env now_iso) as [m|] eqn:Hr.
  - destruct (update_metrics_collects _ _ _ _ Hr) as [-> _].
    by apply append_within_capacity.
  - by destruct (update_metrics_fails _ _ _ Hr) as [-> _].
Qed.

Lemma run_cycles_maxlen c envs :
  Deque.maxlen (_metrics_history (run_cycles c envs).1) =
  Deque.maxlen (_metrics_history c).
Proof.
  revert c. induction envs as [|[env now_iso] rest IH]; intros c; [done|].
  simpl. pose proof (update_metrics_maxlen c env now_iso) as Hm.
  destruct (update_metrics c env now_iso) as [c' [e|]]; simpl in *; [done|].
  by rewrite IH.
Qed.

(** The history after any run of cycles: one append per Reading obtained,
    whether or not the Notifier then fails. *)
Lemma run_cycles_appends c envs :
  _metrics_history (run_cycles c envs).1 =
    Deque.append_all (_metrics_history c) (entry_of <$> readings c envs).
Proof.
  revert c. induction envs as [|[env now_iso] rest IH]; intros c; [done|].
  simpl. destruct (reading c env now_iso) as [m|] eqn:Hr.
  - pose proof (update_metrics_collects _ _ _ _ Hr) as [Hh _].
    destruct (update_metrics c env now_iso) as [c' [e|]]; simpl in *.
    + by rewrite Hh.
    + by rewrite IH, Hh.
  - pose proof (update_metrics_fails _ _ _ Hr) as [Hh _].
    destruct (update_metrics c env now_iso) as [c' [e|]]; simpl in *.
    + by rewrite Hh.
    + by rewrite IH, Hh.
Qed.

(** The history after a run of cycles: one append per Reading. *)
Lemma run_cycles_history c envs :
  all_collected c envs = true →
  (run_cycles c envs).2 = None ∧
  length (readings c envs) = length envs ∧
  _metrics_history (run_cycles c envs).1 =
    Deque.append_all (_metrics_history c) (entry_of <$> readings c envs).
Proof.
  revert c. induction envs as [|[env now_iso] rest IH]; intros c; [done|].
  simpl. destruct (reading c env now_iso) as [m|] eqn:Hr; [|done].
  pose proof (update_metrics_collects _ _ _ _ Hr) as [Hh _].
  destruct (update_metrics c env now_iso) as [c' [e|]]; [done|].
  intros Hrest. destruct (IH _ Hrest) as (Hnone & Hlen & Hhist).
  simpl in *. rewrite Hhist, Hh. auto with lia.
Qed.

End CycleFacts.

Section CapacityFacts.

Import SystemData AppController.

Lemma int_of_float_inject_Z (i : Z) : int_of_float (inject_Z i) = i.
Proof. unfold int_of_float. simpl. apply Z.quot_1_r. Qed.

(** [int()] of a float that is not negative is its floor. *)
Lemma int_of_float_floor (x : pyfloat) : (0 <= x)%Q → int_of_float x = Qfloor x.
Proof.
  destruct x as [n d]. unfold Qle, int_of_float. simpl.
  intros Hn. apply Z.quot_div_nonneg; lia.
Qed.

Lemma int_of_float_small (x : pyfloat) : (0 <= x)%Q → (x < 1)%Q → int_of_float x = 0.
Proof.
  destruct x as [n d]. unfold Qle, Qlt, int_of_float. simpl.
  intros Hn Hlt. apply Z.quot_small. lia.
Qed.

Lemma init_with_history hd ui io now c :
  init_with hd ui io now = Ok c →
  ∃ n, max_history_entries hd ui = Ok n ∧ 0 ≤ n ∧
       _metrics_history c = Deque.Mk (Z.to_nat n) [].
Proof.
  unfold init_with, mbind, result_bind, Py.bind.
  destruct (SystemData.new io now) as [sd|]; [|done].
  destruct (max_history_entries hd ui) as [n|]; [|done].
  unfold Deque.new. destruct (Z.ltb_spec n 0); [done|].
  intros [= <-]. exists n. auto.
Qed.

(** The history after a run of cycles that all obtained their Reading,
    starting from an empty history. *)
Lemma run_cycles_snapshot c envs (n : nat) :
  _metrics_history c = Deque.Mk n [] →
  all_collected c envs = true →
  get_metrics_history (run_cycles c envs).1 =
    drop (length envs - n) (entry_of <$> readings c envs).
Proof.
  intros Hc Hall. destruct (run_cycles_history _ _ Hall) as (_ & Hlen & Hhist).
  unfold get_metrics_history, Deque.to_list.
  rewrite Hhist, append_all_items by (rewrite Hc; unfold within_capacity, Deque.len; simpl; lia).
  rewrite Hc. simpl. unfold lastn. by rewrite length_fmap, Hlen.
Qed.

End CapacityFacts.

(** A machine on which every query succeeds, read at time [t]. *)
Definition calm_env (t : Q) : SystemData.Env :=
  {| SystemData.cpu_percent_total := Ok 12%Q;
     SystemData.cpu_percent_percpu := Ok [10%Q; 14%Q];
     SystemData.cpu_freq := Ok None;
     SystemData.cpu_count_physical := Ok (Some 2);
     SystemData.cpu_count_logical := Ok (Some 2);
     SystemData.virtual_memory :=
       Ok {| SystemData.vm_total := 1000; SystemData.vm_available := 600;
             SystemData.vm_used := 400; SystemData.vm_percent := 40%Q;
             SystemData.vm_buffers := None; SystemData.vm_cached := None;
             SystemData.vm_shared := None |};
     SystemData.ram_fragmentation := Ok None;
     SystemData.disk_partitions := Ok [];
     SystemData.disk_usage := fun _ => Raise (Exn FileNotFoundError "no such mount point");
     SystemData.disk_fragmentation := fun _ _ => Ok None;
     SystemData.net_io_counters :=
       Ok (Some {| SystemData.io_bytes_sent := 0; SystemData.io_bytes_recv := 0;
                   SystemData.io_packets_sent := 0; SystemData.io_packets_recv := 0;
                   SystemData.io_errin := 0; SystemData.io_errout := 0 |});
     SystemData.net_time := t;
     SystemData.time_time := t |}.

(** Seven cycles, two seconds apart. *)
Definition seven_cycles : list (SystemData.Env * string) :=
  (fun t : Z => (calm_env (inject_Z t), "")) <$> [2; 4; 6; 8; 10; 12; 14].

Definition fresh_controller (duration : Z) (interval : Q) : Py.result AppController.t :=
  AppController.init_with duration interval
    (SystemData.net_io_counters (calm_env 0)) 0%Q.

(** C1. The history of a controller with capacity [C], over any run of
    collection cycles: the snapshot [get_metrics_history] returns never has
    more than [C] entries and holds, oldest first, the last [C] of the
    entries the history had and the cycles appended; once the cycles have
    appended more than [C] entries it holds exactly the last [C] of these.
    A cycle that appends to a history at capacity evicts the single oldest
    entry. [AppController.__init__] builds the history empty, with capacity
    1800. *)
Theorem history_holds_last_appended
    (c : AppController.t) (envs : list (SystemData.Env * string)) :
  within_capacity (AppController._metrics_history c) →
  let C := Deque.maxlen (AppController._metrics_history c) in
  let appended := AppController.entry_of <$> readings c envs in
  let snapshot := AppController.get_metrics_history (AppController.run_cycles c envs).1 in
  (length snapshot ≤ C)%nat ∧
  snapshot = lastn C (AppController.get_metrics_history c ++ appended) ∧
  ((C < length appended)%nat → snapshot = drop (length appended - C) appended) ∧
  (∀ env now_iso m oldest others,
     reading c env now_iso = Some m →
     AppController.get_metrics_history c = oldest :: others →
     length (oldest :: others) = C →
     AppController.get_metrics_history (AppController.update_metrics c env now_iso).1
     = others ++ [AppController.entry_of m]) ∧
  (∀ io now c0,
     AppController.init io now = Ok c0 →
     AppController.get_metrics_history c0 = [] ∧
     Deque.maxlen (AppController._metrics_history c0) = 1800%nat).
Proof.
  intros Hcap C appended snapshot.
  assert (Hsnap : snapshot = lastn C (AppController.get_metrics_history c ++ appended)).
  { subst snapshot. unfold AppController.get_metrics_history, Deque.to_list.
    by rewrite run_cycles_appends, append_all_items. }
  split; [|split; [done|split; [|split]]].
  - rewrite Hsnap, lastn_length. lia.
  - intros Hmore. rewrite Hsnap. unfold lastn. rewrite length_app.
    rewrite drop_app_ge by lia. f_equal. lia.
  - intros env now_iso m oldest others Hr Hitems Hfull.
    destruct (update_metrics_collects _ _ _ _ Hr) as [Hh _].
    unfold AppController.get_metrics_history, Deque.to_list in *.
    rewrite Hh, append_items, Hitems by done.
    unfold lastn. rewrite length_app. subst C. rewrite <- Hfull.
    by replace (length (oldest :: others) + length [AppController.entry_of m] - length (oldest :: others))%nat
      with 1%nat by (simpl; lia).
  - intros io now c0 Hinit.
    destruct (init_with_history _ _ _ _ _ Hinit) as (n & Hn & _ & Hh).
    injection Hn as <-. unfold AppController.get_metrics_history.
    rewrite Hh. split; reflexivity.
Qed.

Lemma history_holds_last_appended_witness :
  ∃ c, fresh_controller 10 2%Q = Ok c ∧
       AppController.h_timestamp <$>
         AppController.get_metrics_history (AppController.run_cycles c seven_cycles).1
       = inject_Z <$> [6; 8; 10; 12; 14].
Proof.
  destruct (fresh_controller 10 2%Q) as [c|] eqn:Hc; [|discriminate Hc].
  exists c. split; [reflexivity|].
  assert (Hcap : within_capacity (AppController._metrics_history c)).
  { injection Hc as <-. unfold within_capacity, Deque.len. simpl. lia. }
  destruct (history_holds_last_appended c seven_cycles Hcap) as (_ & _ & Hlast & _).
  rewrite Hlast.
  - injection Hc as <-. vm_compute. reflexivity.
  - injection Hc as <-. vm_compute. lia.
Defined.

(** C7, as the specification states it: the capacity is the history
    duration divided by the sampling interval. *)
Definition capacity_is_duration_over_interval : Prop :=
  ∀ (duration : Z) (interval : SystemData.pyfloat),
    (0 < interval)%Q →
    AppController.max_history_entries duration interval
    = Ok (Qfloor (inject_Z duration / interval)).

(** C7 fails for an interval that is not a whole number of seconds: [int()]
    truncates it before the division. Ten seconds of history sampled every
    2.5 s are 5 entries, not 4, and with an interval of half a second the
    class body raises [ZeroDivisionError]. *)
Lemma fractional_interval_truncated :
  AppController.max_history_entries 10 (5 # 2)%Q = Ok 5 ∧
  Qfloor (inject_Z 10 / (5 # 2)) = 4 ∧
  AppController.max_history_entries 10 (1 # 2)%Q
    = Raise (Exn ZeroDivisionError "integer division or modulo by zero") ∧
  ¬ capacity_is_duration_over_interval.
Proof.
  split; [reflexivity|]. split; [reflexivity|]. split; [reflexivity|].
  intros Hclaim. specialize (Hclaim 10 (5 # 2)%Q eq_refl). discriminate Hclaim.
Qed.

(** C7, amended. The capacity of the history is the history duration
    divided by the whole seconds of the sampling interval: by the interval
    itself when it is a whole number, and in general by the interval
    truncated, an interval below one second raising [ZeroDivisionError].
    For the shipped constants it is [3600 // 2 = 1800]: that is the
    capacity [AppController.__init__] builds the history with, and no
    collection cycle or callback registration changes it. With a duration
    of 10 s and an interval of 2 s the capacity is 5, and after 7 cycles the
    snapshot has exactly 5 entries, the oldest being the Reading of
    cycle 3. *)
Theorem history_capacity_fixed :
  AppController.MAX_HISTORY_ENTRIES = Ok 1800 ∧
  (∀ duration interval : Z, interval ≠ 0 →
     AppController.max_history_entries duration (inject_Z interval)
     = Ok (duration / interval)) ∧
  (∀ (duration : Z) (interval : SystemData.pyfloat),
     ((1 <= interval)%Q →
      AppController.max_history_entries duration interval
      = Ok (duration / Qfloor interval)) ∧
     ((0 <= interval)%Q → (interval < 1)%Q →
      AppController.max_history_entries duration interval
      = Raise (Exn ZeroDivisionError "integer division or modulo by zero"))) ∧
  (∀ io now c,
     AppController.init io now = Ok c →
     Deque.maxlen (AppController._metrics_history c) = 1800%nat ∧
     (∀ envs, Deque.maxlen (AppController._metrics_history
                              (AppController.run_cycles c envs).1) = 1800%nat) ∧
     (∀ cb, Deque.maxlen (AppController._metrics_history
                            (AppController.set_view_callback c cb)) = 1800%nat)) ∧
  (∀ duration interval io now c,
     AppController.init_with duration interval io now = Ok c →
     ∃ n, AppController.max_history_entries duration interval = Ok n ∧
          Deque.maxlen (AppController._metrics_history c) = Z.to_nat n ∧
          (∀ envs, Deque.maxlen (AppController._metrics_history
                                   (AppController.run_cycles c envs).1) = Z.to_nat n) ∧
          (∀ cb, Deque.maxlen (AppController._metrics_history
                                 (AppController.set_view_callback c cb)) = Z.to_nat n)) ∧
  (∀ io now c envs,
     AppController.init_with 10 2%Q io now = Ok c →
     length envs = 7%nat →
     all_collected c envs = true →
     let snapshot := AppController.get_metrics_history (AppController.run_cycles c envs).1 in
     Deque.maxlen (AppController._metrics_history c) = 5%nat ∧
     length snapshot = 5%nat ∧
     head snapshot = AppController.entry_of <$> (readings c envs !! 2%nat)).
Proof.
  split; [done|]. split; [|split; [|split; [|split]]].
  - intros duration interval Hnz.
    unfold AppController.max_history_entries, AppController.floordiv.
    rewrite int_of_float_inject_Z.
    by destruct (Z.eqb_spec interval 0).
  - intros duration interval. split.
    + intros Hone.
      unfold AppController.max_history_entries, AppController.floordiv.
      rewrite int_of_float_floor by (eapply Qle_trans; [|exact Hone]; done).
      pose proof (Qfloor_resp_le _ _ Hone) as Hfloor.
      change (Qfloor 1) with 1 in Hfloor.
      by destruct (Z.eqb_spec (Qfloor interval) 0); [lia|].
    + intros Hpos Hsmall.
      unfold AppController.max_history_entries, AppController.floordiv.
      by rewrite int_of_float_small.
  - intros io now c Hinit.
    destruct (init_with_history _ _ _ _ _ Hinit) as (n & Hn & _ & Hh).
    injection Hn as <-. split; [rewrite Hh; reflexivity|]. split.
    + intros envs. rewrite run_cycles_maxlen, Hh. reflexivity.
    + intros cb. simpl. rewrite Hh. reflexivity.
  - intros duration interval io now c Hinit.
    destruct (init_with_history _ _ _ _ _ Hinit) as (n & Hn & _ & Hh).
    exists n. split; [done|]. split; [by rewrite Hh|]. split.
    + intros envs. by rewrite run_cycles_maxlen, Hh.
    + intros cb. simpl. by rewrite Hh.
  - intros io now c envs Hinit Hlen Hall snapshot.
    destruct (init_with_history _ _ _ _ _ Hinit) as (n & Hn & _ & Hh).
    injection Hn as <-. change (Z.to_nat (10 / 2)) with 5%nat in Hh.
    subst snapshot. rewrite (run_cycles_snapshot _ _ _ Hh Hall), Hlen.
    destruct (run_cycles_history _ _ Hall) as (_ & Hrl & _).
    split; [by rewrite Hh|]. split.
    + rewrite length_drop, length_fmap, Hrl, Hlen. done.
    + rewrite head_lookup, lookup_drop, list_lookup_fmap. done.
Qed.

Lemma history_capacity_fixed_witness :
  ∃ c, fresh_controller 10 2%Q = Ok c ∧
       let snapshot := AppController.get_metrics_history
                         (AppController.run_cycles c seven_cycles).1 in
       length snapshot = 5%nat ∧
       AppController.h_timestamp <$> head snapshot = Some (inject_Z 6).
Proof.
  destruct (fresh_controller 10 2%Q) as [c|] eqn:Hc; [|discriminate Hc].
  exists c. split; [reflexivity|].
  destruct history_capacity_fixed as (_ & _ & _ & _ & _ & Hscenario).
  destruct (Hscenario _ _ c seven_cycles Hc eq_refl
              ltac:(injection Hc as <-; vm_compute; reflexivity))
    as (_ & Hlen & Hhead).
  split; [exact Hlen|].
  rewrite Hhead. injection Hc as <-. vm_compute. reflexivity.
Defined.

(** ** A metric group that fails *)

Section GroupFailure.

Import SystemData AppController.

Implicit Types (c : AppController.t) (env : Env) (sd : SystemData.t).

(** Some metric group raises during the cycle. *)
Definition group_failed sd env : bool :=
  raises (get_cpu_metrics env) || raises (get_ram_metrics env) ||
  raises (get_storage_metrics env) || raises (get_network_metrics sd env).

(** The controller after its handler has printed the error. *)
Definition logged c (e : exn) : AppController.t :=
  {| _system_data := _system_data c; _metrics_history := _metrics_history c;
     _current_metrics := _current_metrics c; _is_monitoring := _is_monitoring c;
     _view_callback := _view_callback c;
     out := out c ++ [AppController.error_line e] |}.

(** What the Notifier is handed: the argument of the view callback, or the
    metrics the console dashboard prints. *)
Definition handed (o : output) : option Metrics :=
  match o with
  | ViewCall m | Dashboard m _ => Some m
  | Print _ => None
  end.

(** [get_all_metrics] raises exactly when one of its groups does. *)
Lemma get_all_metrics_raises sd env :
  raises (get_all_metrics sd env) = group_failed sd env.
Proof.
  unfold get_all_metrics, group_failed, mbind, result_bind, Py.bind.
  destruct (get_cpu_metrics env); [|done].
  destruct (get_ram_metrics env); [|done].
  destruct (get_storage_metrics env); [|done].
  by destruct (get_network_metrics sd env) as [[n sd']|].
Qed.

(** With the other groups fine, the exception of the network group is the
    exception of the whole query. *)
Lemma network_failure_propagates sd env e :
  raises (get_cpu_metrics env) = false →
  raises (get_ram_metrics env) = false →
  raises (get_storage_metrics env) = false →
  get_network_metrics sd env = Raise e →
  get_all_metrics sd env = Raise e.
Proof.
  unfold get_all_metrics, mbind, result_bind, Py.bind.
  destruct (get_cpu_metrics env); [|done].
  destruct (get_ram_metrics env); [|done].
  destruct (get_storage_metrics env); [|done].
  by intros _ _ _ ->.
Qed.

End GroupFailure.

(** The machine of [calm_env] with a network query that raises. *)
Definition net_down_env (t : Q) : SystemData.Env :=
  let env := calm_env t in
  {| SystemData.cpu_percent_total := SystemData.cpu_percent_total env;
     SystemData.cpu_percent_percpu := SystemData.cpu_percent_percpu env;
     SystemData.cpu_freq := SystemData.cpu_freq env;
     SystemData.cpu_count_physical := SystemData.cpu_count_physical env;
     SystemData.cpu_count_logical := SystemData.cpu_count_logical env;
     SystemData.virtual_memory := SystemData.virtual_memory env;
     SystemData.ram_fragmentation := SystemData.ram_fragmentation env;
     SystemData.disk_partitions := SystemData.disk_partitions env;
     SystemData.disk_usage := SystemData.disk_usage env;
     SystemData.disk_fragmentation := SystemData.disk_fragmentation env;
     SystemData.net_io_counters := Raise (Exn OSError "cannot read /proc/net/dev");
     SystemData.net_time := t;
     SystemData.time_time := t |}.

(** A view callback that accepts every Reading. *)
Definition accepting_view : AppController.view_callback := fun _ => Ok tt.

(** C3, as the specification states it. *)
Definition partial_reading_delivered : Prop :=
  ∀ (c : AppController.t) (env : SystemData.Env) (now_iso : string),
    raises (SystemData.get_cpu_metrics env) = false →
    raises (SystemData.get_ram_metrics env) = false →
    raises (SystemData.get_storage_metrics env) = false →
    raises (SystemData.get_network_metrics (AppController._system_data c) env) = true →
    ∃ m,
      (* the query does not raise and yields a Reading with its CPU and RAM groups *)
      reading c env now_iso = Some m ∧
      Ok (SystemData.cpu m) = SystemData.get_cpu_metrics env ∧
      Ok (SystemData.ram m) = SystemData.get_ram_metrics env ∧
      (* and the Notifier receives it *)
      ∃ o, o ∈ drop (length (AppController.out c))
                  (AppController.out (AppController.update_metrics c env now_iso).1) ∧
           handed o = Some m.

(** C3 fails: a network query that raises, on a machine whose CPU, RAM and
    storage queries succeed, makes [get_all_metrics] raise; the cycle prints
    its error line, and neither the history nor the view callback gets a
    Reading. *)
Lemma network_failure_loses_reading :
  ∃ c, fresh_controller 3600 2%Q = Ok c ∧
    let c := AppController.set_view_callback c accepting_view in
    let env := net_down_env 2%Q in
    raises (SystemData.get_cpu_metrics env) = false ∧
    raises (SystemData.get_ram_metrics env) = false ∧
    raises (SystemData.get_storage_metrics env) = false ∧
    SystemData.get_all_metrics (AppController._system_data c) env
      = Raise (Exn OSError "cannot read /proc/net/dev") ∧
    AppController.update_metrics c env ""
      = (logged c (Exn OSError "cannot read /proc/net/dev"), None) ∧
    AppController.get_metrics_history (AppController.update_metrics c env "").1 = [] ∧
    ¬ partial_reading_delivered.
Proof.
  destruct (fresh_controller 3600 2%Q) as [c|] eqn:Hc; [|discriminate Hc].
  exists c. split; [reflexivity|].
  repeat (split; [injection Hc as <-; vm_compute; reflexivity|]).
  intros Hclaim.
  destruct (Hclaim (AppController.set_view_callback c accepting_view)
                   (net_down_env 2%Q) "" eq_refl eq_refl eq_refl
                   ltac:(injection Hc as <-; reflexivity))
    as (m & Hm & _).
  injection Hc as <-. vm_compute in Hm. discriminate Hm.
Qed.

(** C3, amended. [get_all_metrics] has no handler of its own: when a metric
    group raises, the whole query raises and there is no Reading; the cycle
    catches the exception, prints one error line, leaves the history and the
    current metrics as they were and does not call the Notifier. When no
    group raises, the Reading holds all four groups, its entry is appended
    to the history and the Notifier is handed the Reading. In both cases no
    exception leaves the cycle. *)
Theorem failed_group_skips_cycle
    (c : AppController.t) (env : SystemData.Env) (now_iso : string) :
  (∀ e, SystemData.get_all_metrics (AppController._system_data c) env = Raise e →
        isinstance e Exception = true) →
  (∀ view m e, AppController._view_callback c = Some view → view m = Raise e →
               isinstance e Exception = true) →
  (AppController.update_metrics c env now_iso).2 = None ∧
  (group_failed (AppController._system_data c) env = true →
     ∃ e, SystemData.get_all_metrics (AppController._system_data c) env = Raise e ∧
          reading c env now_iso = None ∧
          AppController.update_metrics c env now_iso = (logged c e, None)) ∧
  (group_failed (AppController._system_data c) env = false →
     ∃ m sd' o rest,
       reading c env now_iso = Some m ∧
       SystemData.get_cpu_metrics env = Ok (SystemData.cpu m) ∧
       SystemData.get_ram_metrics env = Ok (SystemData.ram m) ∧
       SystemData.get_storage_metrics env = Ok (SystemData.storage m) ∧
       SystemData.get_network_metrics (AppController._system_data c) env
         = Ok (SystemData.network m, sd') ∧
       let c' := (AppController.update_metrics c env now_iso).1 in
       AppController._metrics_history c'
         = Deque.append (AppController._metrics_history c) (AppController.entry_of m) ∧
       AppController.out c' = AppController.out c ++ o :: rest ∧
       handed o = Some m).
Proof.
  intros Hexc Hview. rewrite <- get_all_metrics_raises. split; [|split].
  - unfold AppController.update_metrics.
    destruct (SystemData.get_all_metrics _ env) as [[m0 sd']|e].
    + unfold AppController._notify_view.
      destruct (AppController._view_callback c) as [view|] eqn:Hcb.
      * destruct (view _) as [[]|e] eqn:Hcall; [done|].
        by rewrite (Hview _ _ _ eq_refl Hcall).
      * unfold AppController._print_metrics_to_console.
        by destruct (AppController.console_complete _).
    + by rewrite (Hexc e eq_refl).
  - intros Hfail. unfold reading, AppController.update_metrics.
    destruct (SystemData.get_all_metrics _ env) as [|e]; [done|].
    exists e. by rewrite (Hexc e eq_refl).
  - intros Hfine. unfold reading, AppController.update_metrics.
    revert Hfine. clear Hexc Hview.
    unfold SystemData.get_all_metrics, mbind, result_bind, Py.bind.
    destruct (SystemData.get_cpu_metrics env) as [cm|]; [|done].
    destruct (SystemData.get_ram_metrics env) as [rm|]; [|done].
    destruct (SystemData.get_storage_metrics env) as [sm|]; [|done].
    destruct (SystemData.get_network_metrics _ env) as [[nm sd']|]; [|done].
    intros _. simpl.
    match goal with
    | |- context [AppController.stamp ?m0 now_iso] =>
        remember (AppController.stamp m0 now_iso) as m eqn:Hm
    end.
    assert (Hgroups : cm = SystemData.cpu m ∧ rm = SystemData.ram m ∧
                      sm = SystemData.storage m ∧ nm = SystemData.network m)
      by by subst m.
    destruct Hgroups as (-> & -> & -> & ->). clear Hm.
    exists m, sd'. unfold AppController._notify_view.
    destruct (AppController._view_callback c) as [view|].
    + exists (AppController.ViewCall m).
      destruct (view m) as [[]|e]; simpl.
      * by exists [].
      * destruct (isinstance e Exception); simpl.
        -- exists [AppController.error_line e]. by rewrite <- app_assoc.
        -- by exists [].
    + unfold AppController._print_metrics_to_console.
      destruct (AppController.console_complete m); simpl.
      * by exists (AppController.Dashboard m true), [].
      * eexists (AppController.Dashboard m false), [_].
        by rewrite <- app_assoc.
Qed.

Lemma failed_group_skips_cycle_witness :
  ∃ c, fresh_controller 3600 2%Q = Ok c ∧
       AppController.update_metrics c (net_down_env 2%Q) ""
       = (logged c (Exn OSError "cannot read /proc/net/dev"), None).
Proof.
  destruct (fresh_controller 3600 2%Q) as [c|] eqn:Hc; [|discriminate Hc].
  exists c. split; [reflexivity|].
  assert (Hget : SystemData.get_all_metrics (AppController._system_data c) (net_down_env 2%Q)
                 = Raise (Exn OSError "cannot read /proc/net/dev"))
    by (injection Hc as <-; reflexivity).
  destruct (failed_group_skips_cycle c (net_down_env 2%Q) "") as (_ & Hfail & _).
  { intros e He. rewrite Hget in He. injection He as <-. reflexivity. }
  { intros view m e Hcb. injection Hc as <-. discriminate Hcb. }
  destruct Hfail as (e & He & _ & Hupd).
  { injection Hc as <-. reflexivity. }
  rewrite Hget in He. injection He as <-. exact Hupd.
Defined.

(** ** The worker loop *)

Section WorkerFacts.

Import ThreadManager.

Implicit Types (th : Thread) (flag : bool) (w : World).

(** What a transition, a delay or a run never touches: the identity of the
    thread and the arguments of its target. *)
Definition same_thread th th' : Prop :=
  name th' = name th ∧ stop_event th' = stop_event th ∧
  started th' = started th ∧ target_interval th' = target_interval th ∧
  target_callback th' = target_callback th.

Lemma same_thread_refl th : same_thread th th.
Proof. by unfold same_thread. Qed.

Lemma same_thread_trans th1 th2 th3 :
  same_thread th1 th2 → same_thread th2 th3 → same_thread th1 th3.
Proof. unfold same_thread. intros (?&?&?&?&?) (?&?&?&?&?). repeat split; congruence. Qed.

Lemma fire_same flag th : same_thread th (fire flag th).1.
Proof.
  unfold fire. destruct (at_pc th) as [|rest [|e]|rest|u]; try done.
  - by destruct flag.
  - by destruct (isinstance e Exception).
Qed.

Lemma delay_same t th : same_thread th (delay t th).
Proof. done. Qed.

Lemma run_same fuel flag budget th : same_thread th (run fuel flag budget th).1.
Proof.
  revert budget th. induction fuel as [|fuel IH]; intros budget th; [done|].
  simpl. destruct (due flag th) as [t|]; [|done].
  destruct (budget <? t); [done|].
  pose proof (fire_same flag (delay t th)) as Hf.
  destruct (fire flag (delay t th)) as [th1 p1].
  specialize (IH (budget - t) th1).
  destruct (run fuel flag (budget - t) th1) as [th2 p2]. simpl in *.
  eapply same_thread_trans; [|done].
  eapply same_thread_trans; [apply delay_same|done].
Qed.

(** A thread that is not alive stays as it is. *)
Lemma due_dead flag th : is_alive th = false → due flag th = None.
Proof.
  unfold is_alive, due. destruct (started th); [|done].
  by destruct (at_pc th).
Qed.

Lemma run_dead fuel flag budget th :
  is_alive th = false → run fuel flag budget th = (th, []).
Proof. intros Hd. destruct fuel; [done|]. simpl. by rewrite due_dead. Qed.

Lemma run_alive fuel flag budget th :
  is_alive (run fuel flag budget th).1 = true → is_alive th = true.
Proof.
  destruct (is_alive th) eqn:Ha; [done|]. rewrite run_dead by done.
  simpl. by rewrite Ha.
Qed.

(** The clock of a worker never runs backwards. *)
Lemma due_nonneg flag th t : due flag th = Some t → 0 ≤ t.
Proof.
  unfold due. destruct (started th); [|done]. simpl.
  destruct (at_pc th); try destruct flag; intros [= <-]; lia.
Qed.

Lemma fire_clock flag th : clock (fire flag th).1 = clock th.
Proof.
  unfold fire. destruct (at_pc th) as [|rest [|e]|rest|u]; try done.
  - by destruct flag.
  - by destruct (isinstance e Exception).
Qed.

Lemma run_clock fuel flag budget th :
  0 ≤ budget →
  clock th ≤ clock (run fuel flag budget th).1 ≤ clock th + budget.
Proof.
  revert budget th. induction fuel as [|fuel IH]; intros budget th Hb; [simpl; lia|].
  simpl. destruct (due flag th) as [t|] eqn:Hdue; [|simpl; lia].
  apply due_nonneg in Hdue.
  destruct (Z.ltb_spec budget t); [simpl; lia|].
  pose proof (fire_clock flag (delay t th)) as Hf.
  destruct (fire flag (delay t th)) as [th1 p1].
  specialize (IH (budget - t) th1 ltac:(lia)).
  destruct (run fuel flag (budget - t) th1) as [th2 p2]. simpl in *. lia.
Qed.

(** A join lets the thread do what a run does, or nothing. *)
Lemma joined_same fuel flag timeout th : same_thread th (joined fuel flag timeout th).1.
Proof.
  unfold joined. destruct (timeout <=? 0); [apply same_thread_refl|apply run_same].
Qed.

Lemma joined_alive fuel flag timeout th :
  is_alive (joined fuel flag timeout th).1 = true → is_alive th = true.
Proof. unfold joined. destruct (timeout <=? 0); [done|apply run_alive]. Qed.

Lemma joined_clock fuel flag timeout th :
  clock th ≤ clock (joined fuel flag timeout th).1 ≤ clock th + Z.max 0 timeout.
Proof.
  unfold joined. destruct (Z.leb_spec timeout 0); [simpl; lia|].
  pose proof (run_clock fuel flag timeout th ltac:(lia)). lia.
Qed.

End WorkerFacts.

Section LoopFacts.

Import ThreadManager.

Implicit Types (th : Thread) (flag : bool).

(** An invocation that the loop outlives: it returns, or raises an instance
    of [Exception]. *)
Definition survives (h : completion) : bool :=
  match h with
  | Returns => true
  | Raises e => isinstance e Exception
  end.

(** What the loop prints when the invocation is over. *)
Definition complaint (h : completion) : list string :=
  match h with
  | Returns => []
  | Raises e => [error_line e]
  end.

(** The worker, back at the test of its loop after one more pass. *)
Definition after_pass th : Thread :=
  {| name := name th; target_callback := target_callback th;
     target_interval := target_interval th; stop_event := stop_event th;
     started := started th; at_pc := LoopTest; calls := S (calls th);
     clock := clock th + Z.max 0 (duration (target_callback th (calls th)))
                       + Z.max 0 (target_interval th);
     begins := begins th ++ [clock th] |}.

Lemma delay_0 th : delay 0 th = th.
Proof.
  destruct th as [n cb iv ev st p k ck bs]. unfold delay. simpl.
  f_equal; [|lia]. destruct p; f_equal; lia.
Qed.

(** One transition of [run], spelled out. *)
Lemma run_S fuel flag budget th t th1 p1 :
  due flag th = Some t → t ≤ budget → fire flag (delay t th) = (th1, p1) →
  run (S fuel) flag budget th =
  (let '(th2, p2) := run fuel flag (budget - t) th1 in (th2, p1 ++ p2)).
Proof.
  intros Hdue Hle Hfire. cbn [run]. rewrite Hdue.
  destruct (Z.ltb_spec budget t); [lia|]. by rewrite Hfire.
Qed.

(** One pass through the loop with the event unset: the callback runs to its
    end, then the whole interval is waited. *)
Lemma run_pass fuel budget th :
  started th = true → at_pc th = LoopTest →
  survives (how (target_callback th (calls th))) = true →
  0 ≤ budget →
  let cost := Z.max 0 (duration (target_callback th (calls th)))
              + Z.max 0 (target_interval th) in
  run (3 + fuel) false (cost + budget) th =
  (let '(th', printed) := run fuel false budget (after_pass th) in
   (th', complaint (how (target_callback th (calls th))) ++ printed)).
Proof.
  destruct th as [n cb iv0 ev st p k ck bs].
  cbn [started at_pc calls target_callback target_interval].
  intros -> -> Hsurv Hb. unfold after_pass.
  cbn [started at_pc calls target_callback target_interval name stop_event clock begins].
  set (d := Z.max 0 (duration (cb k))) in *.
  set (iv := Z.max 0 iv0) in *.
  assert (0 ≤ d ∧ 0 ≤ iv) as [Hd Hiv] by (subst d iv; lia).
  change (3 + fuel)%nat with (S (S (S fuel))).
  (* the test of the loop *)
  erewrite run_S; [|reflexivity|lia|reflexivity].
  (* the callback *)
  erewrite run_S; cycle 1.
  { unfold due, enter_callback. simpl. fold d. by rewrite (Z.max_r 0 d). }
  { lia. }
  { unfold fire, delay, enter_callback. simpl.
    instantiate (1 := complaint (how (cb k))).
    instantiate (1 := {| name := n; target_callback := cb; target_interval := iv0;
                         stop_event := ev; started := true; at_pc := InWait iv;
                         calls := S k; clock := ck + 0 + d; begins := bs ++ [ck + 0] |}).
    destruct (how (cb k)) as [|e]; simpl in *; [done|]. by rewrite Hsurv. }
  (* the wait *)
  erewrite run_S; cycle 1.
  { unfold due. simpl. by rewrite (Z.max_r 0 iv). }
  { lia. }
  { reflexivity. }
  unfold move, delay. simpl.
  replace (d + iv + budget - 0 - d - iv) with budget by lia.
  replace (ck + 0 + d + iv) with (ck + d + iv) by lia.
  replace (ck + 0) with ck by lia.
  by destruct (run fuel false budget _) as [th' printed].
Qed.

(** Entries into the callback are recorded and never forgotten. *)
Lemma fire_begins flag th : ∃ more, begins (fire flag th).1 = begins th ++ more.
Proof.
  unfold fire. destruct (at_pc th) as [|rest [|e]|rest|u]; try (by exists []; rewrite app_nil_r).
  - destruct flag; [by exists []; rewrite app_nil_r|]. by exists [clock th].
  - destruct (isinstance e Exception); by exists []; rewrite app_nil_r.
Qed.

Lemma run_begins fuel flag budget th :
  ∃ more, begins (run fuel flag budget th).1 = begins th ++ more.
Proof.
  revert budget th. induction fuel as [|fuel IH]; intros budget th.
  { exists []. by rewrite app_nil_r. }
  simpl. destruct (due flag th) as [t|]; [|by exists []; rewrite app_nil_r].
  destruct (budget <? t); [by exists []; rewrite app_nil_r|].
  destruct (fire_begins flag (delay t th)) as [m1 Hm1].
  destruct (fire flag (delay t th)) as [th1 p1].
  destruct (IH (budget - t) th1) as [m2 Hm2].
  destruct (run fuel flag (budget - t) th1) as [th2 p2]. simpl in *.
  exists (m1 ++ m2). by rewrite Hm2, Hm1, app_assoc.
Qed.

(** The entries of [n] passes: each begins one callback duration plus one
    whole interval after the one before. *)
Lemma run_passes_begins (d : Z) n : ∀ th fuel budget,
  started th = true → at_pc th = LoopTest →
  (∀ k, Z.max 0 (duration (target_callback th k)) = d) →
  (∀ k, survives (how (target_callback th k)) = true) →
  (3 * n ≤ fuel)%nat →
  Z.of_nat n * (d + Z.max 0 (target_interval th)) ≤ budget →
  ∀ k, (k < n)%nat →
    begins (run fuel false budget th).1 !! (length (begins th) + k)%nat
    = Some (clock th + Z.of_nat k * (d + Z.max 0 (target_interval th))).
Proof.
  induction n as [|n IH]; intros th fuel budget Hst Hpc Hd Hsurv Hfuel Hbudget k Hk; [lia|].
  set (period := d + Z.max 0 (target_interval th)) in *.
  assert (0 ≤ period) by (subst period; specialize (Hd O); lia).
  replace fuel with (3 + (fuel - 3))%nat by lia.
  replace budget with (Z.max 0 (duration (target_callback th (calls th)))
                       + Z.max 0 (target_interval th) + (budget - period))
    by (subst period; rewrite Hd; lia).
  rewrite run_pass by (done || lia).
  pose proof (run_begins (fuel - 3) false (budget - period) (after_pass th)) as [more Hmore].
  specialize (IH (after_pass th) (fuel - 3)%nat (budget - period)
                 Hst eq_refl Hd Hsurv ltac:(lia) ltac:(simpl; fold period; lia)).
  destruct (run (fuel - 3) false (budget - period) (after_pass th)) as [th' printed].
  simpl in *. destruct k as [|k].
  - rewrite Hmore, <- app_assoc, lookup_app_r by lia.
    replace (length (begins th) + 0 - length (begins th))%nat with O by lia.
    simpl. f_equal. lia.
  - specialize (IH k ltac:(lia)). rewrite length_app in IH. simpl in IH.
    replace (length (begins th) + S k)%nat with (length (begins th) + 1 + k)%nat by lia.
    rewrite IH, Hd. fold period. f_equal. lia.
Qed.

End LoopFacts.

(** C4, as the specification states it: whatever exception an invocation
    of the callback raises, the loop prints it and goes on to its wait. *)
Definition every_exception_caught : Prop :=
  ∀ (th : ThreadManager.Thread) (flag : bool) (rest : Z) (e : exn),
    ThreadManager.at_pc th = ThreadManager.InCallback rest (ThreadManager.Raises e) →
    ThreadManager.fire flag th =
    (ThreadManager.move th
       (ThreadManager.InWait (Z.max 0 (ThreadManager.target_interval th))),
     [ThreadManager.error_line e]).

(** A callback that leaves through [sys.exit()]. *)
Definition exiting_callback : ThreadManager.callback :=
  fun _ => {| ThreadManager.duration := 1;
              ThreadManager.how := ThreadManager.Raises (Exn SystemExit "0") |}.

(** C4 fails for an exception that is not an [Exception]: [SystemExit]
    passes the handler, nothing is printed, and the worker is gone after
    the first invocation. *)
Lemma system_exit_ends_worker :
  let th := ThreadManager.new_thread "system_monitor" exiting_callback 2 0 true in
  ThreadManager.run 10 false 100 th =
    ({| ThreadManager.name := "system_monitor";
        ThreadManager.target_callback := exiting_callback;
        ThreadManager.target_interval := 2; ThreadManager.stop_event := 0;
        ThreadManager.started := true;
        ThreadManager.at_pc := ThreadManager.Exited (Some (Exn SystemExit "0"));
        ThreadManager.calls := 1; ThreadManager.clock := 1;
        ThreadManager.begins := [0] |}, []) ∧
  ThreadManager.is_alive (ThreadManager.run 10 false 100 th).1 = false ∧
  ¬ every_exception_caught.
Proof.
  split; [reflexivity|]. split; [reflexivity|].
  intros Hclaim.
  specialize (Hclaim
    (ThreadManager.move (ThreadManager.new_thread "system_monitor" exiting_callback 2 0 true)
       (ThreadManager.InCallback 0 (ThreadManager.Raises (Exn SystemExit "0"))))
    false 0 (Exn SystemExit "0") eq_refl).
  discriminate Hclaim.
Qed.

(** C4, amended. An instance of [Exception] raised by an invocation of the
    callback is caught inside the loop body and printed; the worker
    continues exactly as after a normal return: it stays alive, waits the
    interval, and enters the next invocation. An exception that is not an
    instance of [Exception] is not caught: when the invocation is over the
    worker is gone with that exception, and the loop has printed
    nothing. *)
Theorem callback_exception_caught
    (th : ThreadManager.Thread) (flag : bool) (rest : Z) (e : exn) :
  ThreadManager.started th = true →
  ThreadManager.at_pc th = ThreadManager.InCallback rest (ThreadManager.Raises e) →
  (isinstance e Exception = true →
   let waiting := ThreadManager.move th
         (ThreadManager.InWait (Z.max 0 (ThreadManager.target_interval th))) in
   ThreadManager.fire flag th = (waiting, [ThreadManager.error_line e]) ∧
   (ThreadManager.fire flag
      (ThreadManager.move th (ThreadManager.InCallback rest ThreadManager.Returns))).1
     = waiting ∧
   ThreadManager.is_alive waiting = true ∧
   let next := ThreadManager.target_callback th (ThreadManager.calls th) in
   let '(th', printed) :=
     ThreadManager.run 3 false
       (Z.max 0 rest + Z.max 0 (ThreadManager.target_interval th)) th in
   printed = [ThreadManager.error_line e] ∧
   ThreadManager.calls th' = S (ThreadManager.calls th) ∧
   ThreadManager.at_pc th' =
     ThreadManager.InCallback (Z.max 0 (ThreadManager.duration next))
                              (ThreadManager.how next) ∧
   ThreadManager.clock th' =
     ThreadManager.clock th + Z.max 0 rest + Z.max 0 (ThreadManager.target_interval th)) ∧
  (isinstance e Exception = false →
   ThreadManager.fire flag th =
     (ThreadManager.move th (ThreadManager.Exited (Some e)), []) ∧
   ∀ fuel budget, (1 ≤ fuel)%nat → Z.max 0 rest ≤ budget →
     let '(th', printed) := ThreadManager.run fuel flag budget th in
     printed = [] ∧
     ThreadManager.at_pc th' = ThreadManager.Exited (Some e) ∧
     ThreadManager.is_alive th' = false ∧
     ThreadManager.calls th' = ThreadManager.calls th ∧
     ThreadManager.clock th' = ThreadManager.clock th + Z.max 0 rest).
Proof.
  destruct th as [n cb iv0 ev st p k ck bs].
  cbn [ThreadManager.started ThreadManager.at_pc ThreadManager.target_interval
       ThreadManager.target_callback ThreadManager.calls ThreadManager.clock].
  intros -> ->. split; intros He.
  - assert (Hfire : ∀ r ck',
      ThreadManager.fire flag
        {| ThreadManager.name := n; ThreadManager.target_callback := cb;
           ThreadManager.target_interval := iv0; ThreadManager.stop_event := ev;
           ThreadManager.started := true;
           ThreadManager.at_pc := ThreadManager.InCallback r (ThreadManager.Raises e);
           ThreadManager.calls := k; ThreadManager.clock := ck';
           ThreadManager.begins := bs |} =
      ({| ThreadManager.name := n; ThreadManager.target_callback := cb;
          ThreadManager.target_interval := iv0; ThreadManager.stop_event := ev;
          ThreadManager.started := true;
          ThreadManager.at_pc := ThreadManager.InWait (Z.max 0 iv0);
          ThreadManager.calls := k; ThreadManager.clock := ck';
          ThreadManager.begins := bs |}, [ThreadManager.error_line e])).
    { intros r ck'. unfold ThreadManager.fire. simpl. by rewrite He. }
    split; [apply Hfire|]. split; [done|]. split; [done|].
    cbv zeta.
    set (d := Z.max 0 rest). set (iv := Z.max 0 iv0).
    assert (0 ≤ d ∧ 0 ≤ iv) as [Hd Hiv] by (subst d iv; lia).
    erewrite run_S; [|reflexivity|fold d; lia|apply Hfire].
    erewrite run_S; cycle 1.
    { unfold ThreadManager.due. simpl. fold iv. by rewrite (Z.max_r 0 iv). }
    { lia. }
    { reflexivity. }
    erewrite run_S; [|reflexivity|lia|reflexivity].
    simpl. repeat split; try done. lia.
  - assert (Hfire : ∀ r ck',
      ThreadManager.fire flag
        {| ThreadManager.name := n; ThreadManager.target_callback := cb;
           ThreadManager.target_interval := iv0; ThreadManager.stop_event := ev;
           ThreadManager.started := true;
           ThreadManager.at_pc := ThreadManager.InCallback r (ThreadManager.Raises e);
           ThreadManager.calls := k; ThreadManager.clock := ck';
           ThreadManager.begins := bs |} =
      ({| ThreadManager.name := n; ThreadManager.target_callback := cb;
          ThreadManager.target_interval := iv0; ThreadManager.stop_event := ev;
          ThreadManager.started := true;
          ThreadManager.at_pc := ThreadManager.Exited (Some e);
          ThreadManager.calls := k; ThreadManager.clock := ck';
          ThreadManager.begins := bs |}, [])).
    { intros r ck'. unfold ThreadManager.fire. simpl. by rewrite He. }
    split; [apply Hfire|].
    intros fuel budget Hfuel Hbudget. destruct fuel as [|fuel]; [lia|].
    erewrite run_S; [|reflexivity|done|apply Hfire].
    rewrite run_dead by done. simpl. repeat split; done.
Qed.

Lemma callback_exception_caught_witness :
  let raising e := ThreadManager.move
                     (ThreadManager.new_thread "system_monitor"
                        (fun _ => {| ThreadManager.duration := 1;
                                     ThreadManager.how := ThreadManager.Raises e |})
                        2 0 true)
                     (ThreadManager.InCallback 0 (ThreadManager.Raises e)) in
  ((ThreadManager.fire false (raising (Exn ValueError "bad sample"))).2
     = ["[ThreadManager] Error in callback: bad sample"] ∧
   ThreadManager.at_pc (ThreadManager.fire false (raising (Exn ValueError "bad sample"))).1
     = ThreadManager.InWait 2) ∧
  ThreadManager.fire false (raising (Exn KeyboardInterrupt ""))
    = (ThreadManager.move (raising (Exn KeyboardInterrupt ""))
         (ThreadManager.Exited (Some (Exn KeyboardInterrupt ""))), []).
Proof.
  intros raising. split.
  - destruct (proj1 (callback_exception_caught (raising (Exn ValueError "bad sample"))
                       false 0 (Exn ValueError "bad sample") eq_refl eq_refl) eq_refl)
      as (Hfire & _).
    rewrite Hfire. split; reflexivity.
  - exact (proj1 (proj2 (callback_exception_caught (raising (Exn KeyboardInterrupt ""))
                           false 0 (Exn KeyboardInterrupt "") eq_refl eq_refl) eq_refl)).
Defined.

(** C6, as the specification states it: with a callback that takes [d]
    ticks, [0 < d < interval], successive invocations begin [interval]
    ticks apart. *)
Definition begins_interval_apart : Prop :=
  ∀ (cb : ThreadManager.callback) (interval d : Z),
    0 < d < interval →
    (∀ k, cb k = {| ThreadManager.duration := d; ThreadManager.how := ThreadManager.Returns |}) →
    ∀ fuel budget k b b',
      let bs := ThreadManager.begins
                  (ThreadManager.run fuel false budget
                     (ThreadManager.new_thread "system_monitor" cb interval 0 true)).1 in
      bs !! k = Some b → bs !! S k = Some b' → b' - b = interval.

(** A callback that takes one tick and returns. *)
Definition one_tick_callback : ThreadManager.callback :=
  fun _ => {| ThreadManager.duration := 1; ThreadManager.how := ThreadManager.Returns |}.

(** C6 fails: with an interval of 2 and a callback of 1 tick the wait that
    follows the callback is the whole interval, and the invocations begin at
    0, 3, 6: three ticks apart, not two. *)
Lemma invocations_not_interval_apart :
  let th := ThreadManager.new_thread "system_monitor" one_tick_callback 2 0 true in
  ThreadManager.at_pc (ThreadManager.run 2 false 1 th).1 = ThreadManager.InWait 2 ∧
  ThreadManager.begins (ThreadManager.run 9 false 8 th).1 = [0; 3; 6] ∧
  ¬ begins_interval_apart.
Proof.
  split; [reflexivity|]. split; [reflexivity|].
  intros Hclaim.
  specialize (Hclaim one_tick_callback 2 1 ltac:(lia) ltac:(done) 9%nat 8 0%nat 0 3
                     eq_refl eq_refl).
  discriminate Hclaim.
Qed.

(** C6, amended. With the stop event unset and a callback whose invocations
    take [d] ticks each, successive invocations begin [d + interval] ticks
    apart: when the callback is over, the worker waits the whole interval,
    counted from the end of the callback. *)
Theorem invocations_duration_plus_interval_apart
    (thread_name : string) (cb : ThreadManager.callback) (interval d : Z)
    (eid : nat) (fuel : nat) (budget : Z) (n : nat) :
  0 ≤ d → 0 ≤ interval →
  (∀ k, ThreadManager.duration (cb k) = d) →
  (∀ k, survives (ThreadManager.how (cb k)) = true) →
  (3 * n ≤ fuel)%nat →
  Z.of_nat n * (d + interval) ≤ budget →
  (∀ th flag rest,
     ThreadManager.at_pc th = ThreadManager.InCallback rest ThreadManager.Returns →
     ThreadManager.fire flag th =
       (ThreadManager.move th
          (ThreadManager.InWait (Z.max 0 (ThreadManager.target_interval th))), [])) ∧
  ∀ k, (k < n)%nat →
    ThreadManager.begins
      (ThreadManager.run fuel false budget
         (ThreadManager.new_thread thread_name cb interval eid true)).1 !! k
    = Some (Z.of_nat k * (d + interval)).
Proof.
  intros Hd Hiv Hdur Hsurv Hfuel Hbudget. split.
  { intros th flag rest Hpc. unfold ThreadManager.fire. by rewrite Hpc. }
  intros k Hk.
  pose proof (run_passes_begins d n
    (ThreadManager.new_thread thread_name cb interval eid true) fuel budget
    eq_refl eq_refl) as Hpasses.
  simpl in Hpasses. rewrite (Z.max_r 0 interval) in Hpasses by done.
  rewrite Hpasses; try done.
  intros j. rewrite Hdur. lia.
Qed.

Lemma invocations_duration_plus_interval_apart_witness :
  ThreadManager.begins
    (ThreadManager.run 9 false 9
       (ThreadManager.new_thread "system_monitor" one_tick_callback 2 0 true)).1 !! 2%nat
  = Some 6.
Proof.
  destruct (invocations_duration_plus_interval_apart
              "system_monitor" one_tick_callback 2 1 0 9 9 3
              ltac:(lia) ltac:(lia) ltac:(done) ltac:(done) ltac:(lia) ltac:(lia))
    as [_ Hbegins].
  exact (Hbegins 2%nat ltac:(lia)).
Defined.

(** ** The registry of named threads *)

Section RegistryFacts.

Import ThreadManager.

Implicit Types (w : World) (th : Thread).

(** What holds of every manager: a live thread is the one registered under
    its name; a registered name refers to an existing thread of that name,
    whose stop event is the one registered under the name; and every thread
    refers to an existing event. *)
Record consistent w : Prop := {
  live_registered : ∀ tid th,
    threads w !! tid = Some th → is_alive th = true →
    _threads w !! name th = Some tid;
  registered_exists : ∀ n tid,
    _threads w !! n = Some tid →
    ∃ th, threads w !! tid = Some th ∧ name th = n ∧
          _stop_events w !! n = Some (stop_event th);
  event_exists : ∀ tid th,
    threads w !! tid = Some th → (stop_event th < length (events w))%nat }.

Lemma init_consistent : consistent init.
Proof. split; intros *; simpl; by rewrite ?lookup_nil, ?lookup_empty. Qed.

Lemma print_consistent line w : consistent w → consistent (print line w).
Proof. by intros [? ? ?]. Qed.

Lemma set_event_consistent eid w : consistent w → consistent (set_event eid w).
Proof.
  intros [H1 H2 H3]. split; simpl; [done..|].
  intros tid th Hth. rewrite length_insert. eauto.
Qed.

(** A thread that acts on its own stays the thread it was. *)
Lemma acted_consistent w tid th th' out :
  consistent w → threads w !! tid = Some th → same_thread th th' →
  (is_alive th' = true → is_alive th = true) →
  consistent {| _threads := _threads w; _stop_events := _stop_events w;
                threads := <[tid := th']> (threads w); events := events w;
                stdout := out |}.
Proof.
  intros [H1 H2 H3] Hth (Hname & Hev & _) Halive.
  assert (Hlt : (tid < length (threads w))%nat) by by eapply lookup_lt_Some.
  split; simpl.
  - intros tid' th''. destruct (decide (tid' = tid)) as [->|Hne].
    + rewrite list_lookup_insert_eq by done. intros [= <-] Ha.
      rewrite Hname. eauto.
    + rewrite list_lookup_insert_ne by done. eauto.
  - intros n tid' Hn. destruct (H2 _ _ Hn) as (th0 & Hth0 & Hn0 & Hev0).
    destruct (decide (tid' = tid)) as [->|Hne].
    + exists th'. rewrite list_lookup_insert_eq by done.
      rewrite Hth in Hth0. injection Hth0 as <-. by rewrite Hname, Hev.
    + exists th0. by rewrite list_lookup_insert_ne.
  - intros tid' th''. destruct (decide (tid' = tid)) as [->|Hne].
    + rewrite list_lookup_insert_eq by done. intros [= <-]. rewrite Hev. eauto.
    + rewrite list_lookup_insert_ne by done. eauto.
Qed.

Lemma advance_consistent fuel tid t w : consistent w → consistent (advance fuel tid t w).
Proof.
  intros Hw. unfold advance.
  destruct (threads w !! tid) as [th|] eqn:Hth; [|done].
  pose proof (run_same fuel (is_set w (stop_event th)) (Z.max 0 t) th) as Hsame.
  pose proof (run_alive fuel (is_set w (stop_event th)) (Z.max 0 t) th) as Halive.
  destruct (run fuel _ _ th) as [th' printed]. by eapply acted_consistent.
Qed.

Lemma join_consistent fuel tid timeout w : consistent w → consistent (join fuel tid timeout w).
Proof.
  intros Hw. unfold join.
  destruct (threads w !! tid) as [th|] eqn:Hth; [|done].
  pose proof (joined_same fuel (is_set w (stop_event th)) timeout th) as Hsame.
  pose proof (joined_alive fuel (is_set w (stop_event th)) timeout th) as Halive.
  destruct (joined fuel _ _ th) as [th' printed]. by eapply acted_consistent.
Qed.

Lemma start_consistent cb interval n os_start w :
  consistent w →
  consistent (start_data_collection_thread cb interval n os_start w).1.
Proof.
  intros Hw. unfold start_data_collection_thread.
  destruct (is_thread_running n w) eqn:Hrun; [by apply print_consistent|].
  set (thread := new_thread n cb interval (length (events w)) (negb (raises os_start))).
  set (w1 := {| _threads := <[n := length (threads w)]> (_threads w);
                _stop_events := <[n := length (events w)]> (_stop_events w);
                threads := threads w ++ [thread];
                events := events w ++ [false]; stdout := stdout w |}).
  assert (Hw1 : consistent w1).
  { destruct Hw as [H1 H2 H3]. split; simpl.
    - intros tid th Hth Ha.
      destruct (decide (tid = length (threads w))) as [->|Hne].
      + rewrite lookup_app_r, Nat.sub_diag in Hth by done.
        injection Hth as <-. simpl. by rewrite lookup_insert_eq.
      + assert (Hold : threads w !! tid = Some th).
        { apply lookup_lt_Some in Hth as Hlt. rewrite length_app in Hlt. simpl in Hlt.
          by rewrite lookup_app_l in Hth by lia. }
        destruct (decide (name th = n)) as [Hn|Hn].
        * pose proof (H1 _ _ Hold Ha) as Hreg. rewrite Hn in Hreg.
          unfold is_thread_running, alive_at in Hrun.
          by rewrite Hreg, Hold, Ha in Hrun.
        * rewrite lookup_insert_ne by done. eauto.
    - intros n' tid. destruct (decide (n' = n)) as [->|Hn].
      + rewrite lookup_insert_eq. intros [= <-]. exists thread.
        by rewrite lookup_app_r, Nat.sub_diag, lookup_insert_eq.
      + rewrite !lookup_insert_ne by done. intros Hreg.
        destruct (H2 _ _ Hreg) as (th & Hth & Hname & Hev).
        exists th. by rewrite lookup_app_l by by eapply lookup_lt_Some.
    - intros tid th Hth. rewrite length_app. simpl.
      destruct (decide (tid = length (threads w))) as [->|Hne].
      + rewrite lookup_app_r, Nat.sub_diag in Hth by done.
        injection Hth as <-. simpl. lia.
      + apply lookup_lt_Some in Hth as Hlt. rewrite length_app in Hlt. simpl in Hlt.
        rewrite lookup_app_l in Hth by lia. apply H3 in Hth. lia. }
  destruct os_start; [by apply print_consistent|done].
Qed.

Lemma stop_consistent fuel n timeout w :
  consistent w → consistent (stop_thread fuel n timeout w).1.
Proof.
  intros Hw. unfold stop_thread.
  destruct (_threads w !! n) as [tid|]; [|by apply print_consistent].
  destruct (alive_at w tid); simpl; [|by apply print_consistent].
  assert (Hj : consistent
            (join fuel tid timeout
               match _stop_events w !! n with
               | Some eid => set_event eid w
               | None => w
               end)).
  { apply join_consistent. destruct (_stop_events w !! n); [|done].
    by apply set_event_consistent. }
  destruct (alive_at _ tid); by apply print_consistent.
Qed.

Lemma step_consistent w w' : step w w' → consistent w → consistent w'.
Proof.
  intros [] Hw; eauto using start_consistent, stop_consistent, advance_consistent.
Qed.

Lemma reachable_consistent w : reachable w → consistent w.
Proof.
  unfold reachable. revert w.
  apply rtc_ind_r; [apply init_consistent|].
  eauto using step_consistent.
Qed.

Lemma consistent_one_active w : consistent w → one_active_per_name w.
Proof.
  intros [H1 _ _] i j thi thj Hi Hj Hname Hai Haj.
  pose proof (H1 _ _ Hi Hai) as Hri. pose proof (H1 _ _ Hj Haj) as Hrj.
  rewrite Hname in Hri. congruence.
Qed.

End RegistryFacts.

Section StopFacts.

Import ThreadManager.

Implicit Types (w : World) (th : Thread).

(** The time the current invocation of the callback still needs. *)
Definition remaining th : Z :=
  match at_pc th with
  | InCallback rest _ => Z.max 0 rest
  | _ => 0
  end.

(** Once the event is set, a worker at the test of its loop leaves. *)
Lemma run_stop_at_test fuel budget th :
  started th = true → at_pc th = LoopTest → 0 ≤ budget →
  run (S fuel) true budget th =
  (move (delay 0 th) (Exited None), []).
Proof.
  intros Hst Hpc Hb.
  erewrite run_S; [|by unfold due; rewrite Hst, Hpc|done|by unfold fire; simpl; rewrite Hpc].
  rewrite run_dead; [done|]. unfold is_alive. simpl. apply andb_false_r.
Qed.

(** Once the event is set, a waiting worker wakes up at once and leaves. *)
Lemma run_stop_in_wait fuel budget th rest :
  started th = true → at_pc th = InWait rest → 0 ≤ budget →
  run (S (S fuel)) true budget th =
  (move (delay 0 (move (delay 0 th) LoopTest)) (Exited None), []).
Proof.
  intros Hst Hpc Hb.
  erewrite run_S; [|by unfold due; rewrite Hst, Hpc|done|by unfold fire; simpl; rewrite Hpc].
  rewrite run_stop_at_test; [done..|lia].
Qed.

(** Once the event is set, a running worker is gone as soon as the current
    invocation of its callback is over, and not before. *)
Lemma run_under_stop fuel budget th :
  (3 ≤ fuel)%nat → is_alive th = true → 0 ≤ budget →
  let th' := (run fuel true budget th).1 in
  (remaining th ≤ budget →
     is_alive th' = false ∧ clock th' = clock th + remaining th) ∧
  (budget < remaining th →
     is_alive th' = true ∧ clock th' = clock th + budget).
Proof.
  intros Hfuel Halive Hb.
  destruct fuel as [|[|[|fuel]]]; try lia.
  unfold is_alive in Halive. apply andb_true_iff in Halive as [Hst Hpc].
  unfold remaining.
  destruct (at_pc th) as [|rest h|rest|u] eqn:Hat; [| | |done].
  - rewrite run_stop_at_test by done. simpl.
    split; [|lia]. intros _. unfold is_alive. simpl.
    split; [apply andb_false_r|lia].
  - cbn zeta. split.
    + intros Hle.
      assert (Hdue : due true th = Some (Z.max 0 rest))
        by (unfold due; by rewrite Hst, Hat).
      destruct h as [|e].
      * erewrite run_S; [|done|done|by unfold fire; simpl; rewrite Hat].
        erewrite run_stop_in_wait; [|done|reflexivity|lia].
        simpl. unfold is_alive. simpl. split; [apply andb_false_r|lia].
      * destruct (isinstance e Exception) eqn:He.
        -- erewrite run_S; [|done|done|by unfold fire; simpl; rewrite Hat, He].
           erewrite run_stop_in_wait; [|done|reflexivity|lia].
           simpl. unfold is_alive. simpl. split; [apply andb_false_r|lia].
        -- erewrite run_S; [|done|done|by unfold fire; simpl; rewrite Hat, He].
           rewrite run_dead by (unfold is_alive; simpl; apply andb_false_r).
           simpl. unfold is_alive. simpl. split; [apply andb_false_r|lia].
    + intros Hlt. cbn [run]. unfold due. rewrite Hst, Hat. simpl negb. cbv iota.
      destruct (Z.ltb_spec budget (Z.max 0 rest)); [|lia].
      simpl. unfold is_alive. simpl. by rewrite Hst, Hat.
  - rewrite (run_stop_in_wait _ _ _ rest) by done. simpl.
    split; [|lia]. intros _. unfold is_alive. simpl.
    split; [apply andb_false_r|lia].
Qed.

(** The same through a join: a join that does not block leaves the worker
    as it is. *)
Lemma joined_under_stop fuel timeout th :
  (3 ≤ fuel)%nat → is_alive th = true →
  let th' := (joined fuel true timeout th).1 in
  (0 < timeout → remaining th ≤ timeout →
     is_alive th' = false ∧ clock th' = clock th + remaining th) ∧
  (timeout ≤ 0 ∨ timeout < remaining th →
     is_alive th' = true ∧ clock th' = clock th + Z.max 0 timeout).
Proof.
  intros Hfuel Halive. unfold joined.
  destruct (Z.leb_spec timeout 0) as [Hle|Hlt]; simpl.
  - split; [lia|]. intros _. split; [done|lia].
  - destruct (run_under_stop fuel timeout th Hfuel Halive ltac:(lia)) as [Hin Hout].
    split; [by intros _|].
    intros [?|Hshort]; [lia|]. rewrite Z.max_r by lia. by apply Hout.
Qed.

End StopFacts.

(** C2. While a thread registered under [thread_name] is alive, a call of
    [start_data_collection_thread] with that name returns [False] without
    raising, and leaves the registry, the threads and the events as they
    are: it only prints. Hence, whatever calls are made and however time
    passes, at most one live thread carries a given name. *)
Theorem start_refused_while_running :
  (∀ w cb interval thread_name os_start,
     ThreadManager.is_thread_running thread_name w = true →
     let '(w', r) :=
       ThreadManager.start_data_collection_thread cb interval thread_name os_start w in
     r = Ok false ∧
     ThreadManager.threads w' = ThreadManager.threads w ∧
     ThreadManager.events w' = ThreadManager.events w ∧
     ThreadManager._threads w' = ThreadManager._threads w ∧
     ThreadManager._stop_events w' = ThreadManager._stop_events w ∧
     ThreadManager.stdout w' = ThreadManager.stdout w ++
       ["[ThreadManager] Thread '" +:+ thread_name +:+ "' already running."]) ∧
  (∀ w, ThreadManager.reachable w → ThreadManager.one_active_per_name w).
Proof.
  split.
  - intros w cb interval thread_name os_start Hrun.
    unfold ThreadManager.start_data_collection_thread. by rewrite Hrun.
  - intros w Hw. by apply consistent_one_active, reachable_consistent.
Qed.

(** The manager after [start_data_collection_thread(cb, 2, "m")]. *)
Definition started_once (cb : ThreadManager.callback) : ThreadManager.World :=
  (ThreadManager.start_data_collection_thread cb 2 "m" (Ok tt) ThreadManager.init).1.

Lemma start_refused_while_running_witness :
  (ThreadManager.start_data_collection_thread one_tick_callback 2 "m" (Ok tt)
     (started_once one_tick_callback)).2 = Ok false ∧
  length (ThreadManager.threads
            (ThreadManager.start_data_collection_thread one_tick_callback 2 "m" (Ok tt)
               (started_once one_tick_callback)).1) = 1%nat ∧
  ThreadManager.one_active_per_name
    (ThreadManager.start_data_collection_thread one_tick_callback 2 "m" (Ok tt)
       (started_once one_tick_callback)).1.
Proof.
  destruct start_refused_while_running as [Hrefused Hone].
  pose proof (Hrefused (started_once one_tick_callback) one_tick_callback 2 "m" (Ok tt)
                eq_refl) as Hsecond.
  destruct (ThreadManager.start_data_collection_thread one_tick_callback 2 "m" (Ok tt)
              (started_once one_tick_callback)) as [w' r] eqn:Hcall.
  destruct Hsecond as (Hr & Hthreads & _).
  split; [exact Hr|]. split; [simpl; rewrite Hthreads; reflexivity|].
  apply Hone. unfold ThreadManager.reachable.
  eapply rtc_l; [apply ThreadManager.step_start|].
  apply rtc_once. fold (started_once one_tick_callback).
  replace w' with
    (ThreadManager.start_data_collection_thread one_tick_callback 2 "m" (Ok tt)
       (started_once one_tick_callback)).1 by (rewrite Hcall; reflexivity).
  apply ThreadManager.step_start.
Defined.

(** C9. [stop_thread] on a name that is not in the registry returns
    [False]; on a name whose registered thread is no longer alive it returns
    [True] at once, setting no event and joining no thread. Neither call
    raises; each only prints. *)
Theorem stop_without_running_thread
    (fuel : nat) (thread_name : string) (timeout : Z) (w : ThreadManager.World) :
  (ThreadManager._threads w !! thread_name = None →
     ThreadManager.stop_thread fuel thread_name timeout w =
     (ThreadManager.print
        ("[ThreadManager] Thread '" +:+ thread_name +:+ "' not found.") w,
      Ok false)) ∧
  (∀ tid, ThreadManager._threads w !! thread_name = Some tid →
     ThreadManager.alive_at w tid = false →
     ThreadManager.stop_thread fuel thread_name timeout w =
     (ThreadManager.print
        ("[ThreadManager] Thread '" +:+ thread_name +:+ "' is not running.") w,
      Ok true)).
Proof.
  unfold ThreadManager.stop_thread. split.
  - by intros ->.
  - by intros tid -> ->.
Qed.

Lemma stop_without_running_thread_witness :
  (ThreadManager.stop_thread 3 "never_started" 5 (started_once exiting_callback)).2
    = Ok false ∧
  (let gone := ThreadManager.advance 3 0 10 (started_once exiting_callback) in
   ThreadManager.stop_thread 3 "m" 5 gone =
   (ThreadManager.print "[ThreadManager] Thread 'm' is not running." gone, Ok true)).
Proof.
  split.
  - destruct (stop_without_running_thread 3 "never_started" 5
                (started_once exiting_callback)) as [Habsent _].
    rewrite Habsent; reflexivity.
  - intros gone.
    destruct (stop_without_running_thread 3 "m" 5 gone) as [_ Hdead].
    exact (Hdead 0%nat eq_refl eq_refl).
Defined.

(** C5. [stop_thread] on a running task sets the stop event the worker
    reads, blocks the caller for no longer than the timeout, and returns
    [True] exactly when the worker has exited by the time the join returns.
    That is the case when the invocation of the callback under way is over
    before the timeout; when it takes longer than the timeout, and when the
    timeout is not positive, the worker is still alive and the call returns
    [False]. Nothing is assumed about the callback: it may raise on every
    invocation. *)
Theorem stop_running_task
    (w : ThreadManager.World) (fuel : nat) (thread_name : string) (timeout : Z)
    (tid : nat) (th : ThreadManager.Thread) :
  ThreadManager.reachable w →
  (3 ≤ fuel)%nat →
  ThreadManager._threads w !! thread_name = Some tid →
  ThreadManager.threads w !! tid = Some th →
  ThreadManager.is_alive th = true →
  ∃ th',
    let '(w', r) := ThreadManager.stop_thread fuel thread_name timeout w in
    ThreadManager.threads w' !! tid = Some th' ∧
    ThreadManager.is_set w' (ThreadManager.stop_event th) = true ∧
    0 ≤ ThreadManager.clock th' - ThreadManager.clock th ≤ Z.max 0 timeout ∧
    r = Ok (negb (ThreadManager.is_alive th')) ∧
    (remaining th < timeout → r = Ok true) ∧
    (Z.max 0 timeout < remaining th → r = Ok false) ∧
    (timeout ≤ 0 → r = Ok false ∧ th' = th).
Proof.
  intros Hreach Hfuel Hreg Hth Halive.
  destruct (reachable_consistent _ Hreach) as [_ Hexists Hevent].
  destruct (Hexists _ _ Hreg) as (th0 & Hth0 & _ & Hev).
  rewrite Hth in Hth0. injection Hth0 as <-.
  pose proof (Hevent _ _ Hth) as Hlt.
  pose proof (lookup_lt_Some _ _ _ Hth) as Htid.
  unfold ThreadManager.stop_thread, ThreadManager.join.
  rewrite Hreg, Hev. unfold ThreadManager.alive_at at 1. rewrite Hth, Halive.
  cbn [negb ThreadManager.set_event ThreadManager.threads ThreadManager.events].
  rewrite Hth.
  assert (Hset : ThreadManager.is_set (ThreadManager.set_event (ThreadManager.stop_event th) w)
                   (ThreadManager.stop_event th) = true).
  { unfold ThreadManager.is_set. simpl. by rewrite list_lookup_insert_eq. }
  rewrite Hset.
  pose proof (joined_under_stop fuel timeout th Hfuel Halive) as [Hin Hout].
  pose proof (joined_clock fuel true timeout th) as Hclock.
  assert (Hsame : timeout ≤ 0 → (ThreadManager.joined fuel true timeout th).1 = th).
  { intros Hle. unfold ThreadManager.joined.
    by destruct (Z.leb_spec timeout 0); [|lia]. }
  destruct (ThreadManager.joined fuel true timeout th) as [th' printed].
  simpl in Hin, Hout, Hclock, Hsame.
  exists th'. unfold ThreadManager.alive_at.
  cbn [ThreadManager.threads]. rewrite list_lookup_insert_eq by done.
  assert (Hflag : ∀ line w0,
    ThreadManager.events w0 = <[ThreadManager.stop_event th := true]> (ThreadManager.events w) →
    ThreadManager.is_set (ThreadManager.print line w0) (ThreadManager.stop_event th) = true).
  { intros line w0 Hw0. unfold ThreadManager.is_set. simpl.
    by rewrite Hw0, list_lookup_insert_eq. }
  assert (Hrem : 0 ≤ remaining th).
  { unfold remaining. destruct (ThreadManager.at_pc th); lia. }
  destruct (decide (0 < timeout ∧ remaining th ≤ timeout)) as [[Hpos Hle]|Hno].
  - destruct (Hin Hpos Hle) as [Hdead _]. rewrite Hdead. simpl.
    rewrite list_lookup_insert_eq by done.
    repeat split; try done; try lia; try by apply Hflag.
  - destruct (Hout ltac:(lia)) as [Hlive _]. rewrite Hlive. simpl.
    rewrite list_lookup_insert_eq by done.
    repeat split; try done; try lia; try (by apply Hflag); try (by apply Hsame).
Qed.

(** A callback that raises on every invocation. *)
Definition raising_callback : ThreadManager.callback :=
  fun _ => {| ThreadManager.duration := 1;
              ThreadManager.how := ThreadManager.Raises (Exn ValueError "bad sample") |}.

(** A worker whose callback raises on every invocation is stopped within
    five ticks; a stop that does not wait does not see it gone. *)
Lemma stop_running_task_witness :
  let w := ThreadManager.advance 5 0 0 (started_once raising_callback) in
  ThreadManager.alive_at w 0 = true ∧
  (ThreadManager.stop_thread 3 "m" 5 w).2 = Ok true ∧
  (ThreadManager.stop_thread 3 "m" 0 w).2 = Ok false.
Proof.
  intros w. split; [reflexivity|].
  assert (Hreach : ThreadManager.reachable w).
  { unfold ThreadManager.reachable.
    eapply rtc_l; [apply ThreadManager.step_start|].
    apply rtc_once. apply ThreadManager.step_time. }
  pose (th := {| ThreadManager.name := "m";
                 ThreadManager.target_callback := raising_callback;
                 ThreadManager.target_interval := 2;
                 ThreadManager.stop_event := 0;
                 ThreadManager.started := true;
                 ThreadManager.at_pc :=
                   ThreadManager.InCallback 1
                     (ThreadManager.Raises (Exn ValueError "bad sample"));
                 ThreadManager.calls := 1;
                 ThreadManager.clock := 0;
                 ThreadManager.begins := [0] |}).
  split.
  - destruct (stop_running_task w 3 "m" 5 0 th
                Hreach ltac:(lia) eq_refl eq_refl eq_refl) as (th' & Hstop).
    destruct (ThreadManager.stop_thread 3 "m" 5 w) as [w' r].
    destruct Hstop as (_ & _ & _ & _ & Hbefore & _).
    apply Hbefore. unfold remaining. simpl. lia.
  - destruct (stop_running_task w 3 "m" 0 0 th
                Hreach ltac:(lia) eq_refl eq_refl eq_refl) as (th' & Hstop).
    destruct (ThreadManager.stop_thread 3 "m" 0 w) as [w' r].
    destruct Hstop as (_ & _ & _ & _ & _ & _ & Hnowait).
    apply Hnowait. lia.
Defined.

(** ** [kill_process] *)

Section KillFacts.

Import ProcessManager.

Implicit Types (ps : Psutil) (pid : Z) (force : bool) (e : exn).

(** The signal [kill_process] sends. *)
Definition send_signal ps pid force : result unit :=
  if force then proc_kill ps pid else proc_terminate ps pid.

(** An exception of psutil reaches the handlers of [kill_process]: it is
    raised by the lookup of the process, by the query of its name, by the
    signal, or by the wait (a timeout of the wait is handled inside). *)
Definition reaches_handlers ps pid force e : Prop :=
  Process ps pid = Raise e ∨
  (raises (Process ps pid) = false ∧ proc_name ps pid = Raise e) ∨
  (raises (Process ps pid) = false ∧ raises (proc_name ps pid) = false ∧
   send_signal ps pid force = Raise e) ∨
  (raises (Process ps pid) = false ∧ raises (proc_name ps pid) = false ∧
   raises (send_signal ps pid force) = false ∧
   proc_wait ps pid = Raise e ∧ isinstance e PsutilTimeoutExpired = false).

(** The wait ran into its timeout of three seconds. *)
Definition wait_timed_out ps pid force : Prop :=
  raises (Process ps pid) = false ∧ raises (proc_name ps pid) = false ∧
  raises (send_signal ps pid force) = false ∧
  ∃ e, proc_wait ps pid = Raise e ∧ isinstance e PsutilTimeoutExpired = true.

Lemma kill_body_raise ps pid force e :
  reaches_handlers ps pid force e → kill_body ps pid force = Raise e.
Proof.
  unfold reaches_handlers, send_signal, kill_body, mbind, result_bind, Py.bind.
  intros [H|[[H1 H]|[(H1 & H2 & H)|(H1 & H2 & H3 & H & Ht)]]].
  - by rewrite H.
  - destruct (Process ps pid); [|done]. by rewrite H.
  - destruct (Process ps pid); [|done]. destruct (proc_name ps pid); [|done].
    destruct force; by rewrite H.
  - destruct (Process ps pid); [|done]. destruct (proc_name ps pid); [|done].
    destruct force.
    + destruct (proc_kill ps pid); [|done]. simpl. by rewrite H, Ht.
    + destruct (proc_terminate ps pid); [|done]. simpl. by rewrite H, Ht.
Qed.

Lemma kill_body_timeout ps pid force :
  wait_timed_out ps pid force →
  ∃ r, kill_body ps pid force = Ok r ∧ ProcessManager.pid r = pid ∧
       success r = force.
Proof.
  unfold wait_timed_out, send_signal, kill_body, mbind, result_bind, Py.bind.
  intros (H1 & H2 & H3 & e & H & Ht).
  destruct (Process ps pid); [|done]. destruct (proc_name ps pid); [|done].
  destruct force.
  - destruct (proc_kill ps pid); [|done]. simpl. rewrite H, Ht. eauto.
  - destruct (proc_terminate ps pid); [|done]. simpl. rewrite H, Ht. eauto.
Qed.

Lemma kill_body_pid ps pid force r :
  kill_body ps pid force = Ok r → ProcessManager.pid r = pid.
Proof.
  unfold kill_body, mbind, result_bind, Py.bind.
  destruct (Process ps pid); [|done]. destruct (proc_name ps pid); [|done].
  destruct force.
  - destruct (proc_kill ps pid); [|done]. simpl.
    destruct (proc_wait ps pid) as [|e]; [by intros [= <-]|].
    destruct (isinstance e PsutilTimeoutExpired); [|done]. by intros [= <-].
  - destruct (proc_terminate ps pid); [|done]. simpl.
    destruct (proc_wait ps pid) as [|e]; [by intros [= <-]|].
    destruct (isinstance e PsutilTimeoutExpired); [|done]. by intros [= <-].
Qed.

(** Whatever leaves the [try] block was raised by psutil. *)
Lemma kill_body_exception ps pid force e :
  well_behaved ps → kill_body ps pid force = Raise e → isinstance e Exception = true.
Proof.
  intros Hwb. destruct (Hwb pid) as (Hp & Hn & Hk & Ht & Hw).
  unfold kill_body, mbind, result_bind, Py.bind.
  destruct (Process ps pid) as [|e1] eqn:H1; [|intros [= <-]; by apply Hp].
  destruct (proc_name ps pid) as [|e2] eqn:H2; [|intros [= <-]; by apply Hn].
  destruct force.
  - destruct (proc_kill ps pid) as [|e3] eqn:H3; [|intros [= <-]; by apply Hk]. simpl.
    destruct (proc_wait ps pid) as [|e4] eqn:H4; [done|].
    destruct (isinstance e4 PsutilTimeoutExpired); [done|]. intros [= <-]. by apply Hw.
  - destruct (proc_terminate ps pid) as [|e3] eqn:H3; [|intros [= <-]; by apply Ht]. simpl.
    destruct (proc_wait ps pid) as [|e4] eqn:H4; [done|].
    destruct (isinstance e4 PsutilTimeoutExpired); [done|]. intros [= <-]. by apply Hw.
Qed.

(** Conversely, what leaves the [try] block has reached the handlers. *)
Lemma kill_body_raised ps pid force e :
  kill_body ps pid force = Raise e → reaches_handlers ps pid force e.
Proof.
  unfold reaches_handlers, send_signal, kill_body, mbind, result_bind, Py.bind.
  destruct (Process ps pid) as [|e1]; [|intros [= <-]; by left].
  destruct (proc_name ps pid) as [|e2]; [|intros [= <-]; right; by left].
  destruct force.
  - destruct (proc_kill ps pid) as [|e3]; [|intros [= <-]; right; right; by left]. simpl.
    destruct (proc_wait ps pid) as [|e4]; [done|].
    destruct (isinstance e4 PsutilTimeoutExpired) eqn:Ht; [done|].
    intros [= <-]. right; right; right. by rewrite Ht.
  - destruct (proc_terminate ps pid) as [|e3]; [|intros [= <-]; right; right; by left]. simpl.
    destruct (proc_wait ps pid) as [|e4]; [done|].
    destruct (isinstance e4 PsutilTimeoutExpired) eqn:Ht; [done|].
    intros [= <-]. right; right; right. by rewrite Ht.
Qed.

(** A [try] block that comes to its end reports a success, unless the wait
    ran into its timeout. *)
Lemma kill_body_done ps pid force r :
  kill_body ps pid force = Ok r →
  success r = true ∨ wait_timed_out ps pid force.
Proof.
  unfold wait_timed_out, send_signal, kill_body, mbind, result_bind, Py.bind.
  destruct (Process ps pid); [|done]. destruct (proc_name ps pid); [|done].
  destruct force.
  - destruct (proc_kill ps pid); [|done]. simpl.
    destruct (proc_wait ps pid) as [|e]; [intros [= <-]; by left|].
    destruct (isinstance e PsutilTimeoutExpired) eqn:Ht; [|done].
    intros _. right. eauto 10.
  - destruct (proc_terminate ps pid); [|done]. simpl.
    destruct (proc_wait ps pid) as [|e]; [intros [= <-]; by left|].
    destruct (isinstance e PsutilTimeoutExpired) eqn:Ht; [|done].
    intros _. right. eauto 10.
Qed.

End KillFacts.

(** C10, as the specification states it: [kill_process] always returns its
    dictionary, and whenever something failed on the way, be it an
    exception of one of the calls or a wait that ran into its timeout, the
    dictionary says [success = False]. *)
Definition kill_process_reports_every_failure : Prop :=
  ∀ (ps : ProcessManager.Psutil) (pid : Z) (force : bool),
    ∃ r, ProcessManager.kill_process ps pid force = Ok r ∧
         ProcessManager.pid r = pid ∧
         ((∃ e, reaches_handlers ps pid force e) ∨ wait_timed_out ps pid force →
          ProcessManager.success r = false).

(** A process that ignores the signal: the wait runs into its timeout. *)
Definition stuck_process : ProcessManager.Psutil :=
  {| ProcessManager.Process := fun _ => Ok tt;
     ProcessManager.proc_name := fun _ => Ok "stuck";
     ProcessManager.proc_kill := fun _ => Ok tt;
     ProcessManager.proc_terminate := fun _ => Ok tt;
     ProcessManager.proc_wait := fun _ =>
       Raise (Exn PsutilTimeoutExpired "timeout after 3 seconds") |}.

(** The user presses Ctrl-C during the wait. *)
Definition interrupted_wait : ProcessManager.Psutil :=
  {| ProcessManager.Process := fun _ => Ok tt;
     ProcessManager.proc_name := fun _ => Ok "stuck";
     ProcessManager.proc_kill := fun _ => Ok tt;
     ProcessManager.proc_terminate := fun _ => Ok tt;
     ProcessManager.proc_wait := fun _ => Raise (Exn KeyboardInterrupt "") |}.

(** C10 fails twice over. With [force=True] a wait that runs into its
    timeout is reported as a success: the handler of the timeout returns
    only [if not force], so that a process still there three seconds after
    SIGKILL counts as killed. And an exception that is not an [Exception]
    passes all three handlers. *)
Lemma kill_process_forced_timeout :
  ProcessManager.kill_process stuck_process 4242 true =
    Ok {| ProcessManager.success := true;
          ProcessManager.message := "Process 'stuck' (PID: 4242) was killed (SIGKILL) successfully.";
          ProcessManager.pid := 4242 |} ∧
  wait_timed_out stuck_process 4242 true ∧
  ProcessManager.kill_process interrupted_wait 4242 false
    = Raise (Exn KeyboardInterrupt "") ∧
  ¬ kill_process_reports_every_failure.
Proof.
  assert (Hwait : wait_timed_out stuck_process 4242 true).
  { repeat split; try reflexivity.
    exists (Exn PsutilTimeoutExpired "timeout after 3 seconds"). by split. }
  split; [reflexivity|]. split; [exact Hwait|]. split; [reflexivity|].
  intros Hclaim. destruct (Hclaim stuck_process 4242 true) as (r & Hr & _ & Hfail).
  specialize (Hfail (or_intror Hwait)).
  injection Hr as <-. discriminate Hfail.
Qed.

(** C10, amended. [kill_process] lets no instance of [Exception] out: what
    it raises, if anything, is an exception of another kind that one of the
    calls of psutil has raised; with a psutil that raises instances of
    [Exception] only it always returns. What it returns is a dictionary
    with 'success', 'message' and 'pid', and 'pid' is the argument. A
    process that does not exist, a denied access and any other exception
    that reaches the handlers give [success = False] with the message of
    the handler. A wait that runs into its timeout is handled apart: after
    a graceful termination it gives [success = False], after a forced one
    [success = True]. When no call raises, the result is a success. *)
Theorem kill_process_always_reports
    (ps : ProcessManager.Psutil) (pid : Z) (force : bool) :
  (∀ e, ProcessManager.kill_process ps pid force = Raise e →
        isinstance e Exception = false ∧ reaches_handlers ps pid force e) ∧
  (ProcessManager.well_behaved ps →
   raises (ProcessManager.kill_process ps pid force) = false) ∧
  (∀ r, ProcessManager.kill_process ps pid force = Ok r →
     ProcessManager.pid r = pid ∧
     (∀ e, reaches_handlers ps pid force e →
        ProcessManager.success r = false ∧
        ProcessManager.message r =
          if isinstance e NoSuchProcess then
            "Process with PID " +:+ pretty pid +:+ " does not exist."
          else if isinstance e AccessDenied then
            "Access denied. Cannot terminate process with PID " +:+ pretty pid
            +:+ ". Try running with elevated privileges."
          else
            "Error terminating process with PID " +:+ pretty pid +:+ ": " +:+ str e) ∧
     (wait_timed_out ps pid force → ProcessManager.success r = force) ∧
     ((∀ e, ¬ reaches_handlers ps pid force e) → ¬ wait_timed_out ps pid force →
      ProcessManager.success r = true)).
Proof.
  unfold ProcessManager.kill_process.
  destruct (ProcessManager.kill_body ps pid force) as [r|e] eqn:Hbody.
  - split; [done|]. split; [done|]. intros r' [= <-].
    split; [by eapply kill_body_pid|]. split; [|split].
    + intros e He. apply kill_body_raise in He. congruence.
    + intros Ht. destruct (kill_body_timeout _ _ _ Ht) as (r' & Hr' & _ & Hs). congruence.
    + intros _ Hnot. by destruct (kill_body_done _ _ _ _ Hbody).
  - pose proof (kill_body_raised _ _ _ _ Hbody) as Hreach.
    assert (Hsame : ∀ e', reaches_handlers ps pid force e' → e' = e).
    { intros e' He'. apply kill_body_raise in He'. congruence. }
    assert (Hnot : ¬ wait_timed_out ps pid force).
    { intros Ht. destruct (kill_body_timeout _ _ _ Ht) as (r' & Hr' & _). congruence. }
    split; [|split].
    + intros e'. destruct (isinstance e NoSuchProcess); [done|].
      destruct (isinstance e AccessDenied); [done|].
      destruct (isinstance e Exception) eqn:Hexc; [done|]. by intros [= <-].
    + intros Hwb. pose proof (kill_body_exception _ _ _ _ Hwb Hbody) as Hexc.
      destruct (isinstance e NoSuchProcess); [done|].
      destruct (isinstance e AccessDenied); [done|]. by rewrite Hexc.
    + intros r.
      destruct (isinstance e NoSuchProcess) eqn:Hns;
        [|destruct (isinstance e AccessDenied) eqn:Had;
          [|destruct (isinstance e Exception) eqn:Hexc; [|done]]].
      all: intros [= <-]; split; [done|]; split; [|split; [done|]].
      all: try (intros e' ->%Hsame; by rewrite ?Hns, ?Had).
      all: intros Hnone; by destruct (Hnone e).
Qed.

(** A process table without the process asked for. *)
Definition no_such_process : ProcessManager.Psutil :=
  {| ProcessManager.Process := fun _ => Raise (Exn NoSuchProcess "process no longer exists");
     ProcessManager.proc_name := fun _ => Ok "";
     ProcessManager.proc_kill := fun _ => Ok tt;
     ProcessManager.proc_terminate := fun _ => Ok tt;
     ProcessManager.proc_wait := fun _ => Ok tt |}.

Lemma kill_process_always_reports_witness :
  ProcessManager.kill_process no_such_process 4242 false =
  Ok {| ProcessManager.success := false;
        ProcessManager.message := "Process with PID 4242 does not exist.";
        ProcessManager.pid := 4242 |}.
Proof.
  destruct (ProcessManager.kill_process no_such_process 4242 false) as [r|e] eqn:Hr;
    [|discriminate Hr].
  destruct (kill_process_always_reports no_such_process 4242 false) as (_ & _ & Hok).
  destruct (Hok r Hr) as (Hpid & Hfail & _).
  destruct r as [s m p]. simpl in *.
  destruct (Hfail (Exn NoSuchProcess "process no longer exists") (or_introl eq_refl))
    as [-> ->].
  rewrite Hpid. reflexivity.
Defined.

(** ** The write paths *)

Section WriteFacts.

Import Host PowerManager.

Implicit Types (h : Host.t) (pm : PowerManager.t).







End WriteFacts.

(** A machine on which sysfs refuses the write and the helper cannot be
    launched: [fork] fails in [subprocess.run]. *)
Definition helper_cannot_launch : Host.t :=
  {| Host.readline := fun _ => Ok "performance powersave";
     Host.write := fun _ _ => Raise (Exn PermissionError "[Errno 13] Permission denied");
     Host.parse_int := fun _ => Raise (Exn ValueError "invalid literal for int()");
     Host.path_exists := fun _ => true;
     Host.which := fun _ => Some "/usr/bin/pkexec";
     Host.sys_executable := "/usr/bin/python3";
     Host.subprocess_run := fun _ =>
       Raise (Exn OSError "[Errno 11] Resource temporarily unavailable") |}.

(** A power manager configured with [use_pkexec: true]. *)
Definition pkexec_power_manager : PowerManager.t :=
  {| PowerManager.cpu_paths := ["/sys/devices/system/cpu/cpu0/cpufreq"];
     PowerManager.use_pkexec := true;
     PowerManager.helper_path := "/opt/project-monitor/scripts/power_helper.py" |}.

(** C8 at its failing input: every library call raises instances of
    [Exception] only, and still [set_governor] hands the [OSError] of the
    helper launch to its caller instead of a [{success, message}] answer. *)
Lemma set_governor_helper_launch_error_escapes :
  Host.well_behaved helper_cannot_launch ∧
  PowerManager.set_governor pkexec_power_manager helper_cannot_launch "performance"
  = Raise (Exn OSError "[Errno 11] Resource temporarily unavailable").
Proof.
  split; [|reflexivity].
  unfold Host.well_behaved, Host.raises_exceptions_only.
  repeat split; intros *; simpl; (intros [= <-] || intros [=]); reflexivity.
Qed.

(** [set_pwm] answers every call: out of range, a refused write and any
    other exception of the write give [success = False] with the message of
    the case; a write that goes through gives [success = True]. *)
Lemma set_pwm_always_reports (h : Host.t) (pwm_path : string) (value : Z) :
  Host.well_behaved h →
  ∃ r, SensorsReader.set_pwm h pwm_path value = Ok r ∧
       (value < 0 ∨ 255 < value →
          r = {| Host.success := false; Host.message := "PWM fuera de rango (0-255)" |}) ∧
       (0 ≤ value ≤ 255 →
          match Host.write h pwm_path (pretty value) with
          | Ok _ => r = {| Host.success := true;
                           Host.message := "PWM ajustado a " +:+ pretty value |}
          | Raise exc =>
              Host.success r = false ∧
              Host.message r =
                if isinstance exc PermissionError
                then "Permiso denegado al escribir PWM"
                else "Error al escribir PWM: " +:+ str exc
          end).
Proof.
  intros (_ & Hw & _). unfold SensorsReader.set_pwm.
  destruct (Z.ltb_spec value 0); simpl.
  { eexists. split; [done|]. split; [done|lia]. }
  destruct (Z.ltb_spec 255 value); simpl.
  { eexists. split; [done|]. split; [done|lia]. }
  unfold mbind, result_bind, Py.bind.
  destruct (Host.write h pwm_path (pretty value)) as [[]|exc] eqn:Hwrite; simpl.
  { eexists. split; [done|]. split; [lia|done]. }
  destruct (isinstance exc PermissionError).
  { eexists. split; [done|]. split; [lia|done]. }
  rewrite (Hw _ _ _ Hwrite). eexists. split; [done|]. split; [lia|done].
Qed.


Lemma helper_cannot_launch_well_behaved : Host.well_behaved helper_cannot_launch.
Proof.
  unfold Host.well_behaved, Host.raises_exceptions_only.
  repeat split; intros *; simpl; (intros [= <-] || intros [=]); reflexivity.
Defined.

Lemma set_pwm_always_reports_witness :
  SensorsReader.set_pwm helper_cannot_launch "/sys/class/hwmon/hwmon0/pwm1" 128 =
  Ok {| Host.success := false; Host.message := "Permiso denegado al escribir PWM" |}.
Proof.
  destruct (set_pwm_always_reports helper_cannot_launch "/sys/class/hwmon/hwmon0/pwm1" 128
              helper_cannot_launch_well_behaved) as (r & Hr & _ & Hwrite).
  rewrite Hr. destruct r as [s m]. simpl in Hwrite.
  destruct (Hwrite ltac:(lia)) as [-> ->]. reflexivity.
Defined.


(* ===================================================================== *)
(** * More of the code

    The operations around the contracts above, each with the properties the
    code itself shows:

    - [controller/thread_manager.py]: [restart_thread], [stop_all_threads],
      and what a stop request does to a worker afterwards;
    - [controller/app_controller.py]: [start_monitoring], [stop_monitoring],
      [cleanup], the current reading against the history, [_format_bytes];
    - [model/system_data.py]: the storage totals and the network deltas;
    - [model/process_manager.py]: [get_process_list], [get_process_count];
    - [model/power_manager.py] with [scripts/power_helper.py]:
      [set_max_freq], and the two routes of [set_governor];
    - [config.py]: [_deep_update] and [load_config];
    - [model/msi_ec_manager.py] with [scripts/msi_ec_helper.py]: the
      fallback of [_write_value];
    - [model/gpu_manager.py]: the NVIDIA query;
    - [view/main_window.py]: the alert levels. *)
(* ===================================================================== *)

(** ** [controller/thread_manager.py]: the remaining operations *)

Module ThreadManagerOps.

Import ThreadManager.

(** The default of [stop_thread(thread_name, timeout=5.0)], a tick being a
    second. *)
Definition default_timeout : Z := 5.

(** [restart_thread]: the result of [stop_thread] is dropped. *)
Definition restart_thread (fuel : nat) (thread_name : string) (cb : callback)
    (interval : Z) (os_start : result unit) (w : World) : World * result bool :=
  let '(w1, _) := stop_thread fuel thread_name default_timeout w in
  start_data_collection_thread cb interval thread_name os_start w1.

(** The workers are not held up while the caller is inside a [stop_thread]:
    the lock is the callers', and a [join] blocks the caller, nobody else.
    [elapse] lets the threads of [others] run, each for its number of ticks
    on its own clock. *)
Definition elapse (fuel : nat) (others : list (nat * Z)) (w : World) : World :=
  foldl (fun w '(tid, t) => advance fuel tid t w) w others.

(** [stop_all_threads]. The names are those of [list(self._threads.keys())],
    in the order of the dictionary, which the registry as a finite map does
    not keep. Each name comes with what the workers do while the caller
    stops the thread of that name: the one being joined runs inside
    [stop_thread], and all of them, the ones still to be stopped among
    them, run as [elapse] says. *)
Definition stop_all_threads (fuel : nat) (timeout : Z)
    (thread_names : list (string * list (nat * Z))) (w : World) : World :=
  foldl (fun w '(thread_name, others) =>
           elapse fuel others (stop_thread fuel thread_name timeout w).1)
    w thread_names.

(** [thread_names] lists the keys of [_threads]. *)
Definition lists_keys (thread_names : list string) (w : World) : Prop :=
  ∀ n, n ∈ thread_names ↔ is_Some (_threads w !! n).

End ThreadManagerOps.

Section StopLaws.

Import ThreadManager ThreadManagerOps.

Implicit Types (w : World) (th : Thread).

(** The manager after a [stop_thread] that had to signal and join. *)
Definition stopped_world w (tid : nat) th' (printed : list string) (line : string) : World :=
  {| _threads := _threads w; _stop_events := _stop_events w;
     threads := <[tid := th']> (threads w);
     events := <[stop_event th' := true]> (events w);
     stdout := (stdout w ++ printed) ++ [line] |}.

(** [stop_thread] on a live thread of a consistent manager, spelled out. *)
Lemma stop_thread_live w fuel n timeout tid th :
  consistent w →
  _threads w !! n = Some tid → threads w !! tid = Some th → is_alive th = true →
  let '(th', printed) := joined fuel true timeout th in
  stop_thread fuel n timeout w =
  (stopped_world w tid th' printed
     ("[ThreadManager] Thread '" +:+ n +:+
      (if is_alive th' then "' did not stop within timeout."
       else "' stopped successfully.")),
   Ok (negb (is_alive th'))).
Proof.
  intros [_ Hexists Hevent] Hreg Hth Halive.
  destruct (Hexists _ _ Hreg) as (th0 & Hth0 & _ & Hev).
  rewrite Hth in Hth0. injection Hth0 as <-.
  pose proof (Hevent _ _ Hth) as Hlt.
  pose proof (lookup_lt_Some _ _ _ Hth) as Htid.
  pose proof (joined_same fuel true timeout th) as (_ & Hsame & _).
  unfold stop_thread, join.
  rewrite Hreg, Hev. unfold alive_at at 1. rewrite Hth, Halive.
  cbn [negb set_event threads events].
  rewrite Hth.
  replace (is_set (set_event (stop_event th) w) (stop_event th)) with true
    by (unfold is_set; simpl; by rewrite list_lookup_insert_eq).
  destruct (joined fuel true timeout th) as [th' printed].
  simpl in Hsame. unfold alive_at. cbn [threads].
  rewrite list_lookup_insert_eq by done. unfold stopped_world, print. simpl.
  rewrite Hsame. by destruct (is_alive th').
Qed.

(** While the event is set the worker enters no invocation. *)
Lemma fire_stopped_calls th :
  calls (fire true th).1 = calls th ∧ begins (fire true th).1 = begins th.
Proof.
  unfold fire. destruct (at_pc th) as [|rest [|e]|rest|u]; try done.
  by destruct (isinstance e Exception).
Qed.

Lemma run_stopped_calls fuel budget th :
  calls (run fuel true budget th).1 = calls th ∧
  begins (run fuel true budget th).1 = begins th.
Proof.
  revert budget th. induction fuel as [|fuel IH]; intros budget th; [done|].
  simpl. destruct (due true th) as [t|]; [|done].
  destruct (budget <? t); [done|].
  pose proof (fire_stopped_calls (delay t th)) as [Hc Hb].
  destruct (fire true (delay t th)) as [th1 p1].
  specialize (IH (budget - t) th1).
  destruct (run fuel true (budget - t) th1) as [th2 p2]. simpl in *.
  destruct IH as [-> ->]. by rewrite Hc, Hb.
Qed.

(** A worker that is still inside its callback when the budget is over has
    been delayed, nothing else. *)
Lemma run_short_budget fuel flag budget th :
  is_alive th = true → 0 ≤ budget → budget < remaining th →
  run (S fuel) flag budget th = (delay budget th, []).
Proof.
  unfold is_alive, remaining. intros [Hst Hpc]%andb_true_iff Hb Hlt.
  cbn [run]. unfold due. rewrite Hst. simpl negb. cbv iota.
  destruct (at_pc th) as [|rest h|rest|u]; try lia.
  by destruct (Z.ltb_spec budget (Z.max 0 rest)); [|lia].
Qed.

Lemma remaining_delay budget th :
  0 ≤ budget → budget < remaining th →
  remaining (delay budget th) = remaining th - budget.
Proof.
  unfold remaining, delay. simpl. destruct (at_pc th); lia.
Qed.

(** The same for a join. *)
Lemma joined_stopped_calls fuel timeout th :
  calls (joined fuel true timeout th).1 = calls th ∧
  begins (joined fuel true timeout th).1 = begins th.
Proof.
  unfold joined. destruct (timeout <=? 0); [done|apply run_stopped_calls].
Qed.

(** A join that is over before the invocation under way leaves the worker
    alive inside it. *)
Lemma joined_short fuel flag timeout th :
  is_alive th = true → Z.max 0 timeout < remaining th →
  ∃ th', joined (S fuel) flag timeout th = (th', []) ∧
         is_alive th' = true ∧ stop_event th' = stop_event th ∧
         remaining th' = remaining th - Z.max 0 timeout.
Proof.
  intros Halive Hlong. unfold joined.
  destruct (Z.leb_spec timeout 0) as [Hle|Hpos].
  - exists th. repeat split; [done|lia].
  - rewrite run_short_budget by (done || lia).
    exists (delay timeout th). split; [done|].
    split; [|split; [done|rewrite remaining_delay by lia; lia]].
    revert Halive. unfold is_alive, delay. simpl.
    unfold remaining in Hlong. destruct (at_pc th); try done; lia.
Qed.

End StopLaws.

Section Cancellation.

Import ThreadManager ThreadManagerOps.

Implicit Types (w : World) (th : Thread).

(** Thread [tid] has been signalled and has entered [k] invocations, at
    the times [bs]. *)
Definition signalled_at w (tid eid : nat) (k : nat) (bs : list Z) : Prop :=
  events w !! eid = Some true ∧
  ∃ th, threads w !! tid = Some th ∧ stop_event th = eid ∧
        calls th = k ∧ begins th = bs.

Lemma signalled_print w tid eid k bs line :
  signalled_at w tid eid k bs → signalled_at (print line w) tid eid k bs.
Proof. done. Qed.

Lemma signalled_set_event w tid eid k bs eid' :
  signalled_at w tid eid k bs → signalled_at (set_event eid' w) tid eid k bs.
Proof.
  intros [Hev Hth]. split; [|done]. simpl.
  destruct (decide (eid' = eid)) as [->|Hne].
  - rewrite list_lookup_insert_eq; [done|by eapply lookup_lt_Some].
  - by rewrite list_lookup_insert_ne.
Qed.

Lemma signalled_advance w tid eid k bs fuel tid' t :
  signalled_at w tid eid k bs → signalled_at (advance fuel tid' t w) tid eid k bs.
Proof.
  intros [Hev (th & Hth & Heid & Hk & Hbs)]. unfold advance.
  destruct (threads w !! tid') as [th0|] eqn:Hth0; [|by split; eauto].
  destruct (decide (tid' = tid)) as [->|Hne].
  - rewrite Hth in Hth0. injection Hth0 as <-.
    assert (Hflag : is_set w (stop_event th) = true)
      by (unfold is_set; by rewrite Heid, Hev).
    rewrite Hflag.
    pose proof (run_same fuel true (Z.max 0 t) th) as (_ & Hsame & _).
    pose proof (run_stopped_calls fuel (Z.max 0 t) th) as [Hc Hb].
    destruct (run fuel true (Z.max 0 t) th) as [th' printed]. simpl in *.
    split; [done|]. exists th'. simpl.
    rewrite list_lookup_insert_eq by by eapply lookup_lt_Some.
    repeat split; congruence.
  - destruct (run fuel _ _ th0) as [th' printed]. split; [done|].
    exists th. simpl. by rewrite list_lookup_insert_ne.
Qed.

Lemma signalled_join w tid eid k bs fuel tid' timeout :
  signalled_at w tid eid k bs → signalled_at (join fuel tid' timeout w) tid eid k bs.
Proof.
  intros [Hev (th & Hth & Heid & Hk & Hbs)]. unfold join.
  destruct (threads w !! tid') as [th0|] eqn:Hth0; [|by split; eauto].
  destruct (decide (tid' = tid)) as [->|Hne].
  - rewrite Hth in Hth0. injection Hth0 as <-.
    assert (Hflag : is_set w (stop_event th) = true)
      by (unfold is_set; by rewrite Heid, Hev).
    rewrite Hflag.
    pose proof (joined_same fuel true timeout th) as (_ & Hsame & _).
    pose proof (joined_stopped_calls fuel timeout th) as [Hc Hb].
    destruct (joined fuel true timeout th) as [th' printed]. simpl in *.
    split; [done|]. exists th'. simpl.
    rewrite list_lookup_insert_eq by by eapply lookup_lt_Some.
    repeat split; congruence.
  - destruct (joined fuel _ _ th0) as [th' printed]. split; [done|].
    exists th. simpl. by rewrite list_lookup_insert_ne.
Qed.

Lemma signalled_start w tid eid k bs cb interval n os_start :
  signalled_at w tid eid k bs →
  signalled_at (start_data_collection_thread cb interval n os_start w).1 tid eid k bs.
Proof.
  intros [Hev (th & Hth & Hrest)]. unfold start_data_collection_thread.
  destruct (is_thread_running n w); [by split; eauto|].
  assert (signalled_at
            {| _threads := <[n := length (threads w)]> (_threads w);
               _stop_events := <[n := length (events w)]> (_stop_events w);
               threads := threads w ++
                 [new_thread n cb interval (length (events w)) (negb (raises os_start))];
               events := events w ++ [false]; stdout := stdout w |} tid eid k bs).
  { split; simpl.
    - by rewrite lookup_app_l by by eapply lookup_lt_Some.
    - exists th. by rewrite lookup_app_l by by eapply lookup_lt_Some. }
  by destruct os_start.
Qed.

Lemma signalled_stop w tid eid k bs fuel n timeout :
  signalled_at w tid eid k bs →
  signalled_at (stop_thread fuel n timeout w).1 tid eid k bs.
Proof.
  intros Hs. unfold stop_thread.
  destruct (_threads w !! n) as [tid'|]; [|done].
  destruct (alive_at w tid'); simpl; [|done].
  assert (signalled_at
            (join fuel tid' timeout
               match _stop_events w !! n with
               | Some eid' => set_event eid' w
               | None => w
               end) tid eid k bs).
  { apply signalled_join. destruct (_stop_events w !! n); [|done].
    by apply signalled_set_event. }
  by destruct (alive_at _ tid').
Qed.

Lemma signalled_step w w' tid eid k bs :
  step w w' → signalled_at w tid eid k bs → signalled_at w' tid eid k bs.
Proof.
  intros [] Hs; eauto using signalled_start, signalled_stop, signalled_advance.
Qed.

Lemma signalled_later w w' tid eid k bs :
  rtc step w w' → signalled_at w tid eid k bs → signalled_at w' tid eid k bs.
Proof. induction 1; eauto using signalled_step. Qed.

End Cancellation.

(** A running task that [stop_thread] has signalled enters no further
    invocation of its callback, whether or not the stop came back in time
    and whatever is called or passes afterwards: the invocation under way
    is the last one. *)
Theorem stopped_task_begins_no_invocation
    (w : ThreadManager.World) (fuel : nat) (thread_name : string) (timeout : Z)
    (tid : nat) (th : ThreadManager.Thread) (w2 : ThreadManager.World) :
  ThreadManager.reachable w →
  ThreadManager._threads w !! thread_name = Some tid →
  ThreadManager.threads w !! tid = Some th →
  ThreadManager.is_alive th = true →
  rtc ThreadManager.step (ThreadManager.stop_thread fuel thread_name timeout w).1 w2 →
  ∃ th2, ThreadManager.threads w2 !! tid = Some th2 ∧
         ThreadManager.calls th2 = ThreadManager.calls th ∧
         ThreadManager.begins th2 = ThreadManager.begins th.
Proof.
  intros Hreach Hreg Hth Halive Hlater.
  pose proof (reachable_consistent _ Hreach) as Hcons.
  assert (Hsig : signalled_at (ThreadManager.stop_thread fuel thread_name timeout w).1
                   tid (ThreadManager.stop_event th)
                   (ThreadManager.calls th) (ThreadManager.begins th)).
  { pose proof (stop_thread_live w fuel thread_name timeout tid th Hcons Hreg Hth Halive) as Hstop.
    pose proof (joined_same fuel true timeout th) as (_ & Hsame & _).
    pose proof (joined_stopped_calls fuel timeout th) as [Hc Hb].
    destruct (ThreadManager.joined fuel true timeout th) as [th' printed].
    rewrite Hstop. simpl in *. destruct Hcons as [_ _ Hevent].
    split; simpl.
    - rewrite Hsame, list_lookup_insert_eq; [done|]. by eapply Hevent.
    - exists th'. by rewrite list_lookup_insert_eq by by eapply lookup_lt_Some. }
  assert (Hfinal : signalled_at w2 tid (ThreadManager.stop_event th)
                     (ThreadManager.calls th) (ThreadManager.begins th)).
  { revert Hsig. induction Hlater; eauto using signalled_step. }
  destruct Hfinal as (_ & th2 & ? & _ & ? & ?). eauto.
Qed.

(** A [stop_thread] that runs into its timeout returns [False] with the
    task still registered as running, but the request is not lost: the
    event stays set, and the worker is gone as soon as the invocation under
    way is over. *)
Theorem timed_out_stop_takes_effect
    (w : ThreadManager.World) (fuel : nat) (thread_name : string) (timeout : Z)
    (tid : nat) (th : ThreadManager.Thread) :
  ThreadManager.reachable w →
  (1 ≤ fuel)%nat →
  ThreadManager._threads w !! thread_name = Some tid →
  ThreadManager.threads w !! tid = Some th →
  ThreadManager.is_alive th = true →
  Z.max 0 timeout < remaining th →
  let w1 := (ThreadManager.stop_thread fuel thread_name timeout w).1 in
  (ThreadManager.stop_thread fuel thread_name timeout w).2 = Ok false ∧
  ThreadManager.is_thread_running thread_name w1 = true ∧
  ∀ fuel' t, (3 ≤ fuel')%nat → remaining th - Z.max 0 timeout ≤ t →
    ThreadManager.alive_at (ThreadManager.advance fuel' tid t w1) tid = false.
Proof.
  intros Hreach Hfuel Hreg Hth Halive Hlong w1. subst w1.
  pose proof (reachable_consistent _ Hreach) as Hcons.
  pose proof (stop_thread_live w fuel thread_name timeout tid th Hcons Hreg Hth Halive) as Hstop.
  destruct fuel as [|fuel]; [lia|].
  destruct (joined_short fuel true timeout th Halive Hlong)
    as (th' & Hjoin & Halive' & Hsame & Hrem).
  rewrite Hjoin, Halive' in Hstop. rewrite Hstop. simpl.
  pose proof (lookup_lt_Some _ _ _ Hth) as Htid.
  destruct Hcons as [_ _ Hevent]. pose proof (Hevent _ _ Hth) as Hlt.
  split; [done|]. split.
  - unfold ThreadManager.is_thread_running, ThreadManager.alive_at. simpl.
    by rewrite Hreg, list_lookup_insert_eq.
  - intros fuel' t Hfuel' Ht.
    unfold ThreadManager.advance, ThreadManager.alive_at. simpl.
    rewrite list_lookup_insert_eq by done.
    unfold ThreadManager.is_set. simpl.
    rewrite list_lookup_insert_eq by (by rewrite Hsame). simpl.
    pose proof (run_under_stop fuel' (Z.max 0 t) th' Hfuel' Halive' ltac:(lia))
      as [Hin _].
    destruct (ThreadManager.run fuel' true (Z.max 0 t) _) as [th2 printed].
    simpl in *. rewrite list_lookup_insert_eq by by rewrite length_insert.
    apply Hin. lia.
Qed.

(** A callback whose invocations take a hundred ticks. *)
Definition slow_callback : ThreadManager.callback :=
  fun _ => {| ThreadManager.duration := 100; ThreadManager.how := ThreadManager.Returns |}.

(** The manager with a worker inside its first invocation of [cb]. *)
Definition inside_first_call (cb : ThreadManager.callback) : ThreadManager.World :=
  ThreadManager.advance 5 0 0 (started_once cb).

Lemma inside_first_call_reachable cb : ThreadManager.reachable (inside_first_call cb).
Proof.
  unfold ThreadManager.reachable.
  eapply rtc_l; [apply ThreadManager.step_start|].
  apply rtc_once. apply ThreadManager.step_time.
Qed.

Lemma stopped_task_begins_no_invocation_witness :
  let w1 := (ThreadManager.stop_thread 3 "m" 5 (inside_first_call slow_callback)).1 in
  ∃ th2, ThreadManager.threads (ThreadManager.advance 10 0 1000 w1) !! 0%nat = Some th2 ∧
         ThreadManager.calls th2 = 1%nat ∧ ThreadManager.begins th2 = [0].
Proof.
  intros w1.
  exact (stopped_task_begins_no_invocation
           (inside_first_call slow_callback) 3 "m" 5 0
           {| ThreadManager.name := "m";
              ThreadManager.target_callback := slow_callback;
              ThreadManager.target_interval := 2;
              ThreadManager.stop_event := 0;
              ThreadManager.started := true;
              ThreadManager.at_pc := ThreadManager.InCallback 100 ThreadManager.Returns;
              ThreadManager.calls := 1;
              ThreadManager.clock := 0;
              ThreadManager.begins := [0] |}
           (ThreadManager.advance 10 0 1000 w1)
           (inside_first_call_reachable slow_callback) eq_refl eq_refl eq_refl
           (rtc_once _ _ (ThreadManager.step_time 10 0 1000 w1))).
Defined.

Lemma timed_out_stop_takes_effect_witness :
  let w := inside_first_call slow_callback in
  (ThreadManager.stop_thread 3 "m" 5 w).2 = Ok false ∧
  ThreadManager.alive_at
    (ThreadManager.advance 3 0 95 (ThreadManager.stop_thread 3 "m" 5 w).1) 0 = false.
Proof.
  intros w.
  destruct (timed_out_stop_takes_effect w 3 "m" 5 0
              {| ThreadManager.name := "m";
                 ThreadManager.target_callback := slow_callback;
                 ThreadManager.target_interval := 2;
                 ThreadManager.stop_event := 0;
                 ThreadManager.started := true;
                 ThreadManager.at_pc := ThreadManager.InCallback 100 ThreadManager.Returns;
                 ThreadManager.calls := 1;
                 ThreadManager.clock := 0;
                 ThreadManager.begins := [0] |}
              (inside_first_call_reachable slow_callback) ltac:(lia)
              eq_refl eq_refl eq_refl ltac:(unfold remaining; simpl; lia))
    as (Hfalse & _ & Hlater).
  split; [exact Hfalse|].
  apply Hlater; [lia|]. unfold remaining. simpl. lia.
Defined.

Section RestartLaws.

Import ThreadManager ThreadManagerOps.

Implicit Types (w : World) (th : Thread).

(** The thread registered under [n] is alive and its invocation under way
    needs more than the default timeout. *)
Definition busy (n : string) w : bool :=
  match _threads w !! n with
  | None => false
  | Some tid =>
      match threads w !! tid with
      | None => false
      | Some th => is_alive th && (default_timeout <? remaining th)
      end
  end.

(** What [start_data_collection_thread] does when nothing runs under the
    name. *)
Lemma start_when_free w cb interval n :
  is_thread_running n w = false →
  let '(w', r) := start_data_collection_thread cb interval n (Ok tt) w in
  r = Ok true ∧
  _threads w' !! n = Some (length (threads w)) ∧
  threads w' !! length (threads w) =
    Some (new_thread n cb interval (length (events w)) true) ∧
  is_set w' (length (events w)) = false ∧
  is_thread_running n w' = true ∧
  (∀ tid, (tid < length (threads w))%nat → threads w' !! tid = threads w !! tid).
Proof.
  intros Hfree. unfold start_data_collection_thread. rewrite Hfree. simpl.
  split; [done|]. split; [by rewrite lookup_insert_eq|].
  assert (Hnew : (threads w ++ [new_thread n cb interval (length (events w)) true])
                   !! length (threads w)
                 = Some (new_thread n cb interval (length (events w)) true))
    by by rewrite lookup_app_r, Nat.sub_diag.
  split; [done|]. split.
  { unfold is_set. simpl. by rewrite lookup_app_r, Nat.sub_diag. }
  split.
  { unfold is_thread_running, alive_at. simpl. by rewrite lookup_insert_eq, Hnew. }
  intros tid Hlt. by rewrite lookup_app_l.
Qed.

End RestartLaws.

(** [restart_thread] replaces the worker only if the old one is gone within
    the default timeout of five seconds. It then returns [True]: the name
    refers to a new thread at the start of its loop, whose stop event is a
    new one that is not set, and the old thread is dead. If the old worker
    is busy for longer, [restart_thread] returns [False], creates nothing,
    and leaves the old worker running. *)
Theorem restart_thread_outcome
    (w : ThreadManager.World) (fuel : nat) (thread_name : string)
    (cb : ThreadManager.callback) (interval : Z) :
  ThreadManager.reachable w →
  (3 ≤ fuel)%nat →
  let '(w', r) :=
    ThreadManagerOps.restart_thread fuel thread_name cb interval (Ok tt) w in
  r = Ok (negb (busy thread_name w)) ∧
  ThreadManager.is_thread_running thread_name w' = true ∧
  if busy thread_name w then
    length (ThreadManager.threads w') = length (ThreadManager.threads w) ∧
    ThreadManager._threads w' = ThreadManager._threads w
  else
    ThreadManager._threads w' !! thread_name = Some (length (ThreadManager.threads w)) ∧
    ThreadManager.threads w' !! length (ThreadManager.threads w) =
      Some (ThreadManager.new_thread thread_name cb interval
              (length (ThreadManager.events w)) true) ∧
    ThreadManager.is_set w' (length (ThreadManager.events w)) = false ∧
    ∀ tid, (tid < length (ThreadManager.threads w))%nat →
           ThreadManager._threads w !! thread_name = Some tid →
           ThreadManager.alive_at w' tid = false.
Proof.
  intros Hreach Hfuel.
  pose proof (reachable_consistent _ Hreach) as Hcons.
  unfold ThreadManagerOps.restart_thread, busy.
  destruct (ThreadManager._threads w !! thread_name) as [tid|] eqn:Hreg.
  2:{ (* never started *)
    unfold ThreadManager.stop_thread. rewrite Hreg.
    pose proof (start_when_free
                  (ThreadManager.print
                     ("[ThreadManager] Thread '" +:+ thread_name +:+ "' not found.") w)
                  cb interval thread_name) as Hstart.
    destruct (ThreadManager.start_data_collection_thread _ _ _ _ _) as [w' r].
    destruct Hstart as (-> & ? & ? & ? & ? & _).
    { unfold ThreadManager.is_thread_running. simpl. by rewrite Hreg. }
    repeat split; done. }
  destruct Hcons as [Hlive Hexists Hevent].
  destruct (Hexists _ _ Hreg) as (th & Hth & _ & Hev). rewrite Hth.
  pose proof (lookup_lt_Some _ _ _ Hth) as Htid.
  destruct (ThreadManager.is_alive th) eqn:Halive; simpl.
  2:{ (* registered, no longer alive *)
    unfold ThreadManager.stop_thread, ThreadManager.alive_at.
    rewrite Hreg, Hth, Halive. simpl.
    pose proof (start_when_free
                  (ThreadManager.print
                     ("[ThreadManager] Thread '" +:+ thread_name +:+ "' is not running.") w)
                  cb interval thread_name) as Hstart.
    destruct (ThreadManager.start_data_collection_thread _ _ _ _ _) as [w' r].
    destruct Hstart as (-> & ? & ? & ? & ? & Hold).
    { unfold ThreadManager.is_thread_running, ThreadManager.alive_at. simpl.
      by rewrite Hreg, Hth. }
    repeat split; try done.
    intros tid' Hlt [= ->]. unfold ThreadManager.alive_at.
    simpl in Hold. by rewrite Hold, Hth. }
  pose proof (stop_thread_live w fuel thread_name ThreadManagerOps.default_timeout tid th
                (Build_consistent _ Hlive Hexists Hevent) Hreg Hth Halive) as Hstop.
  pose proof (joined_under_stop fuel ThreadManagerOps.default_timeout th
                Hfuel Halive) as [Hin Hout].
  destruct (ThreadManager.joined fuel true _ th) as [th' printed]. simpl in Hin, Hout.
  rewrite Hstop. unfold ThreadManagerOps.default_timeout in *.
  destruct (Z.ltb_spec 5 (remaining th)) as [Hlong|Hshort].
  - (* the old worker is busy *)
    destruct (Hout (or_intror Hlong)) as [Halive' _]. rewrite Halive'.
    unfold ThreadManager.start_data_collection_thread.
    replace (ThreadManager.is_thread_running thread_name _) with true
      by (unfold ThreadManager.is_thread_running, ThreadManager.alive_at; simpl;
          by rewrite Hreg, list_lookup_insert_eq).
    simpl. split; [done|]. split.
    + unfold ThreadManager.is_thread_running, ThreadManager.alive_at. simpl.
      by rewrite Hreg, list_lookup_insert_eq.
    + by rewrite length_insert.
  - (* the old worker is gone in time *)
    destruct (Hin ltac:(lia) Hshort) as [Hdead _]. rewrite Hdead.
    match goal with
    | |- context [ThreadManager.start_data_collection_thread _ _ _ _ ?w1] =>
        pose proof (start_when_free w1 cb interval thread_name) as Hstart
    end.
    destruct (ThreadManager.start_data_collection_thread _ _ _ _ _) as [w' r].
    simpl in Hstart. rewrite !length_insert in Hstart.
    destruct Hstart as (-> & ? & ? & ? & ? & Hold).
    { unfold ThreadManager.is_thread_running, ThreadManager.alive_at. simpl.
      by rewrite Hreg, list_lookup_insert_eq. }
    repeat split; try done.
    intros tid' Hlt [= ->]. unfold ThreadManager.alive_at.
    by rewrite Hold, list_lookup_insert_eq.
Qed.

Lemma restart_thread_outcome_witness :
  (ThreadManagerOps.restart_thread 3 "m" one_tick_callback 2 (Ok tt)
     (inside_first_call slow_callback)).2 = Ok false ∧
  (ThreadManagerOps.restart_thread 3 "m" one_tick_callback 2 (Ok tt)
     (inside_first_call one_tick_callback)).2 = Ok true.
Proof.
  split.
  - pose proof (restart_thread_outcome (inside_first_call slow_callback) 3 "m"
                  one_tick_callback 2 (inside_first_call_reachable _) ltac:(lia)) as H.
    destruct (ThreadManagerOps.restart_thread _ _ _ _ _ _) as [w' r].
    destruct H as [-> _]. reflexivity.
  - pose proof (restart_thread_outcome (inside_first_call one_tick_callback) 3 "m"
                  one_tick_callback 2 (inside_first_call_reachable _) ltac:(lia)) as H.
    destruct (ThreadManagerOps.restart_thread _ _ _ _ _ _) as [w' r].
    destruct H as [-> _]. reflexivity.
Defined.

Section StopAllLaws.

Import ThreadManager ThreadManagerOps.

Implicit Types (w : World) (th : Thread).

(** The thread registered under [n], if it is alive, has been told to
    stop. *)
Definition told_to_stop (n : string) w : Prop :=
  ∀ tid th, _threads w !! n = Some tid → threads w !! tid = Some th →
            is_alive th = true → events w !! stop_event th = Some true.

Lemma told_acted n w tid0 th0 th' out :
  threads w !! tid0 = Some th0 → same_thread th0 th' →
  (is_alive th' = true → is_alive th0 = true) →
  told_to_stop n w →
  told_to_stop n {| _threads := _threads w; _stop_events := _stop_events w;
                    threads := <[tid0 := th']> (threads w); events := events w;
                    stdout := out |}.
Proof.
  intros Hth0 (_ & Hev & _) Halive Htold tid th. simpl. intros Hreg.
  destruct (decide (tid = tid0)) as [->|Hne].
  - rewrite list_lookup_insert_eq by by eapply lookup_lt_Some.
    intros [= <-] Ha. rewrite Hev. eapply Htold; eauto.
  - rewrite list_lookup_insert_ne by done. by apply Htold.
Qed.

Lemma told_advance n fuel tid t w :
  told_to_stop n w → told_to_stop n (advance fuel tid t w).
Proof.
  intros Htold. unfold advance.
  destruct (threads w !! tid) as [th|] eqn:Hth; [|done].
  pose proof (run_same fuel (is_set w (stop_event th)) (Z.max 0 t) th) as Hsame.
  pose proof (run_alive fuel (is_set w (stop_event th)) (Z.max 0 t) th) as Halive.
  destruct (run fuel _ _ th) as [th' printed]. by eapply told_acted.
Qed.

Lemma told_join n fuel tid timeout w :
  told_to_stop n w → told_to_stop n (join fuel tid timeout w).
Proof.
  intros Htold. unfold join.
  destruct (threads w !! tid) as [th|] eqn:Hth; [|done].
  pose proof (joined_same fuel (is_set w (stop_event th)) timeout th) as Hsame.
  pose proof (joined_alive fuel (is_set w (stop_event th)) timeout th) as Halive.
  destruct (joined fuel _ _ th) as [th' printed]. by eapply told_acted.
Qed.

Lemma told_set_event n eid w : told_to_stop n w → told_to_stop n (set_event eid w).
Proof.
  intros Htold tid th Hreg Hth Ha. simpl in *.
  pose proof (Htold _ _ Hreg Hth Ha) as Hev.
  destruct (decide (eid = stop_event th)) as [->|Hne].
  - rewrite list_lookup_insert_eq; [done|by eapply lookup_lt_Some].
  - by rewrite list_lookup_insert_ne.
Qed.

(** A stop request for one name takes nothing back from another. *)
Lemma told_stop_other n fuel n' timeout w :
  told_to_stop n w → told_to_stop n (stop_thread fuel n' timeout w).1.
Proof.
  intros Htold. unfold stop_thread.
  destruct (_threads w !! n') as [tid|]; [|done].
  destruct (alive_at w tid); simpl; [|done].
  assert (told_to_stop n
            (join fuel tid timeout
               match _stop_events w !! n' with
               | Some eid => set_event eid w
               | None => w
               end)).
  { apply told_join. destruct (_stop_events w !! n'); [|done].
    by apply told_set_event. }
  by destruct (alive_at _ tid).
Qed.

(** After [stop_thread] the thread of that name is dead or told to stop. *)
Lemma told_stop_self fuel n timeout w :
  consistent w → told_to_stop n (stop_thread fuel n timeout w).1.
Proof.
  intros Hcons.
  destruct (_threads w !! n) as [tid|] eqn:Hn.
  2:{ unfold stop_thread. rewrite Hn. intros tid th. simpl. by rewrite Hn. }
  destruct (alive_at w tid) eqn:Ha.
  2:{ unfold stop_thread. rewrite Hn, Ha. intros tid' th. simpl.
      rewrite Hn. intros [= <-] Hth Halive.
      unfold alive_at in Ha. by rewrite Hth, Halive in Ha. }
  unfold alive_at in Ha. destruct (threads w !! tid) as [th|] eqn:Hth; [|done].
  pose proof (stop_thread_live w fuel n timeout tid th Hcons Hn Hth Ha) as Hstop.
  pose proof (joined_same fuel true timeout th) as (_ & Hev & _).
  destruct (joined fuel true timeout th) as [th' printed]. simpl in Hev.
  rewrite Hstop. intros tid' th''. simpl. rewrite Hn. intros [= <-].
  rewrite list_lookup_insert_eq by by eapply lookup_lt_Some.
  intros [= <-] _.
  rewrite list_lookup_insert_eq; [done|].
  rewrite Hev. by eapply (event_exists w Hcons).
Qed.

Lemma told_elapse n fuel others w :
  told_to_stop n w → told_to_stop n (elapse fuel others w).
Proof.
  unfold elapse. revert w.
  induction others as [|[tid t] others IH]; intros w Htold; [done|].
  simpl. by apply IH, told_advance.
Qed.

Lemma elapse_consistent fuel others w : consistent w → consistent (elapse fuel others w).
Proof.
  unfold elapse. revert w.
  induction others as [|[tid t] others IH]; intros w Hw; [done|].
  simpl. by apply IH, advance_consistent.
Qed.

(** Neither a stop nor the passing of time registers or removes a name. *)
Lemma stop_thread_registry fuel n timeout w :
  _threads (stop_thread fuel n timeout w).1 = _threads w.
Proof.
  unfold stop_thread. destruct (_threads w !! n) as [tid|]; [|done].
  destruct (alive_at w tid); simpl; [|done].
  assert (Hj : ∀ w1, _threads w1 = _threads w →
                     _threads (join fuel tid timeout w1) = _threads w).
  { intros w1 Hw1. unfold join. destruct (threads w1 !! tid); [|done].
    by destruct (joined _ _ _ _). }
  destruct (alive_at _ tid); simpl; apply Hj; by destruct (_stop_events w !! n).
Qed.

Lemma elapse_registry fuel others w : _threads (elapse fuel others w) = _threads w.
Proof.
  unfold elapse. revert w.
  induction others as [|[tid t] others IH]; intros w; [done|].
  simpl. rewrite IH. unfold advance. destruct (threads w !! tid); [|done].
  by destruct (run _ _ _ _).
Qed.

Lemma stop_all_threads_registry fuel timeout names w :
  _threads (stop_all_threads fuel timeout names w) = _threads w.
Proof.
  unfold stop_all_threads. revert w.
  induction names as [|[a others] names IH]; intros w; [done|].
  simpl. by rewrite IH, elapse_registry, stop_thread_registry.
Qed.

(** Every name the loop has gone through is dead or told to stop at the
    end, whatever the workers did meanwhile. *)
Lemma stop_all_threads_told fuel timeout names :
  ∀ w, consistent w →
  ∀ n, n ∈ names.*1 ∨ told_to_stop n w →
       told_to_stop n (stop_all_threads fuel timeout names w).
Proof.
  unfold stop_all_threads.
  induction names as [|[a others] names IH]; intros w Hw n Hn; simpl.
  - destruct Hn as [Hn|Hn]; [by apply elem_of_nil in Hn|done].
  - apply IH; [by apply elapse_consistent, stop_consistent|].
    destruct Hn as [Hn|Hn].
    + simpl in Hn. apply elem_of_cons in Hn as [->|Hn]; [|by left].
      right. by apply told_elapse, told_stop_self.
    + right. by apply told_elapse, told_stop_other.
Qed.

End StopAllLaws.

(** [stop_all_threads] tells every running worker to stop, in whatever
    order the dictionary lists the names and whatever the workers do while
    the caller goes through them: afterwards each registered task that is
    still running has its stop event set, enters no further invocation of
    its callback, and is gone as soon as the invocation under way is
    over. *)
Theorem stop_all_threads_signals_every_worker
    (w : ThreadManager.World) (fuel : nat) (timeout : Z)
    (thread_names : list (string * list (nat * Z))) :
  ThreadManager.reachable w →
  ThreadManagerOps.lists_keys thread_names.*1 w →
  let w' := ThreadManagerOps.stop_all_threads fuel timeout thread_names w in
  ∀ n tid th,
    ThreadManager._threads w' !! n = Some tid →
    ThreadManager.threads w' !! tid = Some th →
    ThreadManager.is_alive th = true →
    ThreadManager.is_set w' (ThreadManager.stop_event th) = true ∧
    (∀ w2, rtc ThreadManager.step w' w2 →
       ∃ th2, ThreadManager.threads w2 !! tid = Some th2 ∧
              ThreadManager.calls th2 = ThreadManager.calls th ∧
              ThreadManager.begins th2 = ThreadManager.begins th) ∧
    (∀ fuel' t, (3 ≤ fuel')%nat → remaining th ≤ t →
       ThreadManager.alive_at (ThreadManager.advance fuel' tid t w') tid = false).
Proof.
  intros Hreach Hkeys w' n tid th Hreg Hth Halive.
  assert (Hset : ThreadManager.events w' !! ThreadManager.stop_event th = Some true).
  { apply (stop_all_threads_told fuel timeout thread_names w
             (reachable_consistent _ Hreach) n) with tid; try done.
    left. apply Hkeys. unfold w' in Hreg.
    rewrite stop_all_threads_registry in Hreg. by rewrite Hreg. }
  assert (Hflag : ThreadManager.is_set w' (ThreadManager.stop_event th) = true)
    by (unfold ThreadManager.is_set; by rewrite Hset).
  split; [done|]. split.
  - intros w2 Hlater.
    assert (Hfinal : signalled_at w2 tid (ThreadManager.stop_event th)
                       (ThreadManager.calls th) (ThreadManager.begins th)).
    { apply (signalled_later w' w2); [done|]. split; [done|by exists th]. }
    destruct Hfinal as (_ & th2 & ? & _ & ? & ?). eauto.
  - intros fuel' t Hfuel' Ht.
    unfold ThreadManager.advance, ThreadManager.alive_at. rewrite Hth, Hflag.
    assert (Hrem : 0 ≤ remaining th).
    { unfold remaining. destruct (ThreadManager.at_pc th); lia. }
    pose proof (run_under_stop fuel' (Z.max 0 t) th Hfuel' Halive ltac:(lia)) as [Hin _].
    destruct (ThreadManager.run fuel' true (Z.max 0 t) th) as [th2 printed].
    simpl in *. rewrite list_lookup_insert_eq by by eapply lookup_lt_Some.
    apply Hin. lia.
Qed.

(** A manager with two workers, each inside its first invocation: "m" in
    one of a hundred ticks, "aux" in one of a tick. *)
Definition two_workers : ThreadManager.World :=
  ThreadManager.advance 5 1 0
    (ThreadManager.start_data_collection_thread one_tick_callback 2 "aux" (Ok tt)
       (inside_first_call slow_callback)).1.

(** "aux" is stopped first, and "m" runs for five ticks meanwhile. *)
Lemma stop_all_threads_signals_every_worker_witness :
  let w' := ThreadManagerOps.stop_all_threads 3 5 [("aux", [(0%nat, 5)]); ("m", [])]
              two_workers in
  ThreadManager.is_thread_running "aux" w' = false ∧
  ThreadManager.is_thread_running "m" w' = true ∧
  ThreadManager.is_set w' 0 = true ∧
  ThreadManager.alive_at (ThreadManager.advance 3 0 90 w') 0 = false.
Proof.
  intros w'. split; [reflexivity|]. split; [reflexivity|].
  assert (Hreach : ThreadManager.reachable two_workers).
  { unfold ThreadManager.reachable.
    eapply rtc_r; [eapply rtc_r; [apply inside_first_call_reachable|]|].
    - apply ThreadManager.step_start.
    - apply ThreadManager.step_time. }
  assert (Hkeys : ThreadManagerOps.lists_keys
                    [("aux", [(0%nat, 5)]); ("m", [])].*1 two_workers).
  { intros n. simpl. rewrite !elem_of_cons, elem_of_nil. split.
    - intros [->|[->|[]]]; by eexists.
    - intros [tid Hn].
      destruct (decide (n = "aux")) as [->|Haux]; [by left|].
      destruct (decide (n = "m")) as [->|Hm]; [by right; left|].
      exfalso.
      assert (Hmap : ThreadManager._threads two_workers
                     = <["aux" := 1%nat]> (<["m" := 0%nat]> ∅)) by reflexivity.
      rewrite Hmap in Hn.
      by rewrite !lookup_insert_ne, lookup_empty in Hn by done. }
  destruct (stop_all_threads_signals_every_worker two_workers 3 5
              [("aux", [(0%nat, 5)]); ("m", [])] Hreach Hkeys "m" 0
              {| ThreadManager.name := "m";
                 ThreadManager.target_callback := slow_callback;
                 ThreadManager.target_interval := 2;
                 ThreadManager.stop_event := 0;
                 ThreadManager.started := true;
                 ThreadManager.at_pc := ThreadManager.InCallback 90 ThreadManager.Returns;
                 ThreadManager.calls := 1;
                 ThreadManager.clock := 10;
                 ThreadManager.begins := [0] |}
              eq_refl eq_refl eq_refl) as (Hset & _ & Hgone).
  split; [exact Hset|].
  apply Hgone; [lia|]. unfold remaining. simpl. lia.
Defined.

(* ===================================================================== *)
(** ** [controller/app_controller.py]: starting and stopping the monitor *)
(* ===================================================================== *)

Module Monitoring.

Import ThreadManager.

(** The controller together with the thread manager it owns
    ([self._thread_manager]). *)
Record t := { controller : AppController.t; manager : World }.

(** A [print] of the controller. *)
Definition say (line : string) (c : AppController.t) : AppController.t :=
  {| AppController._system_data := AppController._system_data c;
     AppController._metrics_history := AppController._metrics_history c;
     AppController._current_metrics := AppController._current_metrics c;
     AppController._is_monitoring := AppController._is_monitoring c;
     AppController._view_callback := AppController._view_callback c;
     AppController.out := AppController.out c ++ [AppController.Print line] |}.

(** [self._is_monitoring = b]. *)
Definition set_monitoring (b : bool) (c : AppController.t) : AppController.t :=
  {| AppController._system_data := AppController._system_data c;
     AppController._metrics_history := AppController._metrics_history c;
     AppController._current_metrics := AppController._current_metrics c;
     AppController._is_monitoring := b;
     AppController._view_callback := AppController._view_callback c;
     AppController.out := AppController.out c |}.

(** The name and the interval ([UPDATE_INTERVAL], in seconds) the
    controller passes to the thread manager. *)
Definition monitor_name : string := "system_monitor".
Definition monitor_interval : Z := 2.

(** [start_monitoring]. [cb] is what the invocations of
    [self.update_metrics] do in time; the second component is the exception
    that leaves the method, if any. *)
Definition start_monitoring (cb : callback) (os_start : result unit) (m : t)
  : t * option exn :=
  if AppController._is_monitoring (controller m) then
    ({| controller := say "[AppController] Monitoring already active." (controller m);
        manager := manager m |}, None)
  else
    match start_data_collection_thread cb monitor_interval monitor_name os_start (manager m) with
    | (w', Ok true) =>
        ({| controller := say "[AppController] Monitoring started."
                            (set_monitoring true (controller m));
            manager := w' |}, None)
    | (w', Ok false) => ({| controller := controller m; manager := w' |}, None)
    | (w', Raise e) => ({| controller := controller m; manager := w' |}, Some e)
    end.

(** [stop_monitoring]: the result of [stop_thread] is dropped. *)
Definition stop_monitoring (fuel : nat) (m : t) : t :=
  if negb (AppController._is_monitoring (controller m)) then
    {| controller := say "[AppController] Monitoring is not active." (controller m);
       manager := manager m |}
  else
    let '(w', _) := stop_thread fuel monitor_name ThreadManagerOps.default_timeout (manager m) in
    {| controller := say "[AppController] Monitoring stopped."
                       (set_monitoring false (controller m));
       manager := w' |}.

(** [is_monitoring]. *)
Definition is_monitoring (m : t) : bool := AppController._is_monitoring (controller m).

(** [cleanup]. [thread_names] is the listing of the registered names that
    [stop_all_threads] iterates over, with what the workers do
    meanwhile. *)
Definition cleanup (fuel : nat) (thread_names : list (string * list (nat * Z))) (m : t) : t :=
  let m1 := {| controller := say "[AppController] Cleaning up..." (controller m);
               manager := manager m |} in
  let m2 := stop_monitoring fuel m1 in
  let w3 := ThreadManagerOps.stop_all_threads fuel ThreadManagerOps.default_timeout
              thread_names (manager m2) in
  {| controller := say "[AppController] Cleanup complete." (controller m2);
     manager := w3 |}.

(** What can happen to a controller: its methods are called, its worker
    runs a collection cycle, time passes for a worker. *)
Inductive step : t -> t -> Prop :=
| step_start cb os_start m : step m (start_monitoring cb os_start m).1
| step_stop fuel m : step m (stop_monitoring fuel m)
| step_cleanup fuel thread_names m : step m (cleanup fuel thread_names m)
| step_update env now_iso m :
    step m {| controller := (AppController.update_metrics (controller m) env now_iso).1;
              manager := manager m |}
| step_view cb m :
    step m {| controller := AppController.set_view_callback (controller m) cb;
              manager := manager m |}
| step_time fuel tid ticks m :
    step m {| controller := controller m; manager := advance fuel tid ticks (manager m) |}.

(** The states of a controller that starts out not monitoring, with a new
    thread manager. *)
Definition reachable (m : t) : Prop :=
  ∃ c0, AppController._is_monitoring c0 = false ∧
        rtc step {| controller := c0; manager := init |} m.

End Monitoring.

Section MonitoringFacts.

Import ThreadManager ThreadManagerOps Monitoring.

Implicit Types (w : World) (m : Monitoring.t).

(** Every thread of the manager carries the name [n]. *)
Definition all_named (n : string) w : Prop :=
  ∀ tid th, threads w !! tid = Some th → name th = n.

Lemma advance_all_named n fuel tid t w : all_named n w → all_named n (advance fuel tid t w).
Proof.
  intros Hall. unfold advance.
  destruct (threads w !! tid) as [th|] eqn:Hth; [|done].
  pose proof (run_same fuel (is_set w (stop_event th)) (Z.max 0 t) th) as [Hname _].
  destruct (run fuel _ _ th) as [th' printed]. simpl in *.
  intros tid' th''. simpl. destruct (decide (tid' = tid)) as [->|Hne].
  - rewrite list_lookup_insert_eq by by eapply lookup_lt_Some.
    intros [= <-]. rewrite Hname. eauto.
  - rewrite list_lookup_insert_ne by done. eauto.
Qed.

Lemma join_all_named n fuel tid timeout w : all_named n w → all_named n (join fuel tid timeout w).
Proof.
  intros Hall. unfold join.
  destruct (threads w !! tid) as [th|] eqn:Hth; [|done].
  pose proof (joined_same fuel (is_set w (stop_event th)) timeout th) as [Hname _].
  destruct (joined fuel _ _ th) as [th' printed]. simpl in *.
  intros tid' th''. simpl. destruct (decide (tid' = tid)) as [->|Hne].
  - rewrite list_lookup_insert_eq by by eapply lookup_lt_Some.
    intros [= <-]. rewrite Hname. eauto.
  - rewrite list_lookup_insert_ne by done. eauto.
Qed.

Lemma stop_thread_all_named n fuel n' timeout w :
  all_named n w → all_named n (stop_thread fuel n' timeout w).1.
Proof.
  intros Hall. unfold stop_thread.
  destruct (_threads w !! n') as [tid|]; [|done].
  destruct (alive_at w tid); simpl; [|done].
  assert (all_named n
            (join fuel tid timeout
               match _stop_events w !! n' with
               | Some eid => set_event eid w
               | None => w
               end)).
  { apply join_all_named. by destruct (_stop_events w !! n'). }
  by destruct (alive_at _ tid).
Qed.

Lemma start_all_named n cb interval os_start w :
  all_named n w → all_named n (start_data_collection_thread cb interval n os_start w).1.
Proof.
  intros Hall. unfold start_data_collection_thread.
  destruct (is_thread_running n w); [done|].
  assert (all_named n
            {| _threads := <[n := length (threads w)]> (_threads w);
               _stop_events := <[n := length (events w)]> (_stop_events w);
               threads := threads w ++
                 [new_thread n cb interval (length (events w)) (negb (raises os_start))];
               events := events w ++ [false]; stdout := stdout w |}).
  { intros tid th. simpl. intros [Hold|[_ Hnew]]%lookup_app_Some; [eauto|].
    apply list_lookup_singleton_Some in Hnew as [_ <-]. done. }
  by destruct os_start.
Qed.

Lemma elapse_all_named n fuel others w :
  all_named n w → all_named n (elapse fuel others w).
Proof.
  unfold elapse. revert w.
  induction others as [|[tid t] others IH]; intros w Hall; [done|].
  simpl. by apply IH, advance_all_named.
Qed.

Lemma stop_all_threads_all_named n fuel timeout names w :
  all_named n w → all_named n (stop_all_threads fuel timeout names w).
Proof.
  unfold stop_all_threads. revert w.
  induction names as [|[a others] names IH]; intros w Hall; [done|].
  simpl. by apply IH, elapse_all_named, stop_thread_all_named.
Qed.

Lemma elapse_reachable fuel others w :
  ThreadManager.reachable w → ThreadManager.reachable (elapse fuel others w).
Proof.
  unfold elapse, ThreadManager.reachable. revert w.
  induction others as [|[tid t] others IH]; intros w Hw; [done|].
  simpl. apply IH. eapply rtc_r; [done|apply ThreadManager.step_time].
Qed.

Lemma stop_all_threads_reachable fuel timeout names w :
  ThreadManager.reachable w →
  ThreadManager.reachable (stop_all_threads fuel timeout names w).
Proof.
  unfold stop_all_threads. revert w.
  induction names as [|[a others] names IH]; intros w Hw; [done|].
  simpl. apply IH, elapse_reachable.
  eapply rtc_r; [done|apply ThreadManager.step_stop].
Qed.

(** What no call on the controller ever breaks. *)
Definition one_monitor m : Prop :=
  ThreadManager.reachable (manager m) ∧ all_named monitor_name (manager m).

Lemma stop_monitoring_one_monitor fuel m : one_monitor m → one_monitor (stop_monitoring fuel m).
Proof.
  intros [Hreach Hall]. unfold stop_monitoring.
  destruct (negb _); [done|].
  pose proof (stop_thread_all_named monitor_name fuel monitor_name default_timeout _ Hall) as Hall'.
  assert (Hreach' : ThreadManager.reachable
                      (stop_thread fuel monitor_name default_timeout (manager m)).1)
    by (eapply rtc_r; [done|apply ThreadManager.step_stop]).
  by destruct (stop_thread fuel monitor_name default_timeout (manager m)).
Qed.

Lemma step_one_monitor m m' : Monitoring.step m m' → one_monitor m → one_monitor m'.
Proof.
  intros Hstep [Hreach Hall]. destruct Hstep as [cb os m|fuel m|fuel names m| | |fuel tid t m].
  - unfold start_monitoring. destruct (AppController._is_monitoring _); [done|].
    pose proof (start_all_named monitor_name cb monitor_interval os _ Hall) as Hall'.
    assert (Hreach' : ThreadManager.reachable
              (start_data_collection_thread cb monitor_interval monitor_name os (manager m)).1)
      by (eapply rtc_r; [done|apply ThreadManager.step_start]).
    by destruct (start_data_collection_thread _ _ _ _ _) as [w' [[]|e]].
  - by apply stop_monitoring_one_monitor.
  - unfold cleanup.
    pose proof (stop_monitoring_one_monitor fuel
                  {| controller := say "[AppController] Cleaning up..." (controller m);
                     manager := manager m |} (conj Hreach Hall)) as [Hr Ha].
    split; simpl.
    + by apply stop_all_threads_reachable.
    + by apply stop_all_threads_all_named.
  - done.
  - done.
  - split; simpl.
    + eapply rtc_r; [done|apply ThreadManager.step_time].
    + by apply advance_all_named.
Qed.

End MonitoringFacts.

(** However [start_monitoring], [stop_monitoring] and [cleanup] are called
    and however long the collection cycles take, the controller never has
    two live collection workers: every thread its manager has created is
    the one named "system_monitor", and at most one of them is alive. *)
Theorem controller_runs_one_worker (m : Monitoring.t) :
  Monitoring.reachable m →
  ∀ i j thi thj,
    ThreadManager.threads (Monitoring.manager m) !! i = Some thi →
    ThreadManager.threads (Monitoring.manager m) !! j = Some thj →
    ThreadManager.is_alive thi = true → ThreadManager.is_alive thj = true →
    i = j ∧ ThreadManager.name thi = "system_monitor".
Proof.
  intros (c0 & _ & Hsteps).
  assert (Hinv : one_monitor m).
  { assert (Hinit : one_monitor {| Monitoring.controller := c0;
                                   Monitoring.manager := ThreadManager.init |}).
    { split; [apply rtc_refl|]. intros tid th. simpl. by rewrite lookup_nil. }
    revert Hinit. induction Hsteps; eauto using step_one_monitor. }
  destruct Hinv as [Hreach Hall].
  intros i j thi thj Hi Hj Hai Haj. split; [|by eapply Hall].
  eapply (consistent_one_active _ (reachable_consistent _ Hreach)); eauto.
  by rewrite (Hall _ _ Hi), (Hall _ _ Hj).
Qed.

(** [stop_monitoring] always ends with [is_monitoring() = False]. If the
    cycle under way is over within five seconds the worker is gone and a
    later [start_monitoring] starts a new one. If it is not, the worker is
    still running, and a later [start_monitoring] creates no thread and
    leaves [is_monitoring()] at [False]. *)
Theorem stop_monitoring_then_start
    (m : Monitoring.t) (fuel : nat) (tid : nat) (th : ThreadManager.Thread)
    (cb : ThreadManager.callback) :
  ThreadManager.reachable (Monitoring.manager m) →
  (3 ≤ fuel)%nat →
  Monitoring.is_monitoring m = true →
  ThreadManager._threads (Monitoring.manager m) !! Monitoring.monitor_name = Some tid →
  ThreadManager.threads (Monitoring.manager m) !! tid = Some th →
  ThreadManager.is_alive th = true →
  let m1 := Monitoring.stop_monitoring fuel m in
  let m2 := (Monitoring.start_monitoring cb (Ok tt) m1).1 in
  Monitoring.is_monitoring m1 = false ∧
  (Monitoring.start_monitoring cb (Ok tt) m1).2 = None ∧
  ThreadManager.is_thread_running Monitoring.monitor_name (Monitoring.manager m2) = true ∧
  if 5 <? remaining th then
    ThreadManager.is_thread_running Monitoring.monitor_name (Monitoring.manager m1) = true ∧
    Monitoring.is_monitoring m2 = false ∧
    ThreadManager.threads (Monitoring.manager m2) = ThreadManager.threads (Monitoring.manager m1)
  else
    ThreadManager.is_thread_running Monitoring.monitor_name (Monitoring.manager m1) = false ∧
    Monitoring.is_monitoring m2 = true ∧
    ThreadManager._threads (Monitoring.manager m2) !! Monitoring.monitor_name
      = Some (length (ThreadManager.threads (Monitoring.manager m))).
Proof.
  intros Hreach Hfuel Hflag Hreg Hth Halive. cbv zeta.
  pose proof (reachable_consistent _ Hreach) as Hcons.
  unfold Monitoring.is_monitoring in Hflag.
  unfold Monitoring.stop_monitoring. rewrite Hflag. simpl negb. cbv iota.
  pose proof (stop_thread_live _ fuel Monitoring.monitor_name ThreadManagerOps.default_timeout
                tid th Hcons Hreg Hth Halive) as Hstop.
  pose proof (joined_under_stop fuel ThreadManagerOps.default_timeout th
                Hfuel Halive) as [Hin Hout].
  destruct (ThreadManager.joined fuel true _ th) as [th' printed]. simpl in Hin, Hout.
  rewrite Hstop. unfold ThreadManagerOps.default_timeout in Hin, Hout.
  pose proof (lookup_lt_Some _ _ _ Hth) as Htid.
  unfold Monitoring.start_monitoring, Monitoring.is_monitoring. simpl.
  destruct (Z.ltb_spec 5 (remaining th)) as [Hlong|Hshort].
  - destruct (Hout (or_intror Hlong)) as [Halive' _]. rewrite Halive'.
    assert (Hrun : ∀ line,
      ThreadManager.is_thread_running Monitoring.monitor_name
        (stopped_world (Monitoring.manager m) tid th' printed line) = true).
    { intros line. unfold ThreadManager.is_thread_running, ThreadManager.alive_at. simpl.
      by rewrite Hreg, list_lookup_insert_eq. }
    unfold ThreadManager.start_data_collection_thread. rewrite Hrun. simpl.
    repeat split; try done; apply Hrun.
  - destruct (Hin ltac:(lia) Hshort) as [Hdead _]. rewrite Hdead.
    assert (Hfree : ∀ line,
      ThreadManager.is_thread_running Monitoring.monitor_name
        (stopped_world (Monitoring.manager m) tid th' printed line) = false).
    { intros line. unfold ThreadManager.is_thread_running, ThreadManager.alive_at. simpl.
      by rewrite Hreg, list_lookup_insert_eq. }
    match goal with
    | |- context [ThreadManager.start_data_collection_thread _ _ _ _ ?w1] =>
        pose proof (start_when_free w1 cb Monitoring.monitor_interval
                      Monitoring.monitor_name (Hfree _)) as Hstart
    end.
    destruct (ThreadManager.start_data_collection_thread _ _ _ _ _) as [w' r].
    simpl in Hstart. rewrite !length_insert in Hstart.
    destruct Hstart as (-> & ? & ? & ? & ? & _). simpl.
    repeat split; try done; apply Hfree.
Qed.

(** A controller that has just been built, with its thread manager. *)
Definition idle_monitor : Monitoring.t :=
  {| Monitoring.controller :=
       {| AppController._system_data :=
            {| SystemData._last_net_io := None; SystemData._last_net_time := 0%Q |};
          AppController._metrics_history := Deque.Mk 1800 [];
          AppController._current_metrics := None;
          AppController._is_monitoring := false;
          AppController._view_callback := None;
          AppController.out := [] |};
     Monitoring.manager := ThreadManager.init |}.

(** The controller monitoring, its worker inside the first cycle. *)
Definition monitoring_with (cb : ThreadManager.callback) : Monitoring.t :=
  let m := (Monitoring.start_monitoring cb (Ok tt) idle_monitor).1 in
  {| Monitoring.controller := Monitoring.controller m;
     Monitoring.manager := ThreadManager.advance 5 0 0 (Monitoring.manager m) |}.

Lemma monitoring_with_reachable cb : Monitoring.reachable (monitoring_with cb).
Proof.
  exists (Monitoring.controller idle_monitor). split; [reflexivity|].
  eapply rtc_l; [apply (Monitoring.step_start cb (Ok tt))|].
  apply rtc_once. apply (Monitoring.step_time 5 0 0).
Qed.

Lemma controller_runs_one_worker_witness :
  let m := (Monitoring.start_monitoring one_tick_callback (Ok tt)
              (Monitoring.stop_monitoring 3 (monitoring_with one_tick_callback))).1 in
  length (ThreadManager.threads (Monitoring.manager m)) = 2%nat ∧
  ThreadManager.alive_at (Monitoring.manager m) 0 = false ∧
  ThreadManager.alive_at (Monitoring.manager m) 1 = true.
Proof.
  intros m. split; [reflexivity|].
  assert (Hreach : Monitoring.reachable m).
  { destruct (monitoring_with_reachable one_tick_callback) as (c0 & Hc0 & Hsteps).
    exists c0. split; [done|].
    eapply rtc_r; [eapply rtc_r; [exact Hsteps|]|].
    - apply (Monitoring.step_stop 3).
    - apply (Monitoring.step_start one_tick_callback (Ok tt)). }
  split; [|reflexivity].
  destruct (ThreadManager.threads (Monitoring.manager m) !! 0%nat) as [th0|] eqn:H0;
    [|reflexivity].
  unfold ThreadManager.alive_at. rewrite H0.
  destruct (ThreadManager.is_alive th0) eqn:Ha; [|reflexivity].
  destruct (controller_runs_one_worker m Hreach 0 1 th0
              (ThreadManager.new_thread "system_monitor" one_tick_callback 2 1 true)
              H0 eq_refl Ha eq_refl) as [Heq _].
  discriminate Heq.
Defined.

Lemma stop_monitoring_then_start_witness :
  let m := monitoring_with slow_callback in
  let m1 := Monitoring.stop_monitoring 3 m in
  let m2 := (Monitoring.start_monitoring one_tick_callback (Ok tt) m1).1 in
  Monitoring.is_monitoring m1 = false ∧
  ThreadManager.is_thread_running "system_monitor" (Monitoring.manager m1) = true ∧
  Monitoring.is_monitoring m2 = false.
Proof.
  intros m m1 m2.
  assert (Hreach : ThreadManager.reachable (Monitoring.manager m)).
  { change (Monitoring.manager m) with
      (ThreadManager.advance 5 0 0
         (ThreadManager.start_data_collection_thread slow_callback 2 "system_monitor"
            (Ok tt) ThreadManager.init).1).
    unfold ThreadManager.reachable.
    eapply rtc_l; [apply ThreadManager.step_start|].
    apply rtc_once. apply ThreadManager.step_time. }
  pose proof (stop_monitoring_then_start m 3 0
                {| ThreadManager.name := "system_monitor";
                   ThreadManager.target_callback := slow_callback;
                   ThreadManager.target_interval := 2;
                   ThreadManager.stop_event := 0;
                   ThreadManager.started := true;
                   ThreadManager.at_pc := ThreadManager.InCallback 100 ThreadManager.Returns;
                   ThreadManager.calls := 1;
                   ThreadManager.clock := 0;
                   ThreadManager.begins := [0] |}
                one_tick_callback Hreach ltac:(lia) eq_refl eq_refl eq_refl eq_refl)
    as (H1 & _ & _ & Hcase).
  split; [exact H1|].
  change (5 <? remaining _) with true in Hcase. cbv iota in Hcase.
  destruct Hcase as (Hrun & Hflag & _). split; [exact Hrun|exact Hflag].
Defined.

(* ===================================================================== *)
(** ** [model/system_data.py]: storage and network, group by group *)
(* ===================================================================== *)

Module SystemDataOps.

Import SystemData.

(** What the loop of [get_storage_metrics] appends for a partition: its
    dictionary, when the [try] block goes through. *)
Definition readable (env : Env) (p : sdiskpart) : option PartitionData :=
  match partition_data env p with
  | Ok d => Some d
  | Raise _ => None
  end.

(** The sum of an integer field over a list of dictionaries. *)
Definition total_of {A} (f : A → Z) (l : list A) : Z :=
  foldr (fun d acc => f d + acc) 0 l.

(** Successive calls of [get_network_metrics] on one instance, one per
    environment; a call that raises leaves the instance as it was, since the
    two assignments to [self] come after everything that can raise. *)
Fixpoint poll (sd : t) (envs : list Env) : list NetworkMetrics * t :=
  match envs with
  | [] => ([], sd)
  | env :: rest =>
      match get_network_metrics sd env with
      | Ok (n, sd') => let '(ns, sd'') := poll sd' rest in (n :: ns, sd'')
      | Raise _ => poll sd rest
      end
  end.

End SystemDataOps.

Section StorageFacts.

Import SystemData SystemDataOps.

Implicit Types (env : Env) (ps : list sdiskpart) (infos : list PartitionData).

Lemma total_of_cons {A} (f : A → Z) (d : A) (l : list A) :
  total_of f (d :: l) = f d + total_of f l.
Proof. reflexivity. Qed.

Lemma total_of_app {A} (f : A → Z) (l more : list A) :
  total_of f (l ++ more) = total_of f l + total_of f more.
Proof. induction l as [|d l IH]; simpl; lia. Qed.

(** The loop, when the queries of a partition raise nothing but [OSError]s:
    it appends the readable partitions in order and adds up their sizes. *)
Lemma storage_loop_skips env ps : ∀ infos used size,
  (∀ p e, p ∈ ps → partition_data env p = Raise e → isinstance e OSError = true) →
  storage_loop env ps (infos, used, size)
  = Ok (infos ++ omap (readable env) ps,
        used + total_of p_used (omap (readable env) ps),
        size + total_of p_total (omap (readable env) ps)).
Proof.
  induction ps as [|p ps IH]; intros infos used size Hos.
  - simpl. by rewrite app_nil_r, !Z.add_0_r.
  - change (omap (readable env) (p :: ps))
      with (match readable env p with
            | Some y => y :: omap (readable env) ps
            | None => omap (readable env) ps
            end).
    cbn [storage_loop].
    destruct (partition_data env p) as [d|e] eqn:Hp.
    + assert (Hr : readable env p = Some d) by (unfold readable; by rewrite Hp).
      rewrite Hr, IH by (intros p' e' Hin; apply Hos; by right).
      rewrite !total_of_cons, !Z.add_assoc, <- app_assoc. done.
    + assert (Hr : readable env p = None) by (unfold readable; by rewrite Hp).
      rewrite Hr, (Hos p e) by (done || by left). rewrite orb_true_r.
      apply IH. intros p' e' Hin. apply Hos. by right.
Qed.

(** An exception of another class leaves the loop at the first partition
    that raises it. *)
Lemma storage_loop_raises env ps1 p ps2 e acc :
  (∀ q e', q ∈ ps1 → partition_data env q = Raise e' → isinstance e' OSError = true) →
  partition_data env p = Raise e →
  isinstance e OSError = false →
  storage_loop env (ps1 ++ p :: ps2) acc = Raise e.
Proof.
  revert acc. induction ps1 as [|q ps1 IH]; intros [[infos used] size] Hos Hp He; simpl.
  - rewrite Hp. rewrite He.
    assert (Hperm : isinstance e PermissionError = false).
    { destruct e as [c s]. revert He. unfold isinstance. simpl. by destruct c. }
    by rewrite Hperm.
  - destruct (partition_data env q) as [d|e'] eqn:Hq.
    + apply IH; [|done..]. intros q' e'' Hin. apply Hos. by right.
    + rewrite (Hos q e') by (done || by left). rewrite orb_true_r.
      apply IH; [|done..]. intros q' e'' Hin. apply Hos. by right.
Qed.

End StorageFacts.

Section NetworkFacts.

Import SystemData SystemDataOps.

Implicit Types (sd : t) (env : Env) (c : snetio).

(** One call on an instance that holds counters: it answers exactly when
    psutil hands counters back, and then they replace the stored ones. *)
Lemma get_network_metrics_answer sd env c0 :
  _last_net_io sd = Some c0 →
  match get_network_metrics sd env with
  | Ok (n, sd') =>
      ∃ c, net_io_counters env = Ok (Some c) ∧
           _last_net_io sd' = Some c ∧
           bytes_sent n = io_bytes_sent c - io_bytes_sent c0 ∧
           bytes_recv n = io_bytes_recv c - io_bytes_recv c0 ∧
           total_bytes_sent n = io_bytes_sent c ∧
           total_bytes_recv n = io_bytes_recv c
  | Raise _ => True
  end.
Proof.
  intros Hlast. unfold get_network_metrics. rewrite Hlast.
  unfold mbind, result_bind, Py.bind.
  destruct (net_io_counters env) as [[c|]|e]; simpl; try done.
  exists c. by repeat split.
Qed.

Lemma poll_cons sd env envs :
  poll sd (env :: envs)
  = match get_network_metrics sd env with
    | Ok (n, sd') => ((n :: (poll sd' envs).1), (poll sd' envs).2)
    | Raise _ => poll sd envs
    end.
Proof.
  simpl. destruct (get_network_metrics sd env) as [[n sd']|e]; [|done].
  by destruct (poll sd' envs).
Qed.

End NetworkFacts.

(** [get_storage_metrics], when the queries of a partition raise
    nothing but [OSError]s ([PermissionError] is one): the call answers, it
    lists, in the order of psutil, exactly the partitions whose usage and
    fragmentation could be read, and its totals are those of the listed
    partitions: total and used are their sums, free is total minus used. *)
Theorem storage_totals_match_listing
    (env : SystemData.Env) (parts : list SystemData.sdiskpart) :
  SystemData.disk_partitions env = Ok parts →
  (∀ p e, p ∈ parts → SystemData.partition_data env p = Raise e →
          isinstance e OSError = true) →
  ∃ s, SystemData.get_storage_metrics env = Ok s ∧
       SystemData.partitions s = omap (SystemDataOps.readable env) parts ∧
       SystemData.tu_total (SystemData.total_usage s)
       = SystemDataOps.total_of SystemData.p_total (SystemData.partitions s) ∧
       SystemData.tu_used (SystemData.total_usage s)
       = SystemDataOps.total_of SystemData.p_used (SystemData.partitions s) ∧
       SystemData.tu_free (SystemData.total_usage s)
       = SystemData.tu_total (SystemData.total_usage s)
         - SystemData.tu_used (SystemData.total_usage s).
Proof.
  intros Hparts Hos. unfold SystemData.get_storage_metrics.
  rewrite Hparts. unfold mbind, result_bind, Py.bind.
  rewrite (storage_loop_skips env parts [] 0 0 Hos).
  eexists. split; [reflexivity|]. cbn. by rewrite !Z.add_0_l.
Qed.

(** An exception of another class, raised by the query of a
    partition, is not skipped: it ends [get_storage_metrics], whatever the
    partitions before it gave. *)
Theorem storage_other_exception_escapes
    (env : SystemData.Env) (before after : list SystemData.sdiskpart)
    (p : SystemData.sdiskpart) (e : exn) :
  SystemData.disk_partitions env = Ok (before ++ p :: after) →
  (∀ q e', q ∈ before → SystemData.partition_data env q = Raise e' →
           isinstance e' OSError = true) →
  SystemData.partition_data env p = Raise e →
  isinstance e OSError = false →
  SystemData.get_storage_metrics env = Raise e.
Proof.
  intros Hparts Hos Hp He. unfold SystemData.get_storage_metrics.
  rewrite Hparts. unfold mbind, result_bind, Py.bind.
  by rewrite (storage_loop_raises env before p after e _ Hos Hp He).
Qed.

(** The byte counts of successive [get_network_metrics] calls add
    up: over any run of calls, some of which may raise, the reported
    [bytes_sent] (and [bytes_recv]) sum to the growth of the counter between
    the stored reading at the start and the stored reading at the end; a
    call that raises loses nothing, the next one reports the bytes of both
    intervals. *)
Theorem network_deltas_add_up
    (sd : SystemData.t) (envs : list SystemData.Env) (c0 : SystemData.snetio) :
  SystemData._last_net_io sd = Some c0 →
  ∃ c, SystemData._last_net_io (SystemDataOps.poll sd envs).2 = Some c ∧
       SystemDataOps.total_of SystemData.bytes_sent (SystemDataOps.poll sd envs).1
       = SystemData.io_bytes_sent c - SystemData.io_bytes_sent c0 ∧
       SystemDataOps.total_of SystemData.bytes_recv (SystemDataOps.poll sd envs).1
       = SystemData.io_bytes_recv c - SystemData.io_bytes_recv c0 ∧
       from_option SystemData.total_bytes_sent (SystemData.io_bytes_sent c0)
         (last (SystemDataOps.poll sd envs).1) = SystemData.io_bytes_sent c.
Proof.
  revert sd c0. induction envs as [|env envs IH]; intros sd c0 Hlast.
  - exists c0. simpl. repeat split; try done; lia.
  - rewrite poll_cons.
    pose proof (get_network_metrics_answer sd env c0 Hlast) as Hcall.
    destruct (SystemData.get_network_metrics sd env) as [[n sd']|e]; [|by apply IH].
    destruct Hcall as (c1 & _ & Hlast' & Hs & Hr & Hts & _).
    destruct (IH sd' c1 Hlast') as (c & Hend & Hsum_s & Hsum_r & Htot).
    exists c. cbn [fst snd]. rewrite !total_of_cons, Hsum_s, Hsum_r, Hs, Hr.
    repeat split; try done; try lia.
    destruct (SystemDataOps.poll sd' envs).1 as [|n' ns] eqn:Hns.
    + simpl in *. congruence.
    + rewrite last_cons_cons.
      destruct (last (n' :: ns)) as [x|] eqn:Hl; [exact Htot|].
      by apply last_None in Hl.
Qed.

(** [get_network_metrics] answers whenever the counters can be read and a
    reading is stored, and its speeds never divide by zero: when the clock
    has not advanced since the stored reading (or went back) both speeds
    are 0. Otherwise a speed has the sign of its byte count: there is no
    clamp, so a counter that has gone down, as after a reset of the
    interface, gives a speed that is not positive. The stored time becomes
    the time of this call and the stored counters the current ones. *)
Theorem network_speed_guarded
    (sd : SystemData.t) (env : SystemData.Env) (current last : SystemData.snetio) :
  SystemData.net_io_counters env = Ok (Some current) →
  SystemData._last_net_io sd = Some last →
  ∃ n sd',
    SystemData.get_network_metrics sd env = Ok (n, sd') ∧
    SystemData._last_net_time sd' = SystemData.net_time env ∧
    SystemData._last_net_io sd' = Some current ∧
    SystemData.bytes_sent n
      = SystemData.io_bytes_sent current - SystemData.io_bytes_sent last ∧
    SystemData.bytes_recv n
      = SystemData.io_bytes_recv current - SystemData.io_bytes_recv last ∧
    let elapsed := (SystemData.net_time env - SystemData._last_net_time sd)%Q in
    ((elapsed <= 0)%Q →
       SystemData.upload_speed n = 0%Q ∧ SystemData.download_speed n = 0%Q) ∧
    ((0 < elapsed)%Q →
       (0 ≤ SystemData.bytes_sent n → (0 <= SystemData.upload_speed n)%Q) ∧
       (SystemData.bytes_sent n ≤ 0 → (SystemData.upload_speed n <= 0)%Q) ∧
       (0 ≤ SystemData.bytes_recv n → (0 <= SystemData.download_speed n)%Q) ∧
       (SystemData.bytes_recv n ≤ 0 → (SystemData.download_speed n <= 0)%Q)).
Proof.
  intros Hcur Hlast.
  unfold SystemData.get_network_metrics, mbind, mret, result_bind, result_ret, Py.bind.
  rewrite Hcur, Hlast. simpl. eexists _, _. split; [reflexivity|]. cbn.
  split; [done|]. split; [done|]. split; [done|]. split; [done|]. split.
  - intros Hle. apply Qle_bool_iff in Hle. by rewrite Hle.
  - intros Hlt.
    destruct (Qle_bool _ 0) eqn:Hb.
    { apply Qle_bool_iff in Hb. exfalso. by apply (Qlt_not_le _ _ Hlt). }
    assert (Hup : ∀ delta : Z, 0 ≤ delta →
              (0 <= inject_Z delta /
                    (SystemData.net_time env - SystemData._last_net_time sd))%Q).
    { intros delta Hd. apply Qle_shift_div_l; [done|].
      rewrite Qmult_0_l. change 0%Q with (inject_Z 0). by rewrite <- Zle_Qle. }
    assert (Hdown : ∀ delta : Z, delta ≤ 0 →
              (inject_Z delta /
                 (SystemData.net_time env - SystemData._last_net_time sd) <= 0)%Q).
    { intros delta Hd. apply Qle_shift_div_r; [done|].
      rewrite Qmult_0_l. change 0%Q with (inject_Z 0). by rewrite <- Zle_Qle. }
    repeat split; auto.
Qed.

(** A machine with three partitions: two that can be read and one whose
    mount point the user may not enter. *)
Definition three_partitions : list SystemData.sdiskpart :=
  [ {| SystemData.part_device := "/dev/sda2"; SystemData.part_mountpoint := "/";
       SystemData.part_fstype := "ext4" |};
    {| SystemData.part_device := "/dev/sdb1"; SystemData.part_mountpoint := "/mnt/locked";
       SystemData.part_fstype := "ext4" |};
    {| SystemData.part_device := "/dev/sda1"; SystemData.part_mountpoint := "/boot";
       SystemData.part_fstype := "vfat" |} ].

Definition disks_env (usage : string → result SystemData.sdiskusage)
    (frag : string → string → result (option Q)) : SystemData.Env :=
  {| SystemData.cpu_percent_total := SystemData.cpu_percent_total (calm_env 0);
     SystemData.cpu_percent_percpu := SystemData.cpu_percent_percpu (calm_env 0);
     SystemData.cpu_freq := SystemData.cpu_freq (calm_env 0);
     SystemData.cpu_count_physical := SystemData.cpu_count_physical (calm_env 0);
     SystemData.cpu_count_logical := SystemData.cpu_count_logical (calm_env 0);
     SystemData.virtual_memory := SystemData.virtual_memory (calm_env 0);
     SystemData.ram_fragmentation := SystemData.ram_fragmentation (calm_env 0);
     SystemData.disk_partitions := Ok three_partitions;
     SystemData.disk_usage := usage;
     SystemData.disk_fragmentation := frag;
     SystemData.net_io_counters := SystemData.net_io_counters (calm_env 0);
     SystemData.net_time := 0%Q;
     SystemData.time_time := 0%Q |}.

Definition usage_with_locked (m : string) : result SystemData.sdiskusage :=
  if String.eqb m "/" then
    Ok {| SystemData.du_total := 500; SystemData.du_used := 200;
          SystemData.du_free := 300; SystemData.du_percent := 40%Q |}
  else if String.eqb m "/boot" then
    Ok {| SystemData.du_total := 100; SystemData.du_used := 30;
          SystemData.du_free := 70; SystemData.du_percent := 30%Q |}
  else Raise (Exn PermissionError "[Errno 13] Permission denied").

Definition locked_env : SystemData.Env :=
  disks_env usage_with_locked (fun _ _ => Ok None).

(** The same machine, where the output of the fragmentation tool for the
    second partition cannot be decoded. *)
Definition undecodable_env : SystemData.Env :=
  disks_env
    (fun _ => Ok {| SystemData.du_total := 500; SystemData.du_used := 200;
                    SystemData.du_free := 300; SystemData.du_percent := 40%Q |})
    (fun m _ => if String.eqb m "/mnt/locked"
                then Raise (Exn ValueError "'utf-8' codec can't decode byte 0xff")
                else Ok None).

Lemma storage_totals_match_listing_witness :
  ∃ s, SystemData.get_storage_metrics locked_env = Ok s ∧
       SystemData.mountpoint <$> SystemData.partitions s = ["/"; "/boot"] ∧
       SystemData.tu_total (SystemData.total_usage s) = 600 ∧
       SystemData.tu_used (SystemData.total_usage s) = 230 ∧
       SystemData.tu_free (SystemData.total_usage s) = 370.
Proof.
  assert (Hos : ∀ p e, p ∈ three_partitions →
                  SystemData.partition_data locked_env p = Raise e →
                  isinstance e OSError = true).
  { intros p e Hin Hp. unfold three_partitions in Hin.
    repeat (apply elem_of_cons in Hin as [->|Hin]);
      [discriminate Hp| |discriminate Hp|by apply elem_of_nil in Hin].
    by injection Hp as <-. }
  destruct (storage_totals_match_listing locked_env three_partitions eq_refl Hos)
    as (s & Hs & Hlist & Htotal & Hused & Hfree).
  exists s. split; [exact Hs|].
  rewrite Hfree, Htotal, Hused, Hlist. by repeat split.
Defined.

Lemma storage_other_exception_escapes_witness :
  SystemData.get_storage_metrics undecodable_env
  = Raise (Exn ValueError "'utf-8' codec can't decode byte 0xff").
Proof.
  apply (storage_other_exception_escapes undecodable_env
           [ {| SystemData.part_device := "/dev/sda2"; SystemData.part_mountpoint := "/";
                SystemData.part_fstype := "ext4" |} ]
           [ {| SystemData.part_device := "/dev/sda1"; SystemData.part_mountpoint := "/boot";
                SystemData.part_fstype := "vfat" |} ]
           {| SystemData.part_device := "/dev/sdb1";
              SystemData.part_mountpoint := "/mnt/locked";
              SystemData.part_fstype := "ext4" |}).
  - reflexivity.
  - intros q e' Hin Hq. apply elem_of_cons in Hin as [->|Hin]; [discriminate Hq|].
    by apply elem_of_nil in Hin.
  - reflexivity.
  - reflexivity.
Defined.

(** Three polls of the network counters; the second one fails. *)
Definition counters (sent recv : Z) : SystemData.snetio :=
  {| SystemData.io_bytes_sent := sent; SystemData.io_bytes_recv := recv;
     SystemData.io_packets_sent := 0; SystemData.io_packets_recv := 0;
     SystemData.io_errin := 0; SystemData.io_errout := 0 |}.

Definition net_env (io : result (option SystemData.snetio)) (now : Q) : SystemData.Env :=
  {| SystemData.cpu_percent_total := SystemData.cpu_percent_total (calm_env 0);
     SystemData.cpu_percent_percpu := SystemData.cpu_percent_percpu (calm_env 0);
     SystemData.cpu_freq := SystemData.cpu_freq (calm_env 0);
     SystemData.cpu_count_physical := SystemData.cpu_count_physical (calm_env 0);
     SystemData.cpu_count_logical := SystemData.cpu_count_logical (calm_env 0);
     SystemData.virtual_memory := SystemData.virtual_memory (calm_env 0);
     SystemData.ram_fragmentation := SystemData.ram_fragmentation (calm_env 0);
     SystemData.disk_partitions := Ok [];
     SystemData.disk_usage := SystemData.disk_usage (calm_env 0);
     SystemData.disk_fragmentation := SystemData.disk_fragmentation (calm_env 0);
     SystemData.net_io_counters := io;
     SystemData.net_time := now;
     SystemData.time_time := now |}.

Definition three_polls : list SystemData.Env :=
  [ net_env (Ok (Some (counters 1500 900))) 2%Q;
    net_env (Raise (Exn OSError "cannot read /proc/net/dev")) 4%Q;
    net_env (Ok (Some (counters 4000 1000))) 6%Q ].

Definition first_reading : SystemData.t :=
  {| SystemData._last_net_io := Some (counters 1000 800);
     SystemData._last_net_time := 0%Q |}.

Lemma network_deltas_add_up_witness :
  SystemData.bytes_sent <$> (SystemDataOps.poll first_reading three_polls).1 = [500; 2500] ∧
  ∃ c, SystemData._last_net_io (SystemDataOps.poll first_reading three_polls).2 = Some c ∧
       SystemDataOps.total_of SystemData.bytes_sent
         (SystemDataOps.poll first_reading three_polls).1
       = SystemData.io_bytes_sent c - 1000 ∧
       SystemDataOps.total_of SystemData.bytes_recv
         (SystemDataOps.poll first_reading three_polls).1
       = SystemData.io_bytes_recv c - 800 ∧
       from_option SystemData.total_bytes_sent 1000
         (last (SystemDataOps.poll first_reading three_polls).1)
       = SystemData.io_bytes_sent c.
Proof.
  split; [reflexivity|].
  exact (network_deltas_add_up first_reading three_polls (counters 1000 800) eq_refl).
Defined.

(** A poll two seconds after the first reading, and one after the
    counters have started again from zero. *)
Lemma network_speed_guarded_witness :
  (∃ n sd',
     SystemData.get_network_metrics first_reading
       (net_env (Ok (Some (counters 1500 900))) 2%Q) = Ok (n, sd') ∧
     SystemData._last_net_time sd' = 2%Q ∧
     (0 <= SystemData.upload_speed n)%Q) ∧
  (∃ n sd',
     SystemData.get_network_metrics first_reading
       (net_env (Ok (Some (counters 200 50))) 2%Q) = Ok (n, sd') ∧
     SystemData.bytes_sent n = -800 ∧
     (SystemData.upload_speed n <= 0)%Q).
Proof.
  split.
  - destruct (network_speed_guarded first_reading
                (net_env (Ok (Some (counters 1500 900))) 2%Q)
                (counters 1500 900) (counters 1000 800) eq_refl eq_refl)
      as (n & sd' & Hcall & Htime & _ & Hsent & _ & _ & Hsign).
    exists n, sd'. split; [exact Hcall|]. split; [exact Htime|].
    apply Hsign; [reflexivity|]. rewrite Hsent. simpl. lia.
  - destruct (network_speed_guarded first_reading
                (net_env (Ok (Some (counters 200 50))) 2%Q)
                (counters 200 50) (counters 1000 800) eq_refl eq_refl)
      as (n & sd' & Hcall & _ & _ & Hsent & _ & _ & Hsign).
    exists n, sd'. split; [exact Hcall|]. split; [exact Hsent|].
    apply Hsign; [reflexivity|]. rewrite Hsent. simpl. lia.
Defined.

(* ===================================================================== *)
(** ** [model/process_manager.py]: listing and counting processes *)
(* ===================================================================== *)

(** Python lists: [list.sort] and slices. *)
Module PyList.

(** [l[:stop]]: a negative [stop] counts from the right end. *)
Definition slice_to {A} (stop : Z) (l : list A) : list A :=
  if stop <? 0 then take (Z.to_nat (Z.of_nat (length l) + stop)) l
  else take (Z.to_nat stop) l.

Section Sort.

Context {A K : Type} (lt : K → K → bool) (key : A → K).

(** [x] goes in front of the first item whose key is not smaller, so that
    it stays ahead of the items with an equal key that came after it. *)
Fixpoint insert (x : A) (l : list A) : list A :=
  match l with
  | [] => [x]
  | y :: l' => if lt (key y) (key x) then y :: insert x l' else x :: y :: l'
  end.

(** The stable sort by [key] with the comparison [<] of the keys; the
    stable sorted arrangement of a list is unique, so that this is the list
    [list.sort(key=key)] leaves. *)
Definition stable_sort (l : list A) : list A := foldr insert [] l.

(** [l.sort(key=key, reverse=reverse)]: with [reverse] the list is sorted
    as if each comparison were reversed, items with equal keys keeping
    their order; CPython reverses the list before and after the sort. *)
Definition sort (reverse : bool) (l : list A) : list A :=
  if reverse then rev (stable_sort (rev l)) else stable_sort l.

End Sort.

End PyList.

Module ProcessManagerOps.

(** [x < y] on numbers. *)
Definition Qltb (x y : Q) : bool := negb (Qle_bool y x).

Record pmem := { rss : Z; vms : Z }.

Record pio := { read_bytes : Z; write_bytes : Z }.

(** [proc.info] for the attributes [get_process_list] asks
    [psutil.process_iter] for; psutil puts [None] where it has no access. *)
Record ProcInfo := {
  i_pid : Z; i_name : option string; i_status : option string;
  i_memory_percent : option Q; i_cpu_percent : option Q;
  i_username : option string; i_create_time : option Q;
  i_num_threads : option Z; i_memory_info : option pmem }.

(** A process as [process_iter] yields it. *)
Record Proc := { info : ProcInfo; io_counters : result pio }.

(** The dictionary of one process. *)
Record ProcessData := {
  pid : Z; name : string; status : string;
  memory_percent : Q; cpu_percent : Q;
  username : string; create_time : option Q; num_threads : Z;
  rss_bytes : Z; vms_bytes : Z; io_read_bytes : Z; io_write_bytes : Z }.

(** [s or d] on an optional string: [None] and the empty string are false. *)
Definition str_or (o : option string) (d : string) : string :=
  match o with
  | Some s => if String.eqb s "" then d else s
  | None => d
  end.

Section Builtins.

(** [round(_, 2)] and [str.lower]. *)
Variables (round2 : Q → Q) (lower : string → string).

(** The dictionary display of [get_process_list]. *)
Definition entry (i : ProcInfo) (io : option pio) : ProcessData :=
  {| pid := i_pid i;
     name := str_or (i_name i) "Unknown";
     status := str_or (i_status i) "Unknown";
     memory_percent := round2 (default 0%Q (i_memory_percent i));
     cpu_percent := round2 (default 0%Q (i_cpu_percent i));
     username := str_or (i_username i) "Unknown";
     create_time := i_create_time i;
     num_threads := default 0 (i_num_threads i);
     rss_bytes := from_option rss 0 (i_memory_info i);
     vms_bytes := from_option vms 0 (i_memory_info i);
     io_read_bytes := from_option read_bytes 0 io;
     io_write_bytes := from_option write_bytes 0 io |}.

(** The outer [try] block: the I/O counters, with their own handler, then
    the dictionary. *)
Definition process_data (p : Proc) : result ProcessData :=
  io ← match io_counters p with
       | Ok c => Ok (Some c)
       | Raise e =>
           if isinstance e AccessDenied || isinstance e NoSuchProcess
           then Ok None else Raise e
       end;
  mret (entry (info p) io).

(** The loop over [psutil.process_iter(...)]. *)
Fixpoint collect (procs : list Proc) (processes : list ProcessData)
    : result (list ProcessData) :=
  match procs with
  | [] => Ok processes
  | p :: rest =>
      match process_data p with
      | Ok d => collect rest (processes ++ [d])
      | Raise e =>
          if isinstance e NoSuchProcess || isinstance e AccessDenied
             || isinstance e ZombieProcess
          then collect rest processes
          else Raise e
      end
  end.

Definition numeric_fields : list string :=
  ["cpu_percent"; "memory_percent"; "pid"; "num_threads"].

(** [x.get(sort_by, 0)] for one of the numeric fields. *)
Definition numeric_key (sort_by : string) (x : ProcessData) : Q :=
  if String.eqb sort_by "cpu_percent" then cpu_percent x
  else if String.eqb sort_by "memory_percent" then memory_percent x
  else if String.eqb sort_by "pid" then inject_Z (pid x)
  else inject_Z (num_threads x).

(** [get_process_list(sort_by, descending, limit)]. *)
Definition get_process_list (sort_by : string) (descending : bool)
    (limit : option Z) (procs : list Proc) : result (list ProcessData) :=
  processes ← collect procs [];
  let processes :=
    if bool_decide (sort_by ∈ numeric_fields) then
      PyList.sort Qltb (numeric_key sort_by) descending processes
    else if String.eqb sort_by "name" then
      PyList.sort String.ltb (fun x => lower (name x)) descending processes
    else processes in
  mret (match limit with
        | Some n => PyList.slice_to n processes
        | None => processes
        end).

End Builtins.

(** [get_process_count]: the loop over [psutil.process_iter(['status'])];
    each item is the outcome of [proc.info['status']]. The keys of the
    dictionary are the statuses ([None] where psutil has no access) and, at
    the end, ['total']. *)
Fixpoint count_loop (procs : list (result (option string)))
    (acc : gmap (option string) Z * Z) : result (gmap (option string) Z * Z) :=
  match procs with
  | [] => Ok acc
  | p :: rest =>
      match p with
      | Ok status =>
          count_loop rest (<[status := default 0 (acc.1 !! status) + 1]> acc.1,
                           acc.2 + 1)
      | Raise e =>
          if isinstance e NoSuchProcess || isinstance e AccessDenied
          then count_loop rest acc
          else Raise e
      end
  end.

Definition get_process_count (procs : list (result (option string)))
    : result (gmap (option string) Z) :=
  '(status_count, total) ← count_loop procs (∅, 0);
  mret (<[Some "total" := total]> status_count).

(** The statuses that could be read. *)
Definition statuses (procs : list (result (option string))) : list (option string) :=
  omap (fun p => match p with Ok s => Some s | Raise _ => None end) procs.

(** How many of the statuses are [k]. *)
Definition occurrences (k : option string) (l : list (option string)) : Z :=
  Z.of_nat (length (filter (fun s => s = k) l)).

End ProcessManagerOps.

Section SortFacts.

Context {A K : Type} (lt : K → K → bool) (key : A → K).

(** [a] may stand before [b] in ascending order. *)
Definition ascending (a b : A) : Prop := lt (key b) (key a) = false.

Lemma insert_perm (x : A) (l : list A) : PyList.insert lt key x l ≡ₚ x :: l.
Proof.
  induction l as [|y l IH]; simpl; [done|].
  destruct (lt (key y) (key x)); [|done].
  rewrite IH. apply Permutation_swap.
Qed.

Lemma stable_sort_perm (l : list A) : PyList.stable_sort lt key l ≡ₚ l.
Proof.
  induction l as [|x l IH]; simpl; [done|].
  by rewrite insert_perm, IH.
Qed.

Lemma sort_perm (reverse : bool) (l : list A) : PyList.sort lt key reverse l ≡ₚ l.
Proof.
  unfold PyList.sort. destruct reverse; [|apply stable_sort_perm].
  by rewrite <- Permutation_rev, stable_sort_perm, <- Permutation_rev.
Qed.

Hypothesis lt_asym : ∀ x y, lt x y = true → lt y x = false.
Hypothesis le_trans : ∀ x y z, lt y x = false → lt z y = false → lt z x = false.

Lemma insert_sorted (x : A) (l : list A) :
  StronglySorted ascending l → StronglySorted ascending (PyList.insert lt key x l).
Proof.
  induction 1 as [|y l Hl IH Hy]; simpl.
  - by repeat constructor.
  - destruct (lt (key y) (key x)) eqn:Hlt.
    + constructor; [done|]. rewrite insert_perm. constructor; [|done].
      by apply lt_asym.
    + constructor; [by constructor|]. constructor; [done|].
      eapply Forall_impl; [done|]. intros z Hz. unfold ascending in *. eauto.
Qed.

Lemma stable_sort_sorted (l : list A) :
  StronglySorted ascending (PyList.stable_sort lt key l).
Proof.
  induction l as [|x l IH]; simpl; [constructor|]. by apply insert_sorted.
Qed.

Lemma StronglySorted_rev (R : relation A) (l : list A) :
  StronglySorted R l → StronglySorted (flip R) (rev l).
Proof.
  induction 1 as [|x l Hl IH Hx]; simpl; [constructor|].
  apply StronglySorted_app_2; [|done|by repeat constructor].
  intros a b Ha Hb. apply elem_of_cons in Hb as [->|Hb]; [|by apply elem_of_nil in Hb].
  apply list_elem_of_In, in_rev, list_elem_of_In in Ha. unfold flip.
  by eapply (proj1 (Forall_forall _ _) Hx).
Qed.

(** The list [sort] leaves is in order: ascending, or with [reverse]
    descending. *)
Lemma sort_sorted (reverse : bool) (l : list A) :
  StronglySorted (if reverse then flip ascending else ascending)
    (PyList.sort lt key reverse l).
Proof.
  unfold PyList.sort. destruct reverse; [|apply stable_sort_sorted].
  apply StronglySorted_rev, stable_sort_sorted.
Qed.

End SortFacts.

Section SliceFacts.

Context {A : Type}.

Lemma slice_to_prefix (stop : Z) (l : list A) :
  ∃ rest, PyList.slice_to stop l ++ rest = l.
Proof.
  unfold PyList.slice_to. destruct (stop <? 0); eexists; apply take_drop.
Qed.

Lemma slice_to_length (stop : Z) (l : list A) :
  Z.of_nat (length (PyList.slice_to stop l))
  = if stop <? 0 then Z.max 0 (Z.of_nat (length l) + stop)
    else Z.min stop (Z.of_nat (length l)).
Proof.
  unfold PyList.slice_to. destruct (stop <? 0) eqn:Hneg; rewrite length_take; lia.
Qed.

End SliceFacts.

Section ProcessListFacts.

Import ProcessManagerOps.

Variables (round2 : Q → Q) (lower : string → string).

(** The dictionary of a process whose I/O counters raise nothing but
    [AccessDenied] or [NoSuchProcess]: without counters the I/O bytes are 0. *)
Definition listed_entry (p : Proc) : ProcessData :=
  entry round2 (info p)
    match io_counters p with Ok c => Some c | Raise _ => None end.

(** The psutil exceptions the I/O counters of a process may raise. *)
Definition io_guarded (p : Proc) : Prop :=
  ∀ e, io_counters p = Raise e →
       isinstance e AccessDenied || isinstance e NoSuchProcess = true.

Lemma process_data_listed p :
  io_guarded p → process_data round2 p = Ok (listed_entry p).
Proof.
  unfold io_guarded, process_data, listed_entry, mbind, result_bind, Py.bind.
  destruct (io_counters p) as [c|e]; [done|].
  intros Hg. by rewrite (Hg e eq_refl).
Qed.

Lemma collect_listed procs : ∀ processes,
  Forall io_guarded procs →
  collect round2 procs processes = Ok (processes ++ (listed_entry <$> procs)).
Proof.
  induction procs as [|p procs IH]; intros processes Hg; simpl.
  - by rewrite app_nil_r.
  - apply Forall_cons in Hg as [Hp Hg].
    rewrite (process_data_listed p Hp), IH by done.
    by rewrite <- app_assoc.
Qed.

(** The order of the numeric keys, in the direction asked for. *)
Definition in_order (sort_by : string) (descending : bool) (a b : ProcessData) : Prop :=
  if descending then (numeric_key sort_by b <= numeric_key sort_by a)%Q
  else (numeric_key sort_by a <= numeric_key sort_by b)%Q.

Lemma Qltb_asym x y : Qltb x y = true → Qltb y x = false.
Proof.
  unfold Qltb. rewrite negb_true_iff, negb_false_iff.
  intros Hxy. apply Qle_bool_iff. apply Qlt_le_weak, Qnot_le_lt.
  intros Hle. apply Qle_bool_iff in Hle. congruence.
Qed.

Lemma Qltb_false x y : Qltb y x = false ↔ (x <= y)%Q.
Proof. unfold Qltb. by rewrite negb_false_iff, Qle_bool_iff. Qed.

Lemma Qltb_le_trans x y z : Qltb y x = false → Qltb z y = false → Qltb z x = false.
Proof. rewrite !Qltb_false. apply Qle_trans. Qed.

Lemma StronglySorted_impl {A} (R R' : relation A) (l : list A) :
  (∀ x y, R x y → R' x y) → StronglySorted R l → StronglySorted R' l.
Proof.
  intros HR. induction 1 as [|x l Hl IH Hx]; constructor; [done|].
  eapply Forall_impl; [done|]. eauto.
Qed.

Lemma numeric_sort_in_order sort_by descending (l : list ProcessData) :
  StronglySorted (in_order sort_by descending)
    (PyList.sort Qltb (numeric_key sort_by) descending l).
Proof.
  eapply StronglySorted_impl;
    [|apply (sort_sorted Qltb (numeric_key sort_by) Qltb_asym Qltb_le_trans)].
  intros a b. unfold in_order, ascending, flip.
  destruct descending; by rewrite Qltb_false.
Qed.

End ProcessListFacts.

(** [get_process_list] with [sort_by] one of the numeric fields, when the
    I/O counters raise nothing but [AccessDenied] and [NoSuchProcess]: it
    answers with the leading part of the dictionaries of all processes,
    arranged by the field in the direction asked for. So the listed
    processes are in order, none that is left out comes before a listed one,
    and the number listed is the whole for [limit=None], [min(limit, n)] for
    a limit that is not negative, and [max(0, n + limit)] for a negative
    one. *)
Theorem process_list_sorted_prefix
    (round2 : Q → Q) (lower : string → string)
    (sort_by : string) (descending : bool) (limit : option Z)
    (procs : list ProcessManagerOps.Proc) :
  sort_by ∈ ProcessManagerOps.numeric_fields →
  Forall io_guarded procs →
  ∃ listed rest,
    ProcessManagerOps.get_process_list round2 lower sort_by descending limit procs
    = Ok listed ∧
    listed ++ rest ≡ₚ listed_entry round2 <$> procs ∧
    StronglySorted (in_order sort_by descending) (listed ++ rest) ∧
    Z.of_nat (length listed)
    = match limit with
      | None => Z.of_nat (length procs)
      | Some n => if n <? 0 then Z.max 0 (Z.of_nat (length procs) + n)
                  else Z.min n (Z.of_nat (length procs))
      end.
Proof.
  intros Hfield Hg. unfold ProcessManagerOps.get_process_list.
  rewrite (collect_listed round2 procs [] Hg). simpl.
  rewrite bool_decide_eq_true_2 by done.
  set (sorted := PyList.sort _ _ _ _).
  assert (Hperm : sorted ≡ₚ listed_entry round2 <$> procs) by apply sort_perm.
  assert (Hsorted : StronglySorted (in_order sort_by descending) sorted)
    by apply numeric_sort_in_order.
  assert (Hlen : length sorted = length procs).
  { by rewrite Hperm, length_fmap. }
  destruct limit as [n|].
  - destruct (slice_to_prefix n sorted) as [rest Hrest].
    exists (PyList.slice_to n sorted), rest. rewrite Hrest.
    repeat split; try done. by rewrite slice_to_length, Hlen.
  - exists sorted, []. rewrite app_nil_r. repeat split; try done. by rewrite Hlen.
Qed.

Section CountFacts.

Import ProcessManagerOps.

Lemma occurrences_cons k s l :
  occurrences k (s :: l) = (if decide (s = k) then 1 else 0) + occurrences k l.
Proof.
  unfold occurrences. rewrite filter_cons.
  destruct (decide (s = k)); simpl; lia.
Qed.

Lemma occurrences_nonneg k l : 0 ≤ occurrences k l.
Proof. unfold occurrences. lia. Qed.

Lemma count_loop_counts procs : ∀ status_count total,
  (∀ e, Raise e ∈ procs →
        isinstance e NoSuchProcess || isinstance e AccessDenied = true) →
  ∃ status_count',
    count_loop procs (status_count, total)
    = Ok (status_count', total + Z.of_nat (length (statuses procs))) ∧
    ∀ k, status_count' !! k
         = if occurrences k (statuses procs) =? 0 then status_count !! k
           else Some (default 0 (status_count !! k) + occurrences k (statuses procs)).
Proof.
  induction procs as [|p procs IH]; intros sc total Hexn.
  - exists sc. simpl. split; [by rewrite Z.add_0_r|done].
  - assert (Hexn' : ∀ e, Raise e ∈ procs →
                      isinstance e NoSuchProcess || isinstance e AccessDenied = true).
    { intros e He. apply Hexn. by right. }
    destruct p as [status|e].
    + cbn [count_loop fst snd].
      destruct (IH (<[status := default 0 (sc !! status) + 1]> sc) (total + 1) Hexn')
        as (sc' & Hloop & Hkeys).
      exists sc'. split.
      { rewrite Hloop. unfold statuses. cbn [omap list_omap]. fold (statuses procs).
        do 2 f_equal. cbn [length]. lia. }
      intros k. rewrite Hkeys. unfold statuses at 3 4. cbn [omap list_omap].
      fold (statuses procs). rewrite !occurrences_cons.
      pose proof (occurrences_nonneg k (statuses procs)) as Hnn.
      destruct (decide (status = k)) as [->|Hne].
      * rewrite lookup_insert_eq. simpl.
        destruct (occurrences k (statuses procs) =? 0) eqn:Hz.
        -- apply Z.eqb_eq in Hz. rewrite Hz. simpl. f_equal; lia.
        -- apply Z.eqb_neq in Hz.
           destruct (1 + occurrences k (statuses procs) =? 0) eqn:Hz';
             [apply Z.eqb_eq in Hz'; lia|].
           f_equal; lia.
      * by rewrite lookup_insert_ne.
    + cbn [count_loop]. rewrite (Hexn e) by by left.
      destruct (IH sc total Hexn') as (sc' & Hloop & Hkeys).
      exists sc'. split; [exact Hloop|exact Hkeys].
Qed.

End CountFacts.

(** [get_process_count], when reading a status raises nothing but
    [NoSuchProcess] and [AccessDenied]: ['total'] is the number of processes
    whose status could be read, every status that occurs is a key whose
    value is the number of processes in that status, and no other status is
    a key. *)
Theorem process_count_by_status
    (procs : list (result (option string))) :
  (∀ e, Raise e ∈ procs →
        isinstance e NoSuchProcess || isinstance e AccessDenied = true) →
  ∃ counts,
    ProcessManagerOps.get_process_count procs = Ok counts ∧
    counts !! Some "total"
    = Some (Z.of_nat (length (ProcessManagerOps.statuses procs))) ∧
    ∀ k, k ≠ Some "total" →
      counts !! k
      = if ProcessManagerOps.occurrences k (ProcessManagerOps.statuses procs) =? 0
        then None
        else Some (ProcessManagerOps.occurrences k (ProcessManagerOps.statuses procs)).
Proof.
  intros Hexn. unfold ProcessManagerOps.get_process_count.
  destruct (count_loop_counts procs ∅ 0 Hexn) as (sc & Hloop & Hkeys).
  rewrite Hloop. unfold mbind, result_bind, Py.bind.
  eexists. split; [reflexivity|]. split.
  - by rewrite lookup_insert_eq, Z.add_0_l.
  - intros k Hk. rewrite lookup_insert_ne by done. rewrite Hkeys, lookup_empty.
    by rewrite Z.add_0_l.
Qed.

(** Four processes; the I/O counters of the second may not be read, and
    psutil has no access to the attributes of the fourth. *)
Definition proc_with (pid : Z) (name : option string) (cpu : option Q)
    (io : result ProcessManagerOps.pio) : ProcessManagerOps.Proc :=
  {| ProcessManagerOps.info :=
       {| ProcessManagerOps.i_pid := pid;
          ProcessManagerOps.i_name := name;
          ProcessManagerOps.i_status := Some "sleeping";
          ProcessManagerOps.i_memory_percent := Some 1%Q;
          ProcessManagerOps.i_cpu_percent := cpu;
          ProcessManagerOps.i_username := Some "root";
          ProcessManagerOps.i_create_time := Some 0%Q;
          ProcessManagerOps.i_num_threads := Some 1;
          ProcessManagerOps.i_memory_info := None |};
     ProcessManagerOps.io_counters := io |}.

Definition four_processes : list ProcessManagerOps.Proc :=
  [ proc_with 1 (Some "systemd") (Some (1 # 2)%Q)
      (Ok {| ProcessManagerOps.read_bytes := 10; ProcessManagerOps.write_bytes := 20 |});
    proc_with 40 (Some "Xorg") (Some (25 # 2)%Q)
      (Raise (Exn AccessDenied "psutil.AccessDenied (pid=40)"));
    proc_with 77 (Some "python3") (Some 30%Q)
      (Ok {| ProcessManagerOps.read_bytes := 0; ProcessManagerOps.write_bytes := 5 |});
    proc_with 90 None None
      (Raise (Exn ZombieProcess "psutil.ZombieProcess (pid=90)")) ].

Lemma process_list_sorted_prefix_witness :
  ∃ listed,
    ProcessManagerOps.get_process_list (fun q => q) (fun s => s)
      "cpu_percent" true (Some 2) four_processes = Ok listed ∧
    ProcessManagerOps.pid <$> listed = [77; 40] ∧
    ProcessManagerOps.io_write_bytes <$> listed = [5; 0] ∧
    Z.of_nat (length listed) = 2.
Proof.
  assert (Hg : Forall io_guarded four_processes).
  { unfold four_processes.
    repeat constructor; intros e He; try discriminate He; by injection He as <-. }
  destruct (process_list_sorted_prefix (fun q => q) (fun s => s) "cpu_percent" true
              (Some 2) four_processes ltac:(by left) Hg)
    as (listed & rest & Hlist & _ & _ & Hlen).
  exists listed. split; [exact Hlist|].
  split; [|split; [|exact Hlen]];
    (vm_compute in Hlist; injection Hlist as <-; reflexivity).
Defined.

Lemma process_count_by_status_witness :
  ∃ counts,
    ProcessManagerOps.get_process_count
      [Ok (Some "running"); Ok (Some "sleeping");
       Raise (Exn NoSuchProcess "psutil.NoSuchProcess (pid=12)");
       Ok (Some "sleeping"); Ok None] = Ok counts ∧
    counts !! Some "total" = Some 4 ∧
    counts !! Some "sleeping" = Some 2 ∧
    counts !! None = Some 1 ∧
    counts !! Some "zombie" = None.
Proof.
  edestruct (process_count_by_status
              [Ok (Some "running"); Ok (Some "sleeping");
               Raise (Exn NoSuchProcess "psutil.NoSuchProcess (pid=12)");
               Ok (Some "sleeping"); Ok None])
    as (counts & Hcounts & Htotal & Hkeys).
  { intros e He.
    repeat (apply elem_of_cons in He as [He|He]; try discriminate He).
    - by injection He as ->.
    - by apply elem_of_nil in He. }
  exists counts. split; [exact Hcounts|]. split; [exact Htotal|].
  split; [|split].
  - by rewrite (Hkeys (Some "sleeping")).
  - by rewrite (Hkeys None).
  - by rewrite (Hkeys (Some "zombie")).
Defined.

(* ===================================================================== *)
(** ** [model/power_manager.py] and [scripts/power_helper.py]: the
       frequency limit and the privileged helper *)
(* ===================================================================== *)

Module PowerManagerOps.

Import Host PowerManager.

(** [set_max_freq]. *)
Definition set_max_freq (pm : PowerManager.t) (h : Host.t) (khz : Z) : result Response :=
  if (khz =? 0) || (khz <=? 0) then
    Ok {| success := false; message := "Frecuencia inválida" |}
  else match cpu_paths pm with
  | [] => Ok {| success := false; message := "No se encontró ruta cpufreq" |}
  | _ =>
      errors ← write_all h "/scaling_max_freq" (pretty khz) (cpu_paths pm);
      match errors with
      | [] => Ok {| success := true;
                    message := "Frecuencia máxima ajustada a " +:+ pretty khz +:+ " kHz" |}
      | _ =>
          if use_pkexec pm then _run_helper pm h None (Some khz)
          else Ok {| success := false;
                     message := "No se pudo escribir en " +:+ pretty (length errors)
                                +:+ " CPU(s). Requiere permisos." |}
      end
  end.

(** Whether the write of [value] to [file] of the CPU at [path] fails. *)
Definition write_fails (h : Host.t) (file value path : string) : bool :=
  raises (write h (path +:+ file) value).

End PowerManagerOps.

Module PowerHelper.

Import Host.

(** What the script leaves behind: its exit status and the lines it
    printed. *)
Record Output := { code : Z; stdout : list string; stderr : list string }.

(** The loop of [write_governor] and of [write_max_freq]: the number of
    writes that went through, and the lines printed to [sys.stderr]. *)
Fixpoint write_loop (h : Host.t) (file value : string) (cpu_paths : list string)
    (success : Z) (err : list string) : result (Z * list string) :=
  match cpu_paths with
  | [] => Ok (success, err)
  | path :: rest =>
      match write h (path +:+ file) value with
      | Ok _ => write_loop h file value rest (success + 1) err
      | Raise exc =>
          if isinstance exc Exception then
            write_loop h file value rest success
              (err ++ ["Fallo escribiendo " +:+ path +:+ file +:+ ": " +:+ str exc])
          else Raise exc
      end
  end.

Definition write_file (h : Host.t) (file value : string) (cpu_paths : list string)
    : result (bool * list string) :=
  match cpu_paths with
  | [] => Ok (false, ["No se encontraron rutas cpufreq"])
  | _ =>
      '(success, err) ← write_loop h file value cpu_paths 0 [];
      mret (0 <? success, err)
  end.

(** [write_governor]; [cpu_paths] is what [glob.glob] finds. *)
Definition write_governor (h : Host.t) (cpu_paths : list string) (governor : string)
    : result (bool * list string) :=
  write_file h "/scaling_governor" governor cpu_paths.

(** [write_max_freq]. *)
Definition write_max_freq (h : Host.t) (cpu_paths : list string) (khz : Z)
    : result (bool * list string) :=
  write_file h "/scaling_max_freq" (pretty khz) cpu_paths.

(** [args.governor] and [args.max_freq_khz] as conditions. *)
Definition asked_governor (governor : option string) : bool :=
  match governor with Some g => negb (String.eqb g "") | None => false end.

Definition asked_max_freq (max_freq_khz : option Z) : bool :=
  match max_freq_khz with Some k => negb (k =? 0) | None => false end.

(** The body of [main] from the namespace on that [parser.parse_args()] has
    returned; the parse itself is in [run] below. *)
Definition main (h : Host.t) (cpu_paths : list string)
    (governor : option string) (max_freq_khz : option Z) : result Output :=
  if negb (asked_governor governor) && negb (asked_max_freq max_freq_khz) then
    Ok {| code := 1; stdout := []; stderr := ["Nada que aplicar"] |}
  else
    '(go_on, out, err) ←
      (if asked_governor governor then
         '(ok, err) ← write_governor h cpu_paths (default "" governor);
         mret (if ok : bool
               then (true, ["Gobernador establecido a " +:+ default "" governor], err)
               else (false, [],
                     err ++ ["No se pudo escribir gobernador (revisar permisos o cpufreq)"]))
       else mret (true, [], []));
    if negb go_on then Ok {| code := 1; stdout := out; stderr := err |}
    else if asked_max_freq max_freq_khz then
      '(ok, err') ← write_max_freq h cpu_paths (default 0 max_freq_khz);
      mret (if ok : bool
            then {| code := 0;
                    stdout := out ++ ["Frecuencia máxima fijada a "
                                      +:+ pretty (default 0 max_freq_khz) +:+ " kHz"];
                    stderr := err ++ err' |}
            else {| code := 1; stdout := out;
                    stderr := err ++ err' ++
                      ["No se pudo escribir frecuencia máxima (revisar permisos o cpufreq)"] |})
    else Ok {| code := 0; stdout := out; stderr := err |}.

(** What [parser.parse_args()] makes of a command line: the namespace with
    [args.governor] and [args.max_freq_khz]; or, for a command line it
    rejects, the usage message on [sys.stderr] and [sys.exit(2)]; or, for
    [--help], the help text on [sys.stdout] and [sys.exit(0)]. *)
Inductive parsed :=
| Namespace (governor : option string) (max_freq_khz : option Z)
| Usage (err : list string)
| Help (out : list string).

(** The script, [sys.exit(main())]: [main] parses the command line first.
    [argv] is what follows the script's path, and [parse_args] is
    argparse with the two options of the parser. *)
Definition run (parse_args : list string → parsed) (h : Host.t)
    (cpu_paths : list string) (argv : list string) : result Output :=
  match parse_args argv with
  | Usage err => Ok {| code := 2; stdout := []; stderr := err |}
  | Help out => Ok {| code := 0; stdout := out; stderr := [] |}
  | Namespace governor max_freq_khz => main h cpu_paths governor max_freq_khz
  end.

(** What [print] writes for a list of lines. *)
Definition printed (lines : list string) : string :=
  foldr (fun line text => line +:+ String (Ascii.ascii_of_nat 10) text) "" lines.

(** What [subprocess.run] gives back for a run of the script. *)
Definition completed (o : Output) : CompletedProcess :=
  {| returncode := code o; out_text := printed (stdout o); err_text := printed (stderr o) |}.

End PowerHelper.

Section PowerFacts.

Import Host PowerManager PowerManagerOps.

Implicit Types (h : Host.t) (pm : PowerManager.t).

(** The loop over the CPUs tries every path and collects the failing ones. *)
Lemma write_all_failing h file value paths :
  well_behaved h →
  write_all h file value paths = Ok (List.filter (write_fails h file value) paths).
Proof.
  intros (_ & Hw & _). induction paths as [|path rest IH]; [done|].
  cbn [write_all List.filter]. rewrite IH.
  assert (Hf : write_fails h file value path = raises (write h (path +:+ file) value))
    by done.
  rewrite Hf. unfold _safe_write_str, mbind, result_bind, Py.bind.
  destruct (write h (path +:+ file) value) as [|e] eqn:Hwrite; [done|].
  by rewrite (Hw _ _ e Hwrite).
Qed.

Lemma filter_nil_iff {A} (f : A → bool) (l : list A) :
  List.filter f l = [] ↔ ∀ x, x ∈ l → f x = false.
Proof.
  induction l as [|a l IH]; simpl.
  - split; [|done]. intros _ x Hx. by apply elem_of_nil in Hx.
  - destruct (f a) eqn:Ha.
    + split; [done|]. intros Hall. rewrite (Hall a) in Ha by by left. done.
    + rewrite IH. split.
      * intros Hall x [->|Hx]%elem_of_cons; eauto.
      * intros Hall x Hx. apply Hall. by right.
Qed.

Lemma mem_elem_of (x : string) (parts : list string) :
  mem x parts = true ↔ x ∈ parts.
Proof.
  unfold mem. rewrite existsb_exists. split.
  - intros (y & Hin & ->%String.eqb_eq). by apply list_elem_of_In.
  - intros Hin. exists x. split; [by apply list_elem_of_In|apply String.eqb_refl].
Qed.

(** The governor passes the check of [set_governor]: the list of available
    governors could not be read, or it names the governor. *)
Definition supported (govs : Governors) (governor : string) : Prop :=
  available govs = [] ∨ governor ∈ available govs.

Lemma supported_test govs governor :
  negb (length (available govs) =? 0)%nat && negb (mem governor (available govs)) = false
  ↔ supported govs governor.
Proof.
  unfold supported. rewrite andb_false_iff, !negb_false_iff, Nat.eqb_eq, mem_elem_of.
  by rewrite length_zero_iff_nil.
Qed.

End PowerFacts.

(** [set_governor] without the pkexec fallback, on a machine whose library
    calls raise instances of [Exception] only: it reports success exactly
    when a governor is named, there are CPUs, the governor passes the check
    against the available ones, and the write went through for every CPU.
    Every CPU is tried: after a failure the message counts all the CPUs
    whose write failed. *)
Theorem set_governor_succeeds_iff_all_written
    (pm : PowerManager.t) (h : Host.t) (governor : string)
    (govs : PowerManager.Governors) :
  Host.well_behaved h →
  PowerManager.use_pkexec pm = false →
  PowerManager.get_governors pm h = Ok govs →
  ∃ r, PowerManager.set_governor pm h governor = Ok r ∧
       (Host.success r = true ↔
          governor ≠ "" ∧ PowerManager.cpu_paths pm ≠ [] ∧ supported govs governor ∧
          ∀ path, path ∈ PowerManager.cpu_paths pm →
                  PowerManagerOps.write_fails h "/scaling_governor" governor path = false) ∧
       (governor ≠ "" → supported govs governor →
        let failed := List.filter (PowerManagerOps.write_fails h "/scaling_governor" governor)
                        (PowerManager.cpu_paths pm) in
        failed ≠ [] →
        Host.message r = "No se pudo escribir en " +:+ pretty (length failed)
                         +:+ " CPU(s). Requiere permisos.").
Proof.
  intros Hwb Hpk Hgovs. unfold PowerManager.set_governor.
  destruct (String.eqb governor "") eqn:Hempty.
  { apply String.eqb_eq in Hempty as ->. eexists. split; [done|]. simpl.
    split; [|done]. split; [done|]. by intros [? _]. }
  apply String.eqb_neq in Hempty.
  destruct (PowerManager.cpu_paths pm) as [|path0 rest] eqn:Hpaths.
  { eexists. split; [done|]. simpl. split.
    - split; [done|]. by intros (_ & ? & _).
    - intros _ _ Hfailed. done. }
  rewrite Hgovs. unfold mbind at 1, result_bind at 1, Py.bind at 1.
  destruct (negb (length (PowerManager.available govs) =? 0)%nat
            && negb (Host.mem governor (PowerManager.available govs))) eqn:Htest.
  { eexists. split; [done|]. simpl.
    assert (Hnot : ¬ supported govs governor).
    { intros Hs. apply supported_test in Hs. congruence. }
    split; [|done]. split; [done|]. by intros (_ & _ & ? & _). }
  apply supported_test in Htest.
  rewrite (write_all_failing h _ _ _ Hwb).
  unfold mbind, result_bind, Py.bind.
  destruct (List.filter _ (path0 :: rest)) as [|bad failed] eqn:Hfilter.
  - eexists. split; [done|]. simpl. split; [|done].
    split; [|done]. intros _. repeat split; try done.
    by apply filter_nil_iff.
  - rewrite Hpk. eexists. split; [done|]. simpl. split.
    + split; [done|]. intros (_ & _ & _ & Hall).
      apply filter_nil_iff in Hall. congruence.
    + done.
Qed.

(** [set_max_freq] without the pkexec fallback, on a machine whose library
    calls raise instances of [Exception] only: a frequency that is zero or
    negative is refused, and otherwise it reports success exactly when there
    are CPUs and the write went through for every one of them. *)
Theorem set_max_freq_succeeds_iff_all_written
    (pm : PowerManager.t) (h : Host.t) (khz : Z) :
  Host.well_behaved h →
  PowerManager.use_pkexec pm = false →
  ∃ r, PowerManagerOps.set_max_freq pm h khz = Ok r ∧
       (khz ≤ 0 → Host.message r = "Frecuencia inválida") ∧
       (Host.success r = true ↔
          0 < khz ∧ PowerManager.cpu_paths pm ≠ [] ∧
          ∀ path, path ∈ PowerManager.cpu_paths pm →
                  PowerManagerOps.write_fails h "/scaling_max_freq" (pretty khz) path
                  = false).
Proof.
  intros Hwb Hpk. unfold PowerManagerOps.set_max_freq.
  destruct ((khz =? 0) || (khz <=? 0)) eqn:Hbad.
  { eexists. split; [done|]. simpl. split; [done|].
    split; [done|]. intros (Hpos & _).
    apply orb_true_iff in Hbad as [?%Z.eqb_eq|?%Z.leb_le]; lia. }
  apply orb_false_iff in Hbad as [_ Hpos%Z.leb_gt].
  destruct (PowerManager.cpu_paths pm) as [|path0 rest] eqn:Hpaths.
  { eexists. split; [done|]. simpl. split; [lia|].
    split; [done|]. by intros (_ & ? & _). }
  rewrite (write_all_failing h _ _ _ Hwb).
  unfold mbind, result_bind, Py.bind.
  destruct (List.filter _ (path0 :: rest)) as [|bad failed] eqn:Hfilter.
  - eexists. split; [done|]. simpl. split; [lia|].
    split; [|done]. intros _. repeat split; try done.
    by apply filter_nil_iff.
  - rewrite Hpk. eexists. split; [done|]. simpl. split; [lia|].
    split; [done|]. intros (_ & _ & Hall).
    apply filter_nil_iff in Hall. congruence.
Qed.

Section HelperFacts.

Import Host PowerManagerOps PowerHelper.

Implicit Types (h : Host.t).

(** Some CPU takes the write. *)
Definition some_written h (file value : string) (cpu_paths : list string) : Prop :=
  ∃ path, path ∈ cpu_paths ∧ write_fails h file value path = false.

Lemma write_loop_counts h file value cpu_paths : ∀ success err,
  well_behaved h →
  ∃ success' err',
    write_loop h file value cpu_paths success err = Ok (success', err') ∧
    success ≤ success' ∧
    (success < success' ↔ some_written h file value cpu_paths).
Proof.
  induction cpu_paths as [|path rest IH]; intros success err Hwb.
  - exists success, err. split; [done|]. split; [lia|].
    split; [lia|]. intros (path & Hin & _). by apply elem_of_nil in Hin.
  - cbn [write_loop].
    destruct (write h (path +:+ file) value) as [u|e] eqn:Hwrite.
    + destruct (IH (success + 1) err Hwb) as (s' & err' & -> & Hle & _).
      exists s', err'. split; [done|]. split; [lia|]. split; [|lia].
      intros _. exists path. split; [by left|].
      unfold write_fails. by rewrite Hwrite.
    + destruct Hwb as (Hr & Hw & Hrest). rewrite (Hw _ _ e Hwrite).
      destruct (IH success
                  (err ++ ["Fallo escribiendo " +:+ path +:+ file +:+ ": " +:+ str e])
                  (conj Hr (conj Hw Hrest)))
        as (s' & err' & -> & Hle & Hiff).
      exists s', err'. split; [done|]. split; [done|].
      rewrite Hiff. split.
      * intros (p & Hin & Hp). exists p. split; [by right|done].
      * intros (p & [->|Hin]%elem_of_cons & Hp); [|by exists p].
        unfold write_fails in Hp. by rewrite Hwrite in Hp.
Qed.

Lemma write_file_any h file value cpu_paths :
  well_behaved h →
  ∃ ok err, write_file h file value cpu_paths = Ok (ok, err) ∧
            (ok = true ↔ some_written h file value cpu_paths) ∧
            (ok = false → err ≠ []).
Proof.
  intros Hwb. unfold write_file.
  destruct cpu_paths as [|path rest] eqn:Hpaths.
  { eexists _, _. split; [done|]. split; [|done]. split; [done|].
    intros (path & Hin & _). by apply elem_of_nil in Hin. }
  rewrite <- Hpaths.
  destruct (write_loop_counts h file value cpu_paths 0 [] Hwb)
    as (s' & err' & Hloop & Hle & Hiff).
  rewrite Hloop. unfold mbind, result_bind, Py.bind.
  eexists _, _. split; [done|]. split.
  - by rewrite Z.ltb_lt.
  - intros Hnone%Z.ltb_ge. assert (s' = 0) as -> by lia.
    clear Hiff Hle. rewrite Hpaths in Hloop. cbn [write_loop] in Hloop.
    destruct (write h (path +:+ file) value) as [u|e] eqn:Hwrite.
    + destruct (write_loop_counts h file value rest (0 + 1) [] Hwb)
        as (s'' & err'' & Hloop' & Hle' & _).
      rewrite Hloop' in Hloop. injection Hloop as -> _. lia.
    + destruct (isinstance e Exception); [|done].
      intros ->.
      assert (Hgrow : ∀ paths s err s' err',
                write_loop h file value paths s err = Ok (s', err') →
                (length err ≤ length err')%nat).
      { clear. induction paths as [|p paths IH]; intros s err s' err'; cbn [write_loop].
        - by intros [= _ ->].
        - destruct (write h (p +:+ file) value) as [u|e]; [by apply IH|].
          destruct (isinstance e Exception); [|done].
          intros Hl%IH. rewrite length_app in Hl. simpl in Hl. lia. }
      apply Hgrow in Hloop. rewrite length_app in Hloop. simpl in Hloop. lia.
Qed.

(** A run of [main] for a governor alone. *)
Lemma main_governor_only h cpu_paths governor :
  well_behaved h → governor ≠ "" →
  ∃ out, main h cpu_paths (Some governor) None = Ok out ∧
         (code out = 0 ↔ some_written h "/scaling_governor" governor cpu_paths).
Proof.
  intros Hwb Hne. unfold main, write_governor.
  assert (Hasked : asked_governor (Some governor) = true).
  { simpl. by rewrite (proj2 (String.eqb_neq _ _) Hne). }
  rewrite Hasked. cbn [negb andb asked_max_freq].
  change (default "" (Some governor)) with governor.
  destruct (write_file_any h "/scaling_governor" governor cpu_paths Hwb)
    as (ok & err & -> & Hiff & _).
  unfold mbind, mret, result_bind, result_ret, Py.bind.
  destruct ok; cbn [negb]; eexists; (split; [done|]); cbn.
  - split; [intros _; by apply Hiff|done].
  - split; [done|]. intros Hsome. by apply Hiff in Hsome.
Qed.

(** The exit status of [main] from the namespace on. *)
Lemma main_exit_status
    (h : Host.t) (cpu_paths : list string)
    (governor : option string) (max_freq_khz : option Z) :
  well_behaved h →
  ∃ out, main h cpu_paths governor max_freq_khz = Ok out ∧
         (code out = 0 ∨ code out = 1) ∧
         (code out = 0 ↔
            asked_governor governor
            || asked_max_freq max_freq_khz = true ∧
            (asked_governor governor = true →
             some_written h "/scaling_governor" (default "" governor) cpu_paths) ∧
            (asked_max_freq max_freq_khz = true →
             some_written h "/scaling_max_freq" (pretty (default 0 max_freq_khz))
               cpu_paths)) ∧
         (code out = 1 → stderr out ≠ []).
Proof.
  intros Hwb. unfold main.
  destruct (write_file_any h "/scaling_governor" (default "" governor) cpu_paths Hwb)
    as (okg & errg & Hg & Hgiff & Hgerr).
  destruct (write_file_any h "/scaling_max_freq" (pretty (default 0 max_freq_khz))
              cpu_paths Hwb)
    as (okf & errf & Hf & Hfiff & Hferr).
  unfold write_governor, write_max_freq.
  destruct (asked_governor governor) eqn:Hag;
    destruct (asked_max_freq max_freq_khz) eqn:Haf;
    cbn [negb andb orb]; rewrite ?Hg, ?Hf;
    unfold mbind, mret, result_bind, result_ret, Py.bind; cbn [negb].
  - destruct okg; cbn [negb]; rewrite ?Hf.
    + destruct okf; eexists; (split; [done|]); cbn.
      * split; [by left|]. split; [|done]. split; [|done]. intros _.
        split; [done|]. split; intros _; [by apply Hgiff|by apply Hfiff].
      * split; [by right|]. split.
        -- split; [done|]. intros (_ & _ & Hsome). specialize (Hsome eq_refl).
           by apply Hfiff in Hsome.
        -- intros _ Hnil. by destruct errg, errf.
    + eexists. split; [done|]. cbn. split; [by right|]. split.
      * split; [done|]. intros (_ & Hsome & _). specialize (Hsome eq_refl).
        by apply Hgiff in Hsome.
      * intros _ Hnil. by destruct errg.
  - destruct okg; cbn [negb]; eexists; (split; [done|]); cbn.
    + split; [by left|]. split; [|done]. split; [|done]. intros _.
      split; [done|]. split; [|done]. intros _. by apply Hgiff.
    + split; [by right|]. split.
      * split; [done|]. intros (_ & Hsome & _). specialize (Hsome eq_refl).
        by apply Hgiff in Hsome.
      * intros _ Hnil. by destruct errg.
  - destruct okf; eexists; (split; [done|]); cbn.
    + split; [by left|]. split; [|done]. split; [|done]. intros _.
      split; [done|]. split; [done|]. intros _. by apply Hfiff.
    + split; [by right|]. split.
      * split; [done|]. intros (_ & _ & Hsome). specialize (Hsome eq_refl).
        by apply Hfiff in Hsome.
      * intros _ Hnil. by destruct errf.
  - eexists. split; [done|]. cbn. split; [by right|]. split; [|done].
    split; [done|]. by intros (? & _).
Qed.

End HelperFacts.

(** [scripts/power_helper.py] as a process, on a machine whose writes raise
    instances of [Exception] only: the script ends with status 0, 1 or 2.
    It ends with 2 exactly when argparse rejects the command line, and with
    0 exactly when it was asked for help, or when something was asked for
    and each setting asked for was written for at least one CPU. A run that
    ends with 1 has printed to [sys.stderr]. *)
Theorem helper_exit_status
    (parse_args : list string → PowerHelper.parsed)
    (h : Host.t) (cpu_paths : list string) (argv : list string) :
  Host.well_behaved h →
  ∃ out, PowerHelper.run parse_args h cpu_paths argv = Ok out ∧
         (PowerHelper.code out = 0 ∨ PowerHelper.code out = 1 ∨
          PowerHelper.code out = 2) ∧
         (PowerHelper.code out = 2 ↔ ∃ err, parse_args argv = PowerHelper.Usage err) ∧
         (PowerHelper.code out = 0 ↔
            (∃ text, parse_args argv = PowerHelper.Help text) ∨
            ∃ governor max_freq_khz,
              parse_args argv = PowerHelper.Namespace governor max_freq_khz ∧
              PowerHelper.asked_governor governor
              || PowerHelper.asked_max_freq max_freq_khz = true ∧
              (PowerHelper.asked_governor governor = true →
               some_written h "/scaling_governor" (default "" governor) cpu_paths) ∧
              (PowerHelper.asked_max_freq max_freq_khz = true →
               some_written h "/scaling_max_freq" (pretty (default 0 max_freq_khz))
                 cpu_paths)) ∧
         (PowerHelper.code out = 1 → PowerHelper.stderr out ≠ []).
Proof.
  intros Hwb. unfold PowerHelper.run.
  destruct (parse_args argv) as [governor max_freq_khz|err|text] eqn:Hparse.
  - destruct (main_exit_status h cpu_paths governor max_freq_khz Hwb)
      as (out & Hmain & Hcode & Hzero & Herr).
    exists out. split; [done|]. split; [destruct Hcode; auto|]. split; [|split; [|done]].
    + split; [intros Htwo; destruct Hcode; lia|]. by intros [err' [=]].
    + split.
      * intros Hok. right. exists governor, max_freq_khz. split; [done|]. by apply Hzero.
      * intros [[text [=]]|(g & f & [= <- <-] & Hasked)]. by apply Hzero.
  - eexists. split; [done|]. cbn. split; [auto|]. split; [|split; [|done]].
    + split; [by eexists|done].
    + split; [done|]. by intros [[text [=]]|(g & f & [=] & _)].
  - eexists. split; [done|]. cbn. split; [auto|]. split; [|split; [|done]].
    + split; [done|]. by intros [err [=]].
    + split; [|done]. intros _. left. by eexists.
Qed.

(** The command line [_run_helper] builds for a governor. *)
Definition governor_command (pm : PowerManager.t) (h : Host.t) (governor : string)
    : list string :=
  ["pkexec";
   if String.eqb (Host.sys_executable h) "" then "/usr/bin/python3"
   else Host.sys_executable h;
   PowerManager.helper_path pm; "--governor"; governor].

(** The two routes of [set_governor] do not ask for the same thing. Where
    the direct writes fail for some CPU and pkexec runs the helper script as
    root, [set_governor] reports success as soon as root could write the
    governor of one CPU, while the direct route reports success only when
    every CPU was written. (The helper globs the cpufreq directories with
    the pattern of the manager, so both go over the same CPUs.) *)
Theorem set_governor_pkexec_succeeds_on_any_cpu
    (pm : PowerManager.t) (h root : Host.t) (governor : string)
    (govs : PowerManager.Governors) :
  Host.well_behaved h →
  Host.well_behaved root →
  PowerManager.use_pkexec pm = true →
  Host.path_exists h (PowerManager.helper_path pm) = true →
  is_Some (Host.which h "pkexec") →
  PowerManager.get_governors pm h = Ok govs →
  governor ≠ "" →
  supported govs governor →
  (∃ path, path ∈ PowerManager.cpu_paths pm ∧
           PowerManagerOps.write_fails h "/scaling_governor" governor path = true) →
  Host.subprocess_run h (governor_command pm h governor)
  = Py.bind (PowerHelper.main root (PowerManager.cpu_paths pm) (Some governor) None)
      (fun o => Ok (PowerHelper.completed o)) →
  ∃ r, PowerManager.set_governor pm h governor = Ok r ∧
       (Host.success r = true ↔
          some_written root "/scaling_governor" governor (PowerManager.cpu_paths pm)).
Proof.
  intros Hwb Hroot Hpk Hhelper Hwhich Hgovs Hne Hsup (bad & Hbad & Hfails) Hrun.
  unfold PowerManager.set_governor.
  rewrite (proj2 (String.eqb_neq _ _) Hne).
  destruct (PowerManager.cpu_paths pm) as [|path0 rest] eqn:Hpaths.
  { by apply elem_of_nil in Hbad. }
  rewrite Hgovs. unfold mbind at 1, result_bind at 1, Py.bind at 1.
  rewrite (proj2 (supported_test govs governor) Hsup).
  rewrite (write_all_failing h _ _ _ Hwb).
  unfold mbind, result_bind, Py.bind.
  destruct (List.filter _ (path0 :: rest)) as [|bad' failed] eqn:Hfilter.
  { rewrite (proj1 (filter_nil_iff _ _) Hfilter bad Hbad) in Hfails. done. }
  rewrite Hpk. unfold PowerManager._run_helper.
  rewrite Hhelper, (bool_decide_eq_true_2 _ Hwhich). cbn [negb].
  rewrite (proj2 (String.eqb_neq _ _) Hne). cbn [app].
  unfold governor_command in Hrun. rewrite Hrun.
  destruct (main_governor_only root (path0 :: rest) governor Hroot Hne)
    as (out & Hmain & Hzero).
  rewrite Hmain. cbn [Py.bind PowerHelper.completed Host.returncode].
  destruct (PowerHelper.code out =? 0) eqn:Hc; eexists; (split; [done|]); simpl.
  - apply Z.eqb_eq in Hc. split; [|done]. intros _. by apply Hzero.
  - apply Z.eqb_neq in Hc. split; [done|]. intros Hsome. by apply Hzero in Hsome.
Qed.

(** A machine with two CPUs. *)
Definition cpu0 : string := "/sys/devices/system/cpu/cpu0/cpufreq".
Definition cpu1 : string := "/sys/devices/system/cpu/cpu1/cpufreq".

Definition two_cpu_manager (use_pkexec : bool) : PowerManager.t :=
  {| PowerManager.cpu_paths := [cpu0; cpu1];
     PowerManager.use_pkexec := use_pkexec;
     PowerManager.helper_path := "/opt/project-monitor/scripts/power_helper.py" |}.

Definition host_with (write : string → string → result unit)
    (run : list string → result Host.CompletedProcess) : Host.t :=
  {| Host.readline := fun _ => Ok "performance powersave";
     Host.write := write;
     Host.parse_int := fun _ => Raise (Exn ValueError "invalid literal for int()");
     Host.path_exists := fun _ => true;
     Host.which := fun _ => Some "/usr/bin/pkexec";
     Host.sys_executable := "/usr/bin/python3";
     Host.subprocess_run := run |}.

Lemma host_with_well_behaved write run :
  (∀ p v e, write p v = Raise e → isinstance e Exception = true) →
  (∀ cmd e, run cmd = Raise e → isinstance e Exception = true) →
  Host.well_behaved (host_with write run).
Proof.
  intros Hw Hrun. unfold Host.well_behaved, Host.raises_exceptions_only.
  repeat split; simpl; try done.
  intros s e [= <-]. reflexivity.
Qed.

(** The files of the second CPU refuse the write with [exc]. *)
Definition second_cpu_refuses (exc : exn) (path value : string) : result unit :=
  if String.prefix cpu1 path then Raise exc else Ok tt.

Definition no_pkexec (cmd : list string) : result Host.CompletedProcess :=
  Raise (Exn SubprocessTimeoutExpired "Command timed out after 10 seconds").

(** The user may not write the files of the second CPU. *)
Definition user_host : Host.t :=
  host_with (second_cpu_refuses (Exn PermissionError "[Errno 13] Permission denied"))
    no_pkexec.

(** For root the second CPU is busy. *)
Definition root_host : Host.t :=
  host_with (second_cpu_refuses (Exn OSError "[Errno 16] Device or resource busy"))
    no_pkexec.

(** The user may write nothing; pkexec runs the helper as root. *)
Definition desktop_host : Host.t :=
  host_with (fun _ _ => Raise (Exn PermissionError "[Errno 13] Permission denied"))
    (fun _ => Py.bind (PowerHelper.main root_host [cpu0; cpu1] (Some "performance") None)
                (fun o => Ok (PowerHelper.completed o))).

Lemma second_cpu_refuses_exception exc :
  isinstance exc Exception = true →
  ∀ p v e, second_cpu_refuses exc p v = Raise e → isinstance e Exception = true.
Proof.
  intros Hexc p v e. unfold second_cpu_refuses.
  destruct (String.prefix cpu1 p); [|done]. by intros [= <-].
Qed.

Lemma user_host_well_behaved : Host.well_behaved user_host.
Proof.
  apply host_with_well_behaved.
  - by apply second_cpu_refuses_exception.
  - by intros cmd e [= <-].
Qed.

Lemma root_host_well_behaved : Host.well_behaved root_host.
Proof.
  apply host_with_well_behaved.
  - by apply second_cpu_refuses_exception.
  - by intros cmd e [= <-].
Qed.

Lemma desktop_host_well_behaved : Host.well_behaved desktop_host.
Proof.
  apply host_with_well_behaved.
  - by intros p v e [= <-].
  - intros cmd e Hrun. vm_compute in Hrun. discriminate Hrun.
Qed.

Lemma set_governor_succeeds_iff_all_written_witness :
  ∃ r, PowerManager.set_governor (two_cpu_manager false) user_host "performance" = Ok r ∧
       Host.success r = false ∧
       Host.message r = "No se pudo escribir en 1 CPU(s). Requiere permisos.".
Proof.
  destruct (set_governor_succeeds_iff_all_written (two_cpu_manager false) user_host
              "performance"
              {| PowerManager.current := Some "performance powersave";
                 PowerManager.available := ["performance"; "powersave"];
                 PowerManager.max_freq := Some None;
                 PowerManager.min_freq := Some None |}
              user_host_well_behaved eq_refl eq_refl)
    as (r & Hr & Hiff & Hmsg).
  exists r. split; [exact Hr|]. split.
  - destruct (Host.success r); [|reflexivity].
    destruct (proj1 Hiff eq_refl) as (_ & _ & _ & Hall).
    discriminate (Hall cpu1 ltac:(right; left)).
  - apply Hmsg; [discriminate|right; left|discriminate].
Defined.

Lemma set_max_freq_succeeds_iff_all_written_witness :
  ∃ r, PowerManagerOps.set_max_freq (two_cpu_manager false) user_host 2400000 = Ok r ∧
       Host.success r = false.
Proof.
  destruct (set_max_freq_succeeds_iff_all_written (two_cpu_manager false) user_host
              2400000 user_host_well_behaved eq_refl)
    as (r & Hr & _ & Hiff).
  exists r. split; [exact Hr|].
  destruct (Host.success r); [|reflexivity].
  destruct (proj1 Hiff eq_refl) as (_ & _ & Hall).
  discriminate (Hall cpu1 ltac:(right; left)).
Defined.

(** A parser for the command lines [--governor NAME] and [--help]. *)
Definition parse_governor (argv : list string) : PowerHelper.parsed :=
  match argv with
  | [flag; value] =>
      if String.eqb flag "--governor" then PowerHelper.Namespace (Some value) None
      else PowerHelper.Usage ["usage: power_helper.py [-h] [--governor GOVERNOR]"]
  | [flag] =>
      if String.eqb flag "--help"
      then PowerHelper.Help ["usage: power_helper.py [-h] [--governor GOVERNOR]"]
      else PowerHelper.Usage ["usage: power_helper.py [-h] [--governor GOVERNOR]"]
  | _ => PowerHelper.Namespace None None
  end.

Lemma helper_exit_status_witness :
  (∃ out, PowerHelper.run parse_governor root_host [cpu0; cpu1]
            ["--governor"; "performance"] = Ok out ∧
          PowerHelper.code out = 0) ∧
  (∃ out, PowerHelper.run parse_governor root_host [cpu0; cpu1] ["--turbo"; "on"] = Ok out ∧
          PowerHelper.code out = 2) ∧
  (∃ out, PowerHelper.run parse_governor root_host [cpu0; cpu1] [] = Ok out ∧
          PowerHelper.code out = 1).
Proof.
  split; [|split].
  - destruct (helper_exit_status parse_governor root_host [cpu0; cpu1]
                ["--governor"; "performance"] root_host_well_behaved)
      as (out & Hrun & _ & _ & Hzero & _).
    exists out. split; [exact Hrun|].
    apply Hzero. right. exists (Some "performance"), None.
    split; [reflexivity|]. split; [reflexivity|]. split; [|discriminate].
    intros _. exists cpu0. split; [left|reflexivity].
  - destruct (helper_exit_status parse_governor root_host [cpu0; cpu1]
                ["--turbo"; "on"] root_host_well_behaved)
      as (out & Hrun & _ & Htwo & _).
    exists out. split; [exact Hrun|].
    apply Htwo. eexists. reflexivity.
  - destruct (helper_exit_status parse_governor root_host [cpu0; cpu1]
                [] root_host_well_behaved)
      as (out & Hrun & Hcode & Htwo & Hzero & _).
    exists out. split; [exact Hrun|].
    destruct Hcode as [H0|[H1|H2]]; [|exact H1|].
    + apply Hzero in H0 as [[text Hhelp]|(g & f & Hns & Hasked & _)].
      * discriminate Hhelp.
      * injection Hns as <- <-. discriminate Hasked.
    + apply Htwo in H2 as [err Husage]. discriminate Husage.
Defined.

Lemma set_governor_pkexec_succeeds_on_any_cpu_witness :
  ∃ r, PowerManager.set_governor (two_cpu_manager true) desktop_host "performance" = Ok r ∧
       Host.success r = true ∧
       PowerManagerOps.write_fails root_host "/scaling_governor" "performance" cpu1 = true.
Proof.
  destruct (set_governor_pkexec_succeeds_on_any_cpu (two_cpu_manager true)
              desktop_host root_host "performance"
              {| PowerManager.current := Some "performance powersave";
                 PowerManager.available := ["performance"; "powersave"];
                 PowerManager.max_freq := Some None;
                 PowerManager.min_freq := Some None |}
              desktop_host_well_behaved root_host_well_behaved
              eq_refl eq_refl ltac:(by eexists) eq_refl ltac:(discriminate)
              ltac:(right; left)
              ltac:(exists cpu0; split; [left|reflexivity]) eq_refl)
    as (r & Hr & Hiff).
  exists r. split; [exact Hr|]. split; [|reflexivity].
  apply Hiff. exists cpu0. split; [left|reflexivity].
Defined.

(* ===================================================================== *)
(** ** [config.py]: defaults and the user's file *)
(* ===================================================================== *)

Module Config.

(** The values [json.load] builds. A dictionary is the list of its items in
    insertion order. *)
#[warnings="-register-all"] Inductive json :=
| JNull
| JBool (b : bool)
| JNum (q : Q)
| JStr (s : string)
| JList (l : list json)
| JDict (d : list (string * json)).

Definition dict := list (string * json).

(** [d.get(key)]. *)
Fixpoint get (d : dict) (key : string) : option json :=
  match d with
  | [] => None
  | (k, v) :: rest => if String.eqb k key then Some v else get rest key
  end.

(** [d[key] = value]: an existing key keeps its place, a new one goes to
    the end. *)
Fixpoint set (d : dict) (key : string) (value : json) : dict :=
  match d with
  | [] => [(key, value)]
  | (k, v) :: rest =>
      if String.eqb k key then (k, value) :: rest else (k, v) :: set rest key value
  end.

(** What one step of the loop of [_deep_update] leaves under [key], [old]
    being [target.get(key)]: two dictionaries are merged by the recursive
    call, in every other case the value of the source is stored. *)
Fixpoint merge (old : option json) (value : json) {struct value} : json :=
  match value with
  | JDict source =>
      match old with
      | Some (JDict target) =>
          JDict ((fix update (target : dict) (source : dict) {struct source} : dict :=
                    match source with
                    | [] => target
                    | (key, value') :: rest =>
                        update (set target key (merge (get target key) value')) rest
                    end) target source)
      | _ => value
      end
  | _ => value
  end.

(** [_deep_update(target, source)]: the target after the call. *)
Fixpoint _deep_update (target source : dict) : dict :=
  match source with
  | [] => target
  | (key, value) :: rest =>
      _deep_update (set target key (merge (get target key) value)) rest
  end.

Definition is_dict (j : json) : bool :=
  match j with JDict _ => true | _ => false end.

(** [DEFAULT_CONFIG]. *)
Definition DEFAULT_CONFIG : dict :=
  [ ("update_interval", JNum 2%Q);
    ("history_duration", JNum 3600%Q);
    ("process_refresh_interval", JNum 5%Q);
    ("process_list_limit", JNum 50%Q);
    ("use_pkexec", JBool false);
    ("alerts", JDict [ ("cpu_warn", JNum 85%Q); ("cpu_crit", JNum 95%Q);
                       ("ram_warn", JNum 85%Q); ("ram_crit", JNum 95%Q) ]);
    ("theme", JStr "dark");
    ("rgb_enabled", JBool false);
    ("power_profiles",
     JDict [ ("Silencioso", JDict [("governor", JStr "powersave")]);
             ("Equilibrado", JDict [("governor", JStr "schedutil")]);
             ("Rendimiento", JDict [("governor", JStr "performance")]) ]);
    ("profiles",
     JDict [ ("juego", JDict [("governor", JStr "performance"); ("max_freq_khz", JNull)]);
             ("bajo_consumo", JDict [("governor", JStr "powersave")]) ]) ].

(** [load_config], the first call in a process: [file] is [None] when
    [config.json] does not exist, and otherwise the outcome of opening and
    parsing it. A value that is not a dictionary has no [items], and the
    [AttributeError] is swallowed with every other [Exception]. (The copy of
    [DEFAULT_CONFIG] is shallow: the nested default sections are updated in
    place, so that a later call starts from the updated sections.) *)
Definition load_config (file : option (result json)) : result dict :=
  match file with
  | None => Ok DEFAULT_CONFIG
  | Some (Ok (JDict user_cfg)) => Ok (_deep_update DEFAULT_CONFIG user_cfg)
  | Some (Ok _) => Ok DEFAULT_CONFIG
  | Some (Raise e) => if isinstance e Exception then Ok DEFAULT_CONFIG else Raise e
  end.

(** [cfg[k1][k2]...], written with [get]: [None] where a key is missing or
    the value on the way is not a dictionary. *)
Fixpoint lookup_path (j : json) (path : list string) : option json :=
  match path with
  | [] => Some j
  | key :: rest =>
      match j with
      | JDict d => match get d key with
                   | Some v => lookup_path v rest
                   | None => None
                   end
      | _ => None
      end
  end.

(** The keys of every dictionary are distinct, as those of a Python [dict]
    are. *)
Fixpoint unique_keys (j : json) : bool :=
  match j with
  | JDict d =>
      (fix items (d : dict) : bool :=
         match d with
         | [] => true
         | (k, v) :: rest =>
             negb (bool_decide (is_Some (get rest k))) && unique_keys v && items rest
         end) d
  | _ => true
  end.

(** The source says nothing about [path]: on the way down it has a
    dictionary for each key until it lacks one. *)
Fixpoint untouched (source : dict) (path : list string) : Prop :=
  match path with
  | [] => False
  | key :: rest =>
      match get source key with
      | None => True
      | Some (JDict sub) => untouched sub rest
      | Some _ => False
      end
  end.

End Config.

Section ConfigFacts.

Import Config.

Implicit Types (target source d : dict) (key : string) (path : list string).

Lemma merge_dicts target source :
  merge (Some (JDict target)) (JDict source) = JDict (_deep_update target source).
Proof. reflexivity. Qed.

Lemma merge_leaf old value : is_dict value = false → merge old value = value.
Proof. by destruct value. Qed.

Lemma merge_onto_leaf old source :
  (∀ target, old ≠ Some (JDict target)) → merge old (JDict source) = JDict source.
Proof. intros Hold. destruct old as [[]|]; try done. by destruct (Hold d). Qed.

Lemma get_set_eq d key value : get (set d key value) key = Some value.
Proof.
  induction d as [|[k v] rest IH]; simpl.
  - by rewrite String.eqb_refl.
  - destruct (String.eqb k key) eqn:Hk; simpl; by rewrite Hk.
Qed.

Lemma get_set_ne d key key' value :
  key ≠ key' → get (set d key value) key' = get d key'.
Proof.
  intros Hne. induction d as [|[k v] rest IH]; simpl.
  - by rewrite (proj2 (String.eqb_neq _ _) Hne).
  - destruct (String.eqb k key) eqn:Hk; simpl.
    + apply String.eqb_eq in Hk as ->.
      by rewrite (proj2 (String.eqb_neq _ _) Hne).
    + by rewrite IH.
Qed.

Lemma unique_keys_cons key value rest :
  unique_keys (JDict ((key, value) :: rest))
  = negb (bool_decide (is_Some (get rest key))) && unique_keys value
    && unique_keys (JDict rest).
Proof. reflexivity. Qed.

Lemma unique_keys_get source key value :
  unique_keys (JDict source) = true → get source key = Some value →
  unique_keys value = true.
Proof.
  induction source as [|[k v] rest IH]; [done|].
  rewrite unique_keys_cons, !andb_true_iff. intros [[_ Hv] Hrest]. simpl.
  destruct (String.eqb k key); [by intros [= <-]|by apply IH].
Qed.

(** What [_deep_update] leaves under a key. *)
Lemma get_deep_update source : ∀ target key,
  unique_keys (JDict source) = true →
  get (_deep_update target source) key
  = match get source key with
    | Some value => Some (merge (get target key) value)
    | None => get target key
    end.
Proof.
  induction source as [|[k v] rest IH]; intros target key; [done|].
  rewrite unique_keys_cons, !andb_true_iff, negb_true_iff, bool_decide_eq_false.
  intros [[Hfresh _] Hrest]. cbn [_deep_update get].
  rewrite IH by done.
  destruct (String.eqb k key) eqn:Hk.
  - apply String.eqb_eq in Hk as ->.
    destruct (get rest key) as [v'|]; [by destruct Hfresh|].
    by rewrite get_set_eq.
  - apply String.eqb_neq in Hk. by rewrite get_set_ne.
Qed.

(** A leaf of the source is found in what the merge leaves. *)
Lemma merge_source_wins path : ∀ old value v,
  unique_keys value = true → is_dict v = false →
  lookup_path value path = Some v →
  lookup_path (merge old value) path = Some v.
Proof.
  induction path as [|key rest IH]; intros old value v Huniq Hleaf.
  - intros [= ->]. by rewrite merge_leaf.
  - destruct value as [| | | | |source]; try done.
    cbn [lookup_path]. destruct (get source key) as [value|] eqn:Hget; [|done].
    intros Hrest.
    destruct old as [[| | | | |target]|];
      try (rewrite merge_onto_leaf by done; cbn [lookup_path]; by rewrite Hget).
    rewrite merge_dicts. cbn [lookup_path].
    rewrite get_deep_update, Hget by done.
    apply IH; [by eapply unique_keys_get|done..].
Qed.

(** A value of the target the source says nothing about stays. *)
Lemma deep_update_untouched path : ∀ target source v,
  unique_keys (JDict source) = true →
  lookup_path (JDict target) path = Some v →
  untouched source path →
  lookup_path (JDict (_deep_update target source)) path = Some v.
Proof.
  induction path as [|key rest IH]; intros target source v Huniq; [done|].
  cbn [lookup_path untouched]. rewrite get_deep_update by done.
  destruct (get target key) as [tv|] eqn:Htarget; [|done].
  intros Hrest.
  destruct (get source key) as [[| | | | |sub]|] eqn:Hsource; try done.
  intros Hsub.
  destruct tv as [| | | | |t'];
    try (destruct rest; [done|discriminate Hrest]).
  rewrite merge_dicts. apply IH; [by eapply unique_keys_get|done..].
Qed.

End ConfigFacts.

(** Every setting of the user's file is in the configuration: a value of
    the source that is not a dictionary is found, under the same keys, in
    the target after [_deep_update], whatever the target held, and so in
    what [load_config] returns. *)
Theorem user_settings_win
    (target source : Config.dict) (path : list string) (v : Config.json) :
  Config.unique_keys (Config.JDict source) = true →
  Config.is_dict v = false →
  Config.lookup_path (Config.JDict source) path = Some v →
  Config.lookup_path (Config.JDict (Config._deep_update target source)) path = Some v ∧
  ∃ config, Config.load_config (Some (Ok (Config.JDict source))) = Ok config ∧
            Config.lookup_path (Config.JDict config) path = Some v.
Proof.
  intros Huniq Hleaf Hpath.
  assert (Hall : ∀ t, Config.lookup_path (Config.JDict (Config._deep_update t source)) path
                      = Some v).
  { intros t. rewrite <- merge_dicts. by apply merge_source_wins. }
  split; [apply Hall|]. eexists. split; [reflexivity|apply Hall].
Qed.

(** A default the user's file says nothing about stays: a value of the
    target is found under the same keys after [_deep_update] when the
    source, on the way down these keys, lacks one of them; so every such
    entry of [DEFAULT_CONFIG] is in what [load_config] returns. *)
Theorem unmentioned_defaults_stay
    (target source : Config.dict) (path : list string) (v : Config.json) :
  Config.unique_keys (Config.JDict source) = true →
  Config.untouched source path →
  (Config.lookup_path (Config.JDict target) path = Some v →
   Config.lookup_path (Config.JDict (Config._deep_update target source)) path = Some v) ∧
  (Config.lookup_path (Config.JDict Config.DEFAULT_CONFIG) path = Some v →
   ∃ config, Config.load_config (Some (Ok (Config.JDict source))) = Ok config ∧
             Config.lookup_path (Config.JDict config) path = Some v).
Proof.
  intros Huniq Huntouched. split.
  - intros Hpath. by apply deep_update_untouched.
  - intros Hpath. eexists. split; [reflexivity|]. by apply deep_update_untouched.
Qed.

(** A user's file that lowers one alert threshold and changes the theme. *)
Definition user_file : Config.dict :=
  [ ("alerts", Config.JDict [("cpu_warn", Config.JNum 70%Q)]);
    ("theme", Config.JStr "light") ].

Lemma user_settings_win_witness :
  ∃ config, Config.load_config (Some (Ok (Config.JDict user_file))) = Ok config ∧
            Config.lookup_path (Config.JDict config) ["alerts"; "cpu_warn"]
            = Some (Config.JNum 70%Q).
Proof.
  exact (proj2 (user_settings_win Config.DEFAULT_CONFIG user_file ["alerts"; "cpu_warn"]
                  (Config.JNum 70%Q) eq_refl eq_refl eq_refl)).
Defined.

Lemma unmentioned_defaults_stay_witness :
  ∃ config, Config.load_config (Some (Ok (Config.JDict user_file))) = Ok config ∧
            Config.lookup_path (Config.JDict config) ["alerts"; "cpu_crit"]
            = Some (Config.JNum 95%Q).
Proof.
  exact (proj2 (unmentioned_defaults_stay Config.DEFAULT_CONFIG user_file
                  ["alerts"; "cpu_crit"] (Config.JNum 95%Q) eq_refl I) eq_refl).
Defined.

(* ===================================================================== *)
(** ** [controller/app_controller.py]: the current reading and the history *)
(* ===================================================================== *)

Section CurrentFacts.

Import AppController.

(** The current reading is the one the history ends with. *)
Definition current_is_newest (c : AppController.t) : Prop :=
  (1 ≤ Deque.maxlen (_metrics_history c))%nat ∧
  match get_current_metrics c with
  | None => get_metrics_history c = []
  | Some m => last (get_metrics_history c) = Some (entry_of m) ∧
              is_Some (SystemData.read_time m)
  end.

Lemma append_last {A} (d : Deque.deque A) (x : A) :
  (1 ≤ Deque.maxlen d)%nat → last (Deque.items (Deque.append d x)) = Some x.
Proof.
  intros Hcap. unfold Deque.append.
  destruct (Deque.maxlen d <? length (Deque.items d ++ [x]))%nat eqn:Hfull; simpl.
  - destruct (Deque.items d) as [|a l]; simpl.
    + apply Nat.ltb_lt in Hfull. simpl in Hfull. lia.
    + apply last_snoc.
  - apply last_snoc.
Qed.

Lemma update_metrics_newest c env now_iso :
  current_is_newest c → current_is_newest (update_metrics c env now_iso).1.
Proof.
  intros [Hcap Hcur]. split; [by rewrite update_metrics_maxlen|].
  unfold get_current_metrics, get_metrics_history, Deque.to_list in *.
  destruct (reading c env now_iso) as [m|] eqn:Hr.
  - destruct (update_metrics_collects _ _ _ _ Hr) as [-> ->].
    split; [by apply append_last|].
    revert Hr. unfold reading, stamp.
    destruct (SystemData.get_all_metrics _ _) as [[m0 sd']|]; [|done].
    intros [= <-]. by eexists.
  - by destruct (update_metrics_fails _ _ _ Hr) as [-> ->].
Qed.

Lemma start_monitoring_newest cb os_start m :
  current_is_newest (Monitoring.controller m) →
  current_is_newest (Monitoring.controller (Monitoring.start_monitoring cb os_start m).1).
Proof.
  unfold Monitoring.start_monitoring.
  destruct (_is_monitoring (Monitoring.controller m)); [done|].
  by destruct (ThreadManager.start_data_collection_thread _ _ _ _ _) as [w' [[]|]].
Qed.

Lemma stop_monitoring_newest fuel m :
  current_is_newest (Monitoring.controller m) →
  current_is_newest (Monitoring.controller (Monitoring.stop_monitoring fuel m)).
Proof.
  unfold Monitoring.stop_monitoring.
  destruct (negb (_is_monitoring (Monitoring.controller m))); [done|].
  by destruct (ThreadManager.stop_thread _ _ _ _).
Qed.

Lemma step_newest m m' :
  Monitoring.step m m' →
  current_is_newest (Monitoring.controller m) →
  current_is_newest (Monitoring.controller m').
Proof.
  destruct 1; intros Hcur; simpl.
  - by apply start_monitoring_newest.
  - by apply stop_monitoring_newest.
  - unfold Monitoring.cleanup. simpl.
    by apply (stop_monitoring_newest fuel
                {| Monitoring.controller :=
                     Monitoring.say "[AppController] Cleaning up..." (Monitoring.controller m);
                   Monitoring.manager := Monitoring.manager m |}).
  - by apply update_metrics_newest.
  - done.
  - done.
Qed.

End CurrentFacts.

(** Whatever is called on a controller and whatever its collection cycles
    run into, [get_current_metrics] and [get_metrics_history] agree: before
    the first reading both are empty, and afterwards the history ends with
    the entry of the current reading, which carries its [read_time]. A cycle
    that fails changes neither, and a view that raises loses neither. *)
Theorem current_reading_is_newest_entry
    (io : result (option SystemData.snetio)) (now : Q)
    (c0 : AppController.t) (m : Monitoring.t) :
  AppController.init io now = Ok c0 →
  rtc Monitoring.step
    {| Monitoring.controller := c0; Monitoring.manager := ThreadManager.init |} m →
  match AppController.get_current_metrics (Monitoring.controller m) with
  | None => AppController.get_metrics_history (Monitoring.controller m) = []
  | Some cur =>
      last (AppController.get_metrics_history (Monitoring.controller m))
      = Some (AppController.entry_of cur) ∧
      is_Some (SystemData.read_time cur)
  end.
Proof.
  intros Hinit Hsteps.
  assert (Hstart : current_is_newest c0).
  { revert Hinit. unfold AppController.init, AppController.init_with.
    unfold mbind, result_bind, Py.bind.
    destruct (SystemData.new io now) as [sd|]; [|done].
    intros [= <-]. split; [|done].
    apply Nat.leb_le. vm_compute. reflexivity. }
  assert (Hend : current_is_newest (Monitoring.controller m)).
  { change c0 with (Monitoring.controller
                      {| Monitoring.controller := c0;
                         Monitoring.manager := ThreadManager.init |}) in Hstart.
    revert Hstart. induction Hsteps; eauto using step_newest. }
  apply Hend.
Qed.

Lemma current_reading_is_newest_entry_witness :
  ∃ c0, AppController.init (SystemData.net_io_counters (calm_env 0)) 0 = Ok c0 ∧
        ∃ cur,
          AppController.get_current_metrics
            (AppController.update_metrics c0 (calm_env 2) "2026-01-01T00:00:02").1
          = Some cur ∧
          SystemData.timestamp cur = 2%Q ∧
          last (AppController.get_metrics_history
                  (AppController.update_metrics c0 (calm_env 2) "2026-01-01T00:00:02").1)
          = Some (AppController.entry_of cur).
Proof.
  eexists. split; [reflexivity|].
  eexists. split; [reflexivity|]. split; [reflexivity|].
  match goal with
  | |- last (AppController.get_metrics_history (AppController.update_metrics ?c0 _ _).1) = _ =>
      pose proof (current_reading_is_newest_entry
                    (SystemData.net_io_counters (calm_env 0)) 0 c0 _ eq_refl
                    (rtc_once _ _
                       (Monitoring.step_update (calm_env 2) "2026-01-01T00:00:02"
                          {| Monitoring.controller := c0;
                             Monitoring.manager := ThreadManager.init |}))) as Hnewest
  end.
  exact (proj1 Hnewest).
Defined.

(* ===================================================================== *)
(** ** [model/msi_ec_manager.py] and [scripts/msi_ec_helper.py] *)
(* ===================================================================== *)

Module MsiEcManager.

Import Host.

Record t := { use_pkexec : bool; helper_path : string }.

Definition BASE : string := "/sys/devices/platform/msi-ec".

(** [parent / name], the [Path] whose [name] is [name]. *)
Definition child (parent name : string) : string := parent +:+ "/" +:+ name.

(** [_run_helper]: the helper under pkexec, asked for [--target value]. *)
Definition _run_helper (m : t) (h : Host.t) (target value : string) : result Response :=
  if negb (path_exists h (helper_path m)) then
    Ok {| success := false; message := "Helper msi-ec no encontrado" |}
  else if negb (bool_decide (is_Some (which h "pkexec"))) then
    Ok {| success := false; message := "pkexec no disponible" |}
  else
    let python_bin :=
      if String.eqb (sys_executable h) "" then "/usr/bin/python3" else sys_executable h in
    let cmd := ["pkexec"; python_bin; helper_path m; "--" +:+ target; value] in
    match subprocess_run h cmd with
    | Ok result =>
        if returncode result =? 0 then
          let text := strip (out_text result) in
          Ok {| success := true;
                message := if String.eqb text "" then target +:+ " aplicado" else text |}
        else
          let text := strip (err_text result) in
          Ok {| success := false;
                message := if String.eqb text "" then "pkexec falló ajustando " +:+ target
                           else text |}
    | Raise exc =>
        if isinstance exc SubprocessError then
          Ok {| success := false; message := "Error ejecutando pkexec: " +:+ str exc |}
        else Raise exc
    end.




End MsiEcManager.

Module MsiEcHelper.

Import Host.

Definition BASE : string := "/sys/devices/platform/msi-ec".
Definition BRIGHTNESS_PATH : string :=
  "/sys/class/leds/msiacpi::kbd_backlight/brightness".

(** The namespace [parse_args] returns. *)
Record Args := {
  fan_mode : option string; shift_mode : option string;
  cooler_boost : option string; brightness : option Z }.


(** What [parse_args] does with a command line: a namespace; or the usage
    message on [sys.stderr] and [sys.exit(2)]; or, for [--help], the help
    text on [sys.stdout] and [sys.exit(0)]. *)
Inductive parsed :=
| Namespace (args : Args)
| Usage (text : string)
| Help (text : string).



(** [write_value]: whether the write went through, and what went to
    [sys.stderr]. *)
Definition write_value (h : Host.t) (path value : string) : result (bool * list string) :=
  match write h path value with
  | Ok _ => Ok (true, [])
  | Raise exc =>
      if isinstance exc Exception
      then Ok (false, ["Error escribiendo " +:+ path +:+ ": " +:+ str exc])
      else Raise exc
  end.

Definition truthy (o : option string) : bool :=
  match o with Some s => negb (String.eqb s "") | None => false end.

(** One [if ...: ok = write_value(...) and ok] of [main]. *)
Definition write_if (h : Host.t) (wanted : bool) (path value : string)
    (acc : bool * list string) : result (bool * list string) :=
  if wanted then
    '(written, err) ← write_value h path value;
    mret (written && acc.1, acc.2 ++ err)
  else mret acc.

(** The body of [main] from the namespace on that [parser.parse_args()] has
    returned: the exit status and the lines on [sys.stderr]. The parse
    itself is in [run] below. *)
Definition main (h : Host.t) (args : Args) : result (Z * list string) :=
  if negb (truthy (fan_mode args) || truthy (shift_mode args)
           || truthy (cooler_boost args)
           || bool_decide (is_Some (brightness args))) then
    Ok (1, ["Nada que aplicar"])
  else
    '(ok, err) ← write_if h (truthy (fan_mode args)) (MsiEcManager.child BASE "fan_mode")
                   (default "" (fan_mode args)) (true, []);
    '(ok, err) ← write_if h (truthy (shift_mode args))
                   (MsiEcManager.child BASE "shift_mode")
                   (default "" (shift_mode args)) (ok, err);
    '(ok, err) ← write_if h (bool_decide (is_Some (cooler_boost args)))
                   (MsiEcManager.child BASE "cooler_boost")
                   (default "" (cooler_boost args)) (ok, err);
    '(ok, err) ← write_if h (bool_decide (is_Some (brightness args))) BRIGHTNESS_PATH
                   (pretty (default 0 (brightness args))) (ok, err);
    mret (if ok : bool then 0 else 1, err).

(** The script as a process, [sys.exit(main())]: [main] parses the command
    line first. [argv] is what follows the script's path. *)
Definition run (parse_args : list string → parsed) (h : Host.t) (argv : list string)
    : result CompletedProcess :=
  match parse_args argv with
  | Usage text => Ok {| returncode := 2; out_text := ""; err_text := text |}
  | Help text => Ok {| returncode := 0; out_text := text; err_text := "" |}
  | Namespace args =>
      '(code, err) ← main h args;
      mret {| returncode := code; out_text := ""; err_text := PowerHelper.printed err |}
  end.

End MsiEcHelper.

Section MsiFacts.

Import Host MsiEcManager.

Implicit Types (h : Host.t) (m : MsiEcManager.t).

Lemma helper_write_value_ok h path value :
  well_behaved h →
  ∃ err, MsiEcHelper.write_value h path value
         = Ok (negb (raises (write h path value)), err).
Proof.
  intros (_ & Hw & _). unfold MsiEcHelper.write_value.
  destruct (write h path value) as [|e] eqn:Hwrite; [by eexists|].
  rewrite (Hw _ _ e Hwrite). by eexists.
Qed.

Lemma write_if_ok h wanted path value ok err :
  well_behaved h →
  ∃ err', MsiEcHelper.write_if h wanted path value (ok, err)
          = Ok ((if wanted then negb (raises (write h path value)) else true) && ok, err').
Proof.
  intros Hwb. unfold MsiEcHelper.write_if. destruct wanted; [|by eexists].
  destruct (helper_write_value_ok h path value Hwb) as [err' ->].
  by eexists.
Qed.

Lemma wanted_written (wanted b : bool) :
  (if wanted then negb b else true) = true ↔ (wanted = true → b = false).
Proof. destruct wanted, b; naive_solver. Qed.



(** The exit status of [main] from the namespace on. *)
Lemma msi_main_exit_status (h : Host.t) (args : MsiEcHelper.Args) :
  well_behaved h →
  ∃ code err,
    MsiEcHelper.main h args = Ok (code, err) ∧
    (code = 0 ∨ code = 1) ∧
    (code = 0 ↔
       MsiEcHelper.truthy (MsiEcHelper.fan_mode args)
       || MsiEcHelper.truthy (MsiEcHelper.shift_mode args)
       || MsiEcHelper.truthy (MsiEcHelper.cooler_boost args)
       || bool_decide (is_Some (MsiEcHelper.brightness args)) = true ∧
       (MsiEcHelper.truthy (MsiEcHelper.fan_mode args) = true →
        raises (write h (child MsiEcHelper.BASE "fan_mode")
                  (default "" (MsiEcHelper.fan_mode args))) = false) ∧
       (MsiEcHelper.truthy (MsiEcHelper.shift_mode args) = true →
        raises (write h (child MsiEcHelper.BASE "shift_mode")
                  (default "" (MsiEcHelper.shift_mode args))) = false) ∧
       (∀ value, MsiEcHelper.cooler_boost args = Some value →
        raises (write h (child MsiEcHelper.BASE "cooler_boost") value)
        = false) ∧
       (∀ level, MsiEcHelper.brightness args = Some level →
        raises (write h MsiEcHelper.BRIGHTNESS_PATH (pretty level)) = false)).
Proof.
  intros Hwb. unfold MsiEcHelper.main.
  destruct (MsiEcHelper.truthy (MsiEcHelper.fan_mode args)
            || MsiEcHelper.truthy (MsiEcHelper.shift_mode args)
            || MsiEcHelper.truthy (MsiEcHelper.cooler_boost args)
            || bool_decide (is_Some (MsiEcHelper.brightness args))) eqn:Hasked;
    cbn [negb].
  2: { eexists _, _. split; [done|]. split; [by right|]. split; [done|]. by intros [? _]. }
  destruct (write_if_ok h (MsiEcHelper.truthy (MsiEcHelper.fan_mode args))
              (child MsiEcHelper.BASE "fan_mode")
              (default "" (MsiEcHelper.fan_mode args)) true [] Hwb) as [err1 ->].
  unfold mbind at 1, result_bind at 1, Py.bind at 1.
  match goal with |- context [MsiEcHelper.write_if h ?w ?p ?v (?ok, err1)] =>
    destruct (write_if_ok h w p v ok err1 Hwb) as [err2 ->] end.
  unfold mbind at 1, result_bind at 1, Py.bind at 1.
  match goal with |- context [MsiEcHelper.write_if h ?w ?p ?v (?ok, err2)] =>
    destruct (write_if_ok h w p v ok err2 Hwb) as [err3 ->] end.
  unfold mbind at 1, result_bind at 1, Py.bind at 1.
  match goal with |- context [MsiEcHelper.write_if h ?w ?p ?v (?ok, err3)] =>
    destruct (write_if_ok h w p v ok err3 Hwb) as [err4 ->] end.
  unfold mbind, mret, result_bind, result_ret, Py.bind.
  eexists _, _. split; [done|].
  match goal with |- context [if ?ok then 0 else 1] => set (written := ok) end.
  split; [destruct written; by (left + right)|].
  transitivity (written = true); [by destruct written|].
  unfold written. rewrite !andb_true_iff, !wanted_written.
  destruct (MsiEcHelper.cooler_boost args) as [boost|];
    destruct (MsiEcHelper.brightness args) as [level|]; simpl;
    (split;
     [intros (H4 & H3 & H2 & H1 & _); repeat split; try done;
      intros v Hv; (discriminate Hv || (injection Hv as <-; by auto))
     |intros (_ & F1 & F2 & F3 & F4); repeat split; try done;
      intros _; by (apply F3 + apply F4)]).
Qed.

End MsiFacts.

(** [scripts/msi_ec_helper.py] as a process, on a machine whose writes
    raise instances of [Exception] only: the script ends with status 0, 1
    or 2. It ends with 2 exactly when argparse rejects the command line,
    and with 0 exactly when it was asked for help, or when something was
    asked for and every write it was asked for went through. *)
Theorem msi_helper_exit_status
    (parse_args : list string → MsiEcHelper.parsed) (h : Host.t) (argv : list string) :
  Host.well_behaved h →
  ∃ cp,
    MsiEcHelper.run parse_args h argv = Ok cp ∧
    (Host.returncode cp = 0 ∨ Host.returncode cp = 1 ∨ Host.returncode cp = 2) ∧
    (Host.returncode cp = 2 ↔ ∃ text, parse_args argv = MsiEcHelper.Usage text) ∧
    (Host.returncode cp = 0 ↔
       (∃ text, parse_args argv = MsiEcHelper.Help text) ∨
       ∃ args,
         parse_args argv = MsiEcHelper.Namespace args ∧
         MsiEcHelper.truthy (MsiEcHelper.fan_mode args)
         || MsiEcHelper.truthy (MsiEcHelper.shift_mode args)
         || MsiEcHelper.truthy (MsiEcHelper.cooler_boost args)
         || bool_decide (is_Some (MsiEcHelper.brightness args)) = true ∧
         (MsiEcHelper.truthy (MsiEcHelper.fan_mode args) = true →
          raises (Host.write h (MsiEcManager.child MsiEcHelper.BASE "fan_mode")
                    (default "" (MsiEcHelper.fan_mode args))) = false) ∧
         (MsiEcHelper.truthy (MsiEcHelper.shift_mode args) = true →
          raises (Host.write h (MsiEcManager.child MsiEcHelper.BASE "shift_mode")
                    (default "" (MsiEcHelper.shift_mode args))) = false) ∧
         (∀ value, MsiEcHelper.cooler_boost args = Some value →
          raises (Host.write h (MsiEcManager.child MsiEcHelper.BASE "cooler_boost") value)
          = false) ∧
         (∀ level, MsiEcHelper.brightness args = Some level →
          raises (Host.write h MsiEcHelper.BRIGHTNESS_PATH (pretty level)) = false)).
Proof.
  intros Hwb. unfold MsiEcHelper.run.
  destruct (parse_args argv) as [args|text|text] eqn:Hparse.
  - destruct (msi_main_exit_status h args Hwb) as (code & err & -> & Hcode & Hzero).
    unfold mbind, mret, result_bind, result_ret, Py.bind.
    eexists. split; [done|]. cbn. split; [destruct Hcode; auto|]. split.
    + split; [intros Htwo; destruct Hcode; lia|]. by intros [text [=]].
    + split.
      * intros Hok. right. exists args. split; [done|]. by apply Hzero.
      * intros [[text [=]]|(args' & [= <-] & Hasked)]. by apply Hzero.
  - eexists. split; [done|]. cbn. split; [auto|]. split.
    + split; [by eexists|done].
    + split; [done|]. by intros [[text' [=]]|(args & [=] & _)].
  - eexists. split; [done|]. cbn. split; [auto|]. split.
    + split; [done|]. by intros [text' [=]].
    + split; [|done]. intros _. left. by eexists.
Qed.


(** A parser for the command lines [--option value] that knows the three
    string options by their full names. *)
Definition parse_option (argv : list string) : MsiEcHelper.parsed :=
  match argv with
  | [flag; value] =>
      if String.eqb flag "--fan_mode" then
        MsiEcHelper.Namespace
          {| MsiEcHelper.fan_mode := Some value; MsiEcHelper.shift_mode := None;
             MsiEcHelper.cooler_boost := None; MsiEcHelper.brightness := None |}
      else if String.eqb flag "--shift_mode" then
        MsiEcHelper.Namespace
          {| MsiEcHelper.fan_mode := None; MsiEcHelper.shift_mode := Some value;
             MsiEcHelper.cooler_boost := None; MsiEcHelper.brightness := None |}
      else if String.eqb flag "--cooler_boost" then
        MsiEcHelper.Namespace
          {| MsiEcHelper.fan_mode := None; MsiEcHelper.shift_mode := None;
             MsiEcHelper.cooler_boost := Some value; MsiEcHelper.brightness := None |}
      else MsiEcHelper.Usage "usage: msi_ec_helper.py [-h] [--fan_mode FAN_MODE]"
  | _ => MsiEcHelper.Usage "usage: msi_ec_helper.py [-h] [--fan_mode FAN_MODE]"
  end.



(** For root every write goes through, but the controller rejects the
    shift mode it is given. *)
Definition msi_root : Host.t :=
  host_with
    (fun path _ =>
       if String.eqb path "/sys/devices/platform/msi-ec/shift_mode"
       then Raise (Exn OSError "[Errno 22] Invalid argument") else Ok tt)
    no_pkexec.

Lemma msi_root_well_behaved : Host.well_behaved msi_root.
Proof.
  apply host_with_well_behaved.
  - intros p v e. destruct (String.eqb p _); [|done]. by intros [= <-].
  - by intros cmd e [= <-].
Qed.



(** Root asks for a shift mode the controller rejects, and for an option
    the parser does not declare. *)
Lemma msi_helper_exit_status_witness :
  (∃ cp, MsiEcHelper.run parse_option msi_root ["--shift_mode"; "turbo"] = Ok cp ∧
         Host.returncode cp = 1) ∧
  (∃ cp, MsiEcHelper.run parse_option msi_root ["--webcam"; "on"] = Ok cp ∧
         Host.returncode cp = 2).
Proof.
  split.
  - destruct (msi_helper_exit_status parse_option msi_root ["--shift_mode"; "turbo"]
                msi_root_well_behaved)
      as (cp & Hrun & Hcode & Htwo & Hzero).
    exists cp. split; [exact Hrun|].
    destruct Hcode as [H0|[H1|H2]]; [|exact H1|].
    + apply Hzero in H0 as [[text Hhelp]|(args & Hns & _ & _ & Hshift & _)].
      * discriminate Hhelp.
      * injection Hns as <-. discriminate (Hshift eq_refl).
    + apply Htwo in H2 as [text Husage]. discriminate Husage.
  - destruct (msi_helper_exit_status parse_option msi_root ["--webcam"; "on"]
                msi_root_well_behaved)
      as (cp & Hrun & _ & Htwo & _).
    exists cp. split; [exact Hrun|].
    apply Htwo. eexists. reflexivity.
Defined.


(* ===================================================================== *)
(** ** Presentation helpers: [_format_bytes] and the alert levels *)
(* ===================================================================== *)

Module Presentation.

(** [x >= y] and [abs(x) < y] on floats. *)
Definition Qgeb (x y : Q) : bool := Qle_bool y x.
Definition Qabs_ltb (x y : Q) : bool := negb (Qle_bool y (Qabs x)).

(** The loop of [AppController._format_bytes] over the units that are
    left. The result is the number and the unit the f-string prints; the
    rounding of the number to two decimals is left to the f-string. *)
Fixpoint format_loop (units : list string) (bytes_value : Q) : Q * string :=
  match units with
  | [] => (bytes_value, "PB")
  | unit :: rest =>
      if Qabs_ltb bytes_value 1024 then (bytes_value, unit)
      else format_loop rest (bytes_value / 1024)
  end.

Definition units : list string := ["B"; "KB"; "MB"; "GB"; "TB"].

Definition _format_bytes (bytes_value : Q) : Q * string :=
  format_loop units bytes_value.

(** The alert levels of the main window. *)
Inductive level := ok | warn | crit.

Definition rank (l : level) : nat :=
  match l with ok => 0 | warn => 1 | crit => 2 end.

(** [MonitorWindow._level_for_value]; [alerts] is [self._alerts.get] on the
    thresholds, which are numbers. *)
Definition _level_for_value (alerts : string → option Q) (value : Q) (key : string)
    : level :=
  let warn_at := default 85%Q (alerts (key +:+ "_warn")) in
  let crit_at := default 95%Q (alerts (key +:+ "_crit")) in
  if Qgeb value crit_at then crit
  else if Qgeb value warn_at then warn
  else ok.

(** The text [_apply_alerts] puts on the alert label. *)
Definition alert_text (alerts : string → option Q) (cpu_percent ram_percent : Q)
    : string :=
  let cpu_level := _level_for_value alerts cpu_percent "cpu" in
  let ram_level := _level_for_value alerts ram_percent "ram" in
  let message_parts :=
    match cpu_level with
    | crit => ["CPU alta"] | warn => ["CPU elevada"] | ok => []
    end ++
    match ram_level with
    | crit => ["RAM alta"] | warn => ["RAM elevada"] | ok => []
    end in
  match message_parts with
  | [] => "Sistema dentro de rangos normales"
  | _ => Host.join_with " | " message_parts
  end.

(** The position of a unit in the scale. *)
Definition exponent (unit : string) : Z :=
  if String.eqb unit "B" then 0 else if String.eqb unit "KB" then 1
  else if String.eqb unit "MB" then 2 else if String.eqb unit "GB" then 3
  else if String.eqb unit "TB" then 4 else 5.

End Presentation.

Section PresentationFacts.

Import Presentation.

Lemma Qabs_ltb_true x y : Qabs_ltb x y = true ↔ (Qabs x < y)%Q.
Proof.
  unfold Qabs_ltb. rewrite negb_true_iff. split.
  - intros Hb. apply Qnot_le_lt. intros Hle. apply Qle_bool_iff in Hle. congruence.
  - intros Hlt. destruct (Qle_bool y (Qabs x)) eqn:Hb; [|done].
    apply Qle_bool_iff in Hb. exfalso. by apply (Qlt_not_le _ _ Hlt).
Qed.

Lemma Qabs_ltb_false x y : Qabs_ltb x y = false ↔ (y <= Qabs x)%Q.
Proof. unfold Qabs_ltb. by rewrite negb_false_iff, Qle_bool_iff. Qed.

Lemma Qabs_div_1024 x : (Qabs (x / 1024) == Qabs x / 1024)%Q.
Proof.
  unfold Qdiv. rewrite Qabs_Qmult.
  assert (H : (Qabs (/ 1024) == / 1024)%Q) by (apply Qabs_pos; done).
  by rewrite H.
Qed.

(** What the loop returns from the [k]-th unit on. *)
Lemma format_loop_scaled us : ∀ (k : Z) (v : Q),
  0 ≤ k →
  (∀ i u, us !! i = Some u → exponent u = k + Z.of_nat i) →
  k + Z.of_nat (length us) = 5 →
  let '(shown, unit) := format_loop us v in
  k ≤ exponent unit ≤ 5 ∧
  (shown * 1024 ^ (exponent unit - k) == v)%Q ∧
  (exponent unit < 5 → (Qabs shown < 1024)%Q) ∧
  (k < exponent unit → (1 <= Qabs shown)%Q).
Proof.
  induction us as [|u us IH]; intros k v Hk Hexp Hlen.
  - simpl in *. change (exponent "PB") with 5. assert (k = 5) as -> by lia.
    repeat split; try lia. by rewrite Z.sub_diag, Qmult_1_r.
  - cbn [format_loop]. pose proof (Hexp 0%nat u eq_refl) as Hu.
    rewrite Z.add_0_r in Hu.
    destruct (Qabs_ltb v 1024) eqn:Hsmall.
    + rewrite Hu. cbn [length] in Hlen. repeat split; try lia.
      * by rewrite Z.sub_diag, Qmult_1_r.
      * intros _. by apply Qabs_ltb_true.
    + specialize (IH (k + 1) (v / 1024)%Q ltac:(lia)).
      destruct (format_loop us (v / 1024)) as [shown unit].
      destruct IH as (Hrange & Hscale & Hbelow & Habove).
      { intros i u' Hi. rewrite (Hexp (S i) u' Hi). lia. }
      { cbn [length] in Hlen. lia. }
      repeat split; try lia; [|done|].
      * replace (exponent unit - k) with ((exponent unit - (k + 1)) + 1) by lia.
        rewrite Qpower_plus' by lia.
        rewrite Qmult_assoc, Hscale. change (1024 ^ 1)%Q with 1024%Q.
        rewrite Qmult_comm. by apply Qmult_div_r.
      * intros _. destruct (Z.eq_dec (exponent unit) (k + 1)) as [Heq|Hne].
        -- rewrite Heq, Z.sub_diag, Qmult_1_r in Hscale. rewrite Hscale.
           rewrite Qabs_div_1024. apply Qabs_ltb_false in Hsmall.
           apply Qle_shift_div_l; [done|]. by rewrite Qmult_1_l.
        -- apply Habove. lia.
Qed.

Lemma level_cases alerts value key :
  let warn_at := default 85%Q (alerts (key +:+ "_warn")) in
  let crit_at := default 95%Q (alerts (key +:+ "_crit")) in
  match _level_for_value alerts value key with
  | crit => (crit_at <= value)%Q
  | warn => (value < crit_at)%Q ∧ (warn_at <= value)%Q
  | ok => (value < crit_at)%Q ∧ (value < warn_at)%Q
  end.
Proof.
  unfold _level_for_value, Qgeb. cbv zeta.
  destruct (Qle_bool (default 95%Q _) value) eqn:Hc.
  { by apply Qle_bool_iff. }
  assert (Hlt : (value < default 95%Q (alerts (key +:+ "_crit")))%Q).
  { apply Qnot_le_lt. intros Hle. apply Qle_bool_iff in Hle. congruence. }
  destruct (Qle_bool (default 85%Q _) value) eqn:Hw.
  { split; [done|]. by apply Qle_bool_iff. }
  split; [done|]. apply Qnot_le_lt. intros Hle. apply Qle_bool_iff in Hle. congruence.
Qed.

End PresentationFacts.

(** [_format_bytes] picks the unit by magnitude: the number shown, times
    1024 to the power of the unit's position, is the value given; it is
    below 1024 in magnitude for every unit but [PB], and at least 1 for
    every unit but [B]. *)
Theorem format_bytes_scale (bytes_value : Q) :
  let '(shown, unit) := Presentation._format_bytes bytes_value in
  unit ∈ ["B"; "KB"; "MB"; "GB"; "TB"; "PB"] ∧
  (shown * 1024 ^ Presentation.exponent unit == bytes_value)%Q ∧
  (unit ≠ "PB" → (Qabs shown < 1024)%Q) ∧
  (unit ≠ "B" → (1 <= Qabs shown)%Q).
Proof.
  unfold Presentation._format_bytes.
  pose proof (format_loop_scaled Presentation.units 0 bytes_value ltac:(lia)) as Hloop.
  assert (Hunit : ∀ us v, (Presentation.format_loop us v).2 ∈ us ++ ["PB"]).
  { induction us as [|u us IH]; intros v; simpl; [by left|].
    destruct (Presentation.Qabs_ltb v 1024); [by left|]. right. apply IH. }
  specialize (Hunit Presentation.units bytes_value).
  destruct (Presentation.format_loop Presentation.units bytes_value) as [shown unit].
  destruct Hloop as (Hrange & Hscale & Hbelow & Habove); [|done|].
  { intros i u Hi. unfold Presentation.units in Hi.
    do 5 (destruct i as [|i]; [by injection Hi as <-|]). done. }
  simpl in Hunit. split; [exact Hunit|].
  rewrite Z.sub_0_r in Hscale. split; [exact Hscale|].
  split.
  - intros Hpb. apply Hbelow.
    repeat (apply elem_of_cons in Hunit as [->|Hunit]; [by (vm_compute + done)|]).
    by apply elem_of_nil in Hunit.
  - intros Hb. apply Habove.
    repeat (apply elem_of_cons in Hunit as [->|Hunit]; [by (vm_compute + done)|]).
    by apply elem_of_nil in Hunit.
Qed.

(** The alert level never goes down when the value goes up, whatever
    thresholds are configured; and the alert label says that the system is
    within normal ranges exactly when CPU and RAM are below both of their
    thresholds. *)
Theorem alert_level_monotone
    (alerts : string → option Q) (key : string) (v1 v2 cpu_percent ram_percent : Q) :
  (v1 <= v2)%Q →
  (Presentation.rank (Presentation._level_for_value alerts v1 key)
   ≤ Presentation.rank (Presentation._level_for_value alerts v2 key))%nat ∧
  (Presentation.alert_text alerts cpu_percent ram_percent
   = "Sistema dentro de rangos normales" ↔
   Presentation._level_for_value alerts cpu_percent "cpu" = Presentation.ok ∧
   Presentation._level_for_value alerts ram_percent "ram" = Presentation.ok).
Proof.
  intros Hle. split.
  - pose proof (level_cases alerts v1 key) as H1.
    pose proof (level_cases alerts v2 key) as H2. cbv zeta in H1, H2.
    destruct (Presentation._level_for_value alerts v1 key),
             (Presentation._level_for_value alerts v2 key); simpl; try lia; exfalso.
    + destruct H1 as [_ H1], H2 as [_ H2].
      apply (Qlt_irrefl v2). eapply Qlt_le_trans; [exact H2|]. by eapply Qle_trans.
    + destruct H2 as [H2 _].
      apply (Qlt_irrefl v2). eapply Qlt_le_trans; [exact H2|]. by eapply Qle_trans.
    + destruct H2 as [H2 _].
      apply (Qlt_irrefl v2). eapply Qlt_le_trans; [exact H2|]. by eapply Qle_trans.
  - unfold Presentation.alert_text. cbv zeta.
    destruct (Presentation._level_for_value alerts cpu_percent "cpu"),
             (Presentation._level_for_value alerts ram_percent "ram");
      simpl; split; try done; by intros [? ?].
Qed.

Lemma alert_level_monotone_witness :
  Presentation._level_for_value (fun _ => None) 80%Q "cpu" = Presentation.ok ∧
  Presentation._level_for_value (fun _ => None) 90%Q "cpu" = Presentation.warn ∧
  (Presentation.rank (Presentation._level_for_value (fun _ => None) 80%Q "cpu")
   ≤ Presentation.rank (Presentation._level_for_value (fun _ => None) 90%Q "cpu"))%nat.
Proof.
  split; [reflexivity|]. split; [reflexivity|].
  exact (proj1 (alert_level_monotone (fun _ => None) "cpu" 80%Q 90%Q 0%Q 0%Q
                  ltac:(discriminate))).
Defined.

(* ===================================================================== *)
(** ** [model/msi_ec_manager.py]: the battery thresholds *)
(* ===================================================================== *)

Module MsiEcBattery.

Import Host MsiEcManager.




End MsiEcBattery.



(* ===================================================================== *)
(** ** [model/gpu_manager.py]: the NVIDIA query *)
(* ===================================================================== *)

Module GPUManager.

(** [s.split(",")]; the comma is character 44. *)
Fixpoint split_commas_from (current : string) (s : string) : list string :=
  match s with
  | EmptyString => [String.rev current]
  | String a s' =>
      if Ascii.eqb a (Ascii.ascii_of_nat 44) then String.rev current :: split_commas_from "" s'
      else split_commas_from (String a current) s'
  end.

Definition split_commas (s : string) : list string := split_commas_from "" s.

(** [[p.strip() for p in line.split(",")]]. *)
Definition parts_of (line : string) : list string :=
  Host.strip <$> split_commas line.

(** What the query needs from the machine: [shutil.which], the outcome of
    [subprocess.run] (the exit status and
    [result.stdout.strip().splitlines()]), and [int] and [float] on
    strings. *)
Record Smi := { returncode : Z; lines : list string }.

Record Env := {
  which : string → option string;
  run_nvidia_smi : result Smi;
  parse_int : string → result Z;
  parse_float : string → result Q }.

Definition well_behaved (env : Env) : Prop :=
  Host.raises_exceptions_only (run_nvidia_smi env) ∧
  (∀ s, Host.raises_exceptions_only (parse_int env s)) ∧
  (∀ s, Host.raises_exceptions_only (parse_float env s)).

Record Gpu := {
  vendor : string; name : string; index : Z;
  utilization : Q; mem_util : Q; mem_total_mb : Q; mem_used_mb : Q;
  temperature : Q; power_w : Q }.

(** The dictionary display for one line of at least eight fields. *)
Definition gpu_of (env : Env) (parts : list string) : result Gpu :=
  let part (i : nat) := default "" (parts !! i) in
  index ← parse_int env (part 1%nat);
  utilization ← parse_float env (part 2%nat);
  mem_util ← parse_float env (part 3%nat);
  mem_total_mb ← parse_float env (part 4%nat);
  mem_used_mb ← parse_float env (part 5%nat);
  temperature ← parse_float env (part 6%nat);
  power_w ← parse_float env (part 7%nat);
  mret {| vendor := "NVIDIA"; name := part 0%nat; index := index;
          utilization := utilization; mem_util := mem_util;
          mem_total_mb := mem_total_mb; mem_used_mb := mem_used_mb;
          temperature := temperature; power_w := power_w |}.

(** A line with fewer than eight fields is passed over. *)
Definition full (line : string) : bool := negb (length (parts_of line) <? 8)%nat.

(** The loop over the lines. *)
Fixpoint gpu_loop (env : Env) (lines : list string) (gpus : list Gpu)
    : result (list Gpu) :=
  match lines with
  | [] => Ok gpus
  | line :: rest =>
      if negb (full line) then gpu_loop env rest gpus
      else
        gpu ← gpu_of env (parts_of line);
        gpu_loop env rest (gpus ++ [gpu])
  end.

(** [_get_nvidia_smi]: the whole query is inside one [try]. *)
Definition _get_nvidia_smi (env : Env) : result (list Gpu) :=
  match which env "nvidia-smi" with
  | None => Ok []
  | Some _ =>
      let body :=
        result ← run_nvidia_smi env;
        if negb (returncode result =? 0) then Ok []
        else gpu_loop env (lines result) [] in
      match body with
      | Ok gpus => Ok gpus
      | Raise e => if isinstance e Exception then Ok [] else Raise e
      end
  end.

(** [get_gpu_info]; [amd] is the outcome of [self._get_rocm_smi()], which
    is asked only when the NVIDIA list is empty. *)
Definition get_gpu_info (env : Env) (amd : result (list Gpu)) : result (list Gpu) :=
  nvidia ← _get_nvidia_smi env;
  match nvidia with
  | _ :: _ => Ok nvidia
  | [] =>
      amd ← amd;
      match amd with
      | _ :: _ => Ok amd
      | [] => Ok []
      end
  end.

(** The lines of at least eight fields. *)
Definition full_lines (ls : list string) : list string := List.filter full ls.

End GPUManager.

Section GpuFacts.

Import GPUManager.

Implicit Types (env : Env) (ls : list string).

Lemma gpu_of_exception env parts :
  well_behaved env → Host.raises_exceptions_only (gpu_of env parts).
Proof.
  intros (_ & Hint & Hfloat) e. unfold gpu_of, mbind, result_bind, Py.bind.
  repeat match goal with
         | |- context [parse_int env ?s] =>
             let H := fresh in
             destruct (parse_int env s) eqn:H;
             [|intros [= <-]; by eapply Hint]
         | |- context [parse_float env ?s] =>
             let H := fresh in
             destruct (parse_float env s) eqn:H;
             [|intros [= <-]; by eapply Hfloat]
         end.
  done.
Qed.

(** The loop goes through when every full line can be read. *)
Lemma gpu_loop_all env ls : ∀ gpus,
  Forall (fun line => raises (gpu_of env (parts_of line)) = false) (full_lines ls) →
  ∃ more, gpu_loop env ls gpus = Ok (gpus ++ more) ∧
          Forall2 (fun line gpu => gpu_of env (parts_of line) = Ok gpu)
            (full_lines ls) more.
Proof.
  induction ls as [|line rest IH]; intros gpus Hall.
  - exists []. rewrite app_nil_r. split; [done|constructor].
  - cbn [gpu_loop]. unfold full_lines in *. cbn [List.filter] in *.
    destruct (full line); cbn [negb].
    + apply Forall_cons in Hall as [Hline Hall].
      destruct (gpu_of env (parts_of line)) as [gpu|] eqn:Hgpu; [|done].
      unfold mbind, result_bind, Py.bind.
      destruct (IH (gpus ++ [gpu]) Hall) as (more & -> & Hmore).
      exists (gpu :: more). rewrite <- app_assoc. split; [done|]. by constructor.
    + by apply IH.
Qed.

(** The loop ends with the exception of the first full line that cannot be
    read. *)
Lemma gpu_loop_raises env ls : ∀ gpus,
  Exists (fun line => raises (gpu_of env (parts_of line)) = true) (full_lines ls) →
  raises (gpu_loop env ls gpus) = true.
Proof.
  induction ls as [|line rest IH]; intros gpus Hsome.
  - by apply Exists_nil in Hsome.
  - cbn [gpu_loop]. unfold full_lines in *. cbn [List.filter] in *.
    destruct (full line); cbn [negb]; [|by apply IH].
    unfold mbind, result_bind, Py.bind.
    destruct (gpu_of env (parts_of line)) as [gpu|] eqn:Hgpu; [|done].
    apply Exists_cons in Hsome as [Hline|Hrest]; [by rewrite Hgpu in Hline|].
    by apply IH.
Qed.

Lemma gpu_loop_exception env ls : ∀ gpus e,
  well_behaved env → gpu_loop env ls gpus = Raise e → isinstance e Exception = true.
Proof.
  induction ls as [|line rest IH]; intros gpus e Hwb; [done|].
  cbn [gpu_loop]. destruct (negb (full line)); [by apply IH|].
  unfold mbind, result_bind, Py.bind.
  destruct (gpu_of env (parts_of line)) as [gpu|e'] eqn:Hgpu; [by apply IH|].
  intros [= <-]. by eapply gpu_of_exception.
Qed.

End GpuFacts.

(** The NVIDIA query is all or nothing. When [nvidia-smi] ends with status
    0, [_get_nvidia_smi] lists one GPU for each line of at least eight
    fields, in order, if all these lines can be read; a single such line
    with a field that [int] or [float] rejects leaves the list empty, and
    [get_gpu_info] then answers with what the AMD query gives. *)
Theorem nvidia_query_all_or_nothing
    (env : GPUManager.Env) (found : string) (smi : GPUManager.Smi)
    (amd : result (list GPUManager.Gpu)) :
  GPUManager.well_behaved env →
  GPUManager.which env "nvidia-smi" = Some found →
  GPUManager.run_nvidia_smi env = Ok smi →
  GPUManager.returncode smi = 0 →
  (Forall (fun line => raises (GPUManager.gpu_of env (GPUManager.parts_of line)) = false)
     (GPUManager.full_lines (GPUManager.lines smi)) →
   ∃ gpus, GPUManager._get_nvidia_smi env = Ok gpus ∧
           Forall2 (fun line gpu =>
                      GPUManager.gpu_of env (GPUManager.parts_of line) = Ok gpu)
             (GPUManager.full_lines (GPUManager.lines smi)) gpus) ∧
  (Exists (fun line => raises (GPUManager.gpu_of env (GPUManager.parts_of line)) = true)
     (GPUManager.full_lines (GPUManager.lines smi)) →
   GPUManager._get_nvidia_smi env = Ok [] ∧
   GPUManager.get_gpu_info env amd
   = match amd with Ok [] => Ok [] | other => other end).
Proof.
  intros Hwb Hwhich Hrun Hzero.
  assert (Hbody : GPUManager._get_nvidia_smi env
                  = match GPUManager.gpu_loop env (GPUManager.lines smi) [] with
                    | Ok gpus => Ok gpus
                    | Raise e => if isinstance e Exception then Ok [] else Raise e
                    end).
  { unfold GPUManager._get_nvidia_smi. rewrite Hwhich, Hrun.
    unfold mbind, result_bind, Py.bind. by rewrite Hzero. }
  split.
  - intros Hall.
    destruct (gpu_loop_all env (GPUManager.lines smi) [] Hall) as (gpus & Hloop & Hgpus).
    rewrite Hbody, Hloop. by exists gpus.
  - intros Hsome.
    assert (Hnone : GPUManager._get_nvidia_smi env = Ok []).
    { rewrite Hbody.
      pose proof (gpu_loop_raises env (GPUManager.lines smi) [] Hsome) as Hraise.
      destruct (GPUManager.gpu_loop env (GPUManager.lines smi) []) as [|e] eqn:Hloop;
        [done|].
      by rewrite (gpu_loop_exception env _ _ e Hwb Hloop). }
    split; [done|]. unfold GPUManager.get_gpu_info. rewrite Hnone.
    unfold mbind, result_bind, Py.bind. by destruct amd as [[|]|].
Qed.

(** A laptop whose GPU does not report its power draw. *)
Definition number_of (s : string) : result Q :=
  if String.eqb s "[N/A]"
  then Raise (Exn ValueError "could not convert string to float: '[N/A]'")
  else Ok 0%Q.

Definition laptop_gpu : GPUManager.Env :=
  {| GPUManager.which := fun _ => Some "/usr/bin/nvidia-smi";
     GPUManager.run_nvidia_smi :=
       Ok {| GPUManager.returncode := 0;
             GPUManager.lines :=
               ["NVIDIA GeForce RTX 3050, 0, 12, 3, 4096, 512, 47, [N/A]"] |};
     GPUManager.parse_int := fun _ => Ok 0;
     GPUManager.parse_float := number_of |}.

Lemma laptop_gpu_well_behaved : GPUManager.well_behaved laptop_gpu.
Proof.
  unfold GPUManager.well_behaved, Host.raises_exceptions_only. simpl.
  repeat split; try done.
  intros s e. unfold number_of. destruct (String.eqb s "[N/A]"); [|done].
  by intros [= <-].
Qed.

Lemma nvidia_query_all_or_nothing_witness :
  GPUManager.parts_of "NVIDIA GeForce RTX 3050, 0, 12, 3, 4096, 512, 47, [N/A]"
  = ["NVIDIA GeForce RTX 3050"; "0"; "12"; "3"; "4096"; "512"; "47"; "[N/A]"] ∧
  GPUManager._get_nvidia_smi laptop_gpu = Ok [] ∧
  GPUManager.get_gpu_info laptop_gpu (Ok []) = Ok [].
Proof.
  split; [reflexivity|].
  refine (proj2 (nvidia_query_all_or_nothing laptop_gpu "/usr/bin/nvidia-smi"
                   {| GPUManager.returncode := 0;
                      GPUManager.lines :=
                        ["NVIDIA GeForce RTX 3050, 0, 12, 3, 4096, 512, 47, [N/A]"] |}
                   (Ok []) laptop_gpu_well_behaved eq_refl eq_refl eq_refl) _).
  apply Exists_cons_hd. reflexivity.
Defined.
